(** * go-graphsync, response side: the response manager and its query executor

    A shallow embedding of [responsemanager/responsemanager.go] (the
    serializer that owns the in-progress table, with its own worker,
    [executeTask], [prepareQuery] and [executeQuery]) and of the query
    executor ([queryExecutor]: [processQueriesWorker], [executeTask],
    [prepareQuery], [executeQuery], [checkForUpdates], [isContextErr]),
    and of the replacer of [newTempDirMaker] in the benchmarks.

    Go state is passed explicitly.  Calls on the external collaborators
    (peer response sender, hook registries, listeners, logger) are recorded
    in a trace, in the order the code makes them; what a collaborator
    answers is a parameter of the development ([Env]).  A Go [select] picks
    one of the cases that can proceed; which one is an input of the model. *)

From stdpp Require Import base gmap list strings.
From Stdlib Require Import ZArith Lia Ascii.

Open Scope Z_scope.

(** ** Values exchanged with the rest of the process *)

Abbreviation peerID := string (only parsing).          (* peer.ID *)
Abbreviation RequestID := Z (only parsing).            (* graphsync.RequestID *)
Abbreviation Link := string (only parsing).            (* cidlink.Link{Cid: c} *)
Abbreviation Bytes := (list Byte.byte) (only parsing). (* []byte *)
Abbreviation Context := nat (only parsing).            (* a context.Context, by identity *)
Abbreviation responseKey := (string * Z)%type (only parsing).
                                                   (* responseKey{p, requestID} *)

(** The Go [error] values the code tells apart.  [nil] is [None] of
    [option error]. *)
Inductive error :=
| ErrPaused                 (* hooks.ErrPaused{}, blockhooks.ErrPaused *)
| ContextCancelError        (* ipldutil.ContextCancelError{} *)
| errCancelledByCommand     (* var errCancelledByCommand = errors.New(...) *)
| errorNew (msg : string).  (* any other error value, with its message *)

#[global] Instance error_eq_dec : EqDecision error.
Proof. solve_decision. Defined.

Module graphsync.
(** Modelled from the spec: package [graphsync] is not under src/.  These
    are the status codes the spec lists as surfaced. *)
Inductive ResponseStatusCode :=
| RequestCompletedFull
| RequestCompletedPartial
| RequestPaused
| RequestCancelled
| RequestFailedUnknown.

(** Modelled from the spec: an extension is a named opaque payload. *)
Record ExtensionData := { Name : string; Data : Bytes }.

(** Modelled from the spec: BlockData is { link, size, index }; the size is
    0 when the block is suppressed.  The code reads it with BlockSize(). *)
Record BlockData := { BlockLink : Link; BlockSize : Z; BlockIndex : Z }.

(** Modelled from the spec: the names of the two extensions the core
    recognizes. *)
Definition ExtensionDoNotSendCIDs : string := "do-not-send-cids".
Definition ExtensionDeDupByKey : string := "dedup-by-key".
End graphsync.

Module gsmsg.
(** Modelled from the spec: package [message] is not under src/.  A
    request is the tuple (requestID, root CID, selector document,
    priority, extensions[], isCancel, isUpdate). *)
Record GraphSyncRequest := {
  ID : RequestID;
  Root : Link;
  Selector : Bytes;
  Priority : Z;
  Extensions : list graphsync.ExtensionData;
  IsCancel : bool;
  IsUpdate : bool
}.

(* request.Extension(name), which returns (data, has) *)
Definition Extension (r : GraphSyncRequest) (name : string) : option Bytes :=
  graphsync.Data <$>
    head (filter (λ e, graphsync.Name e = name) (Extensions r)).
End gsmsg.

Module peertask.
(* peertask.Task{Topic: key, Priority: ..., Work: 1} *)
Record Task := { Topic : responseKey; Priority : Z; Work : Z }.
End peertask.

(** ipld.Loader: loads the bytes behind a link, or fails. *)
Definition Loader : Type := Link → Bytes + error.

(** Modelled from the spec: [ipldutil.Traverser] is not under src/.  A
    traverser is single-use and advances by [advance(loader)], which gives
    done, an error, or a pair (link, bytes); what it visits next may depend
    on the bytes it was given. *)
Inductive Traverser :=
| TDone
| TError (e : error)
| TVisit (lnk : Link) (next : Bytes → Traverser).

(** A Go [select]: among the cases that can proceed, one is chosen
    ([choice] stands for the runtime's pick); [None] when none can, which
    is the [default] branch where there is one and blocking where not. *)
Definition select {A} (choice : nat) (cases : list (bool * A)) : option A :=
  let ready := List.filter fst cases in
  snd <$> ready !! (choice `mod` length ready)%nat.

Definition math_MaxInt32 : Z := 2147483647.


(** ** The collaborators: hooks, peer response sender, listeners, queue *)

(** The results of the three hook chains, with the fields the code reads
    (the packages that declare them are not under src/). *)
Module hooks.
(* requesthooks.Result and hooks.RequestResult; the response manager does
   not read IsPaused *)
Record RequestResult := {
  IsValidated : bool;
  IsPaused : bool;
  CustomLoader : option Loader;
  CustomChooser : option nat;
  Err : option error;
  Extensions : list graphsync.ExtensionData
}.

(* blockhooks.Result, hooks.BlockResult *)
Record BlockResult := {
  BlockErr : option error;
  BlockExtensions : list graphsync.ExtensionData
}.

(* hooks.UpdateResult *)
Record UpdateResult := {
  UpdateErr : option error;
  UpdateExtensions : list graphsync.ExtensionData
}.
End hooks.

(** The calls the code makes on its collaborators.  The sender calls carry
    the peer whose sender they go to and the request id; those made on the
    transaction sender lie between [TransactionBegin] and [TransactionEnd]. *)
Module Ev.
Inductive Event :=
| ProcessRequestHooks (p : peerID) (request : gsmsg.GraphSyncRequest)
| ProcessBlockHooks (p : peerID) (request : gsmsg.GraphSyncRequest)
    (blockData : graphsync.BlockData)
| ProcessUpdateHooks (p : peerID) (request update : gsmsg.GraphSyncRequest)
| TransactionBegin (p : peerID) (id : RequestID)
| TransactionEnd (p : peerID) (id : RequestID)
| SendResponse (p : peerID) (id : RequestID) (lnk : Link) (data : Bytes)
| SendExtensionData (p : peerID) (id : RequestID)
    (extension : graphsync.ExtensionData)
| PauseRequest (p : peerID) (id : RequestID)
| FinishRequest (p : peerID) (id : RequestID)
| FinishWithError (p : peerID) (id : RequestID)
    (status : graphsync.ResponseStatusCode)
| FinishWithCancel (p : peerID) (id : RequestID)
| DedupKey (p : peerID) (id : RequestID) (key : string)
| IgnoreBlocks (p : peerID) (id : RequestID) (links : list Link)
| TraversalStart (ctx : Context) (root : Link) (selector : Bytes)
| NotifyCancelledListeners (p : peerID) (request : gsmsg.GraphSyncRequest)
| NotifyCompletedListeners (p : peerID) (request : gsmsg.GraphSyncRequest)
    (status : graphsync.ResponseStatusCode)
| LogInfo (msg : string).
End Ev.

(** What the collaborators answer, given the calls made so far, and the
    constants of packages that are not under src/. *)
Record Env := {
  ProcessRequestHooks :
    list Ev.Event → peerID → gsmsg.GraphSyncRequest → hooks.RequestResult;
  ProcessBlockHooks :
    list Ev.Event → peerID → gsmsg.GraphSyncRequest → graphsync.BlockData →
    hooks.BlockResult;
  ProcessUpdateHooks :
    list Ev.Event → peerID → gsmsg.GraphSyncRequest → gsmsg.GraphSyncRequest →
    hooks.UpdateResult;
  (* the BlockData a SendResponse returns *)
  SendResponse :
    list Ev.Event → peerID → RequestID → Link → Bytes → graphsync.BlockData;
  (* the status a FinishRequest returns *)
  FinishRequest :
    list Ev.Event → peerID → RequestID → graphsync.ResponseStatusCode;
  (* what Transaction returns when its function returned nil *)
  TransactionErr : list Ev.Event → peerID → RequestID → option error;
  (* ipldutil.TraversalBuilder{Root, Selector, Chooser}.Start(ctx) *)
  Start : Link → Bytes → option nat → Context → Traverser;
  DecodeDedupKey : Bytes → string + error;      (* dedupkey.DecodeDedupKey *)
  DecodeCidSet : Bytes → list Link + error;     (* cidset.DecodeCidSet *)
  default_loader : Loader;                      (* the loader given to New *)
  ErrPaused_Error : string;                     (* ErrPaused{}.Error() *)
  ContextCancelError_Error : string    (* ContextCancelError{}.Error() *)
}.

(** QueryQueue: an interface of five operations on the task queue. *)
Class QueryQueue (Q : Type) := {
  PushTasks : peerID → list peertask.Task → Q → Q;
  PopTasks : Z → Q → (peerID * list peertask.Task * Z) * Q;
  Remove : responseKey → peerID → Q → Q;
  TasksDone : peerID → list peertask.Task → Q → Q;
  ThawRound : Q → Q
}.

(** Modelled from the spec: [runtraversal.RunTraversal] is not under src/.
    It advances the traverser with the loader; every (link, bytes) the
    traverser yields is handed to [sendResponse]; it ends when the
    traverser is done (no error), when the traverser or the loader fails,
    or with the first error [sendResponse] returns.  The traverser is a
    mutable object: the state it is left in is returned with the error. *)
Fixpoint RunTraversal {W : Type} (loader : Loader) (traverser : Traverser)
    (sendResponse : Link → Bytes → W → W * option error) (w : W)
    : W * Traverser * option error :=
  match traverser with
  | TDone => (w, TDone, None)
  | TError e => (w, TError e, Some e)
  | TVisit lnk next =>
      match loader lnk with
      | inr e => (w, TError e, Some e)
      | inl data =>
          let '(w', err) := sendResponse lnk data w in
          match err with
          | Some e => (w', next data, Some e)
          | None => RunTraversal loader (next data) sendResponse w'
          end
      end
  end.

(* strings.Contains(s, substr) *)
Fixpoint strings_Contains (s substr : string) : bool :=
  String.prefix substr s ||
  match s with
  | EmptyString => false
  | String _ s' => strings_Contains s' substr
  end.

(* err.Error() *)
Definition Error (env : Env) (err : error) : string :=
  match err with
  | ErrPaused => ErrPaused_Error env
  | ContextCancelError => ContextCancelError_Error env
  | errCancelledByCommand => "response cancelled by responder"
  | errorNew msg => msg
  end.

(* _, ok := err.(hooks.ErrPaused), for an err that may be nil *)
Definition isErrPaused (err : option error) : bool :=
  match err with
  | Some ErrPaused => true
  | _ => false
  end.

(** ** responsemanager.go *)

Module ResponseManager.

Definition maxInProcessRequests : nat := 6.

Record inProgressResponseStatus := {
  ctx : Context;       (* cancelFn is the cancel function of ctx *)
  request : gsmsg.GraphSyncRequest;
  loader : option Loader;
  traverser : option Traverser;
  (* the traverser as it was handed over with setResponseData; in Go the
     entry refers to the object, which RunTraversal advances in place *)
  isPaused : bool
}.

Record responseTaskData := {
  td_ctx : Context;
  td_request : gsmsg.GraphSyncRequest;
  td_loader : option Loader;
  td_traverser : option Traverser
}.

(** What travels on the reply channels of the messages. *)
Inductive chanValue :=
| VError (err : option error)                 (* chan error *)
| VTaskData (td : option responseTaskData)    (* chan *responseTaskData *)
| VUnit.                                      (* chan struct{} *)

(** A channel: its capacity, what is buffered (for a channel without
  buffer: what was handed to the receiver), and whether a goroutine is
  blocked receiving from it. *)
Record channel := {
  chanCap : nat;
  chanBuf : list chanValue;
  chanRecv : bool
}.

Definition sendReady (c : channel) : bool :=
  bool_decide (length (chanBuf c) < chanCap c)%nat || chanRecv c.

Definition recvReady (c : channel) : bool :=
  bool_decide (chanBuf c ≠ []).

Definition chanSend (v : chanValue) (c : channel) : channel :=
  {| chanCap := chanCap c; chanBuf := chanBuf c ++ [v]; chanRecv := false |}.

Inductive responseManagerMessage :=
| processRequestMessage (p : peerID) (requests : list gsmsg.GraphSyncRequest)
| unpauseRequestMessage (p : peerID) (requestID : RequestID) (response : nat)
| synchronizeMessage (sync : nat)
| responseDataRequest (key : responseKey) (taskDataChan : nat)
| finishTaskRequest (key : responseKey) (err : option error)
| setResponseDataRequest (key : responseKey) (loader : option Loader)
  (traverser : option Traverser).

Inductive logEntry :=
| Infof (format : string) (err : error).

Section Serializer.
Context `{QueryQueue Q}.

Record ResponseManager := {
  ctxDone : bool;                 (* rm.ctx is cancelled *)
  queryQueue : Q;
  messages : list responseManagerMessage;   (* chan, capacity 16 *)
  workSignal : bool;              (* chan struct{}, capacity 1: is it full *)
  inProgressResponses : gmap responseKey inProgressResponseStatus;
  (* the part of the Go heap the handlers touch *)
  nextCtx : Context;              (* contexts made so far *)
  cancelCalls : list Context;     (* cancelFn calls, oldest first *)
  chans : gmap nat channel;
  logged : list logEntry
}.

Definition messagesCap : nat := 16.

Definition set_ctxDone b rm :=
  {| ctxDone := b; queryQueue := queryQueue rm; messages := messages rm;
     workSignal := workSignal rm;
     inProgressResponses := inProgressResponses rm;
     nextCtx := nextCtx rm; cancelCalls := cancelCalls rm;
     chans := chans rm; logged := logged rm |}.

Definition set_queryQueue q rm :=
  {| ctxDone := ctxDone rm; queryQueue := q; messages := messages rm;
     workSignal := workSignal rm;
     inProgressResponses := inProgressResponses rm;
     nextCtx := nextCtx rm; cancelCalls := cancelCalls rm;
     chans := chans rm; logged := logged rm |}.

Definition set_messages ms rm :=
  {| ctxDone := ctxDone rm; queryQueue := queryQueue rm; messages := ms;
     workSignal := workSignal rm;
     inProgressResponses := inProgressResponses rm;
     nextCtx := nextCtx rm; cancelCalls := cancelCalls rm;
     chans := chans rm; logged := logged rm |}.

Definition set_workSignal b rm :=
  {| ctxDone := ctxDone rm; queryQueue := queryQueue rm;
     messages := messages rm; workSignal := b;
     inProgressResponses := inProgressResponses rm;
     nextCtx := nextCtx rm; cancelCalls := cancelCalls rm;
     chans := chans rm; logged := logged rm |}.

Definition set_inProgressResponses t rm :=
  {| ctxDone := ctxDone rm; queryQueue := queryQueue rm;
     messages := messages rm; workSignal := workSignal rm;
     inProgressResponses := t;
     nextCtx := nextCtx rm; cancelCalls := cancelCalls rm;
     chans := chans rm; logged := logged rm |}.

Definition set_nextCtx n rm :=
  {| ctxDone := ctxDone rm; queryQueue := queryQueue rm;
     messages := messages rm; workSignal := workSignal rm;
     inProgressResponses := inProgressResponses rm;
     nextCtx := n; cancelCalls := cancelCalls rm;
     chans := chans rm; logged := logged rm |}.

Definition set_cancelCalls cs rm :=
  {| ctxDone := ctxDone rm; queryQueue := queryQueue rm;
     messages := messages rm; workSignal := workSignal rm;
     inProgressResponses := inProgressResponses rm;
     nextCtx := nextCtx rm; cancelCalls := cs;
     chans := chans rm; logged := logged rm |}.

Definition set_chans cs rm :=
  {| ctxDone := ctxDone rm; queryQueue := queryQueue rm;
     messages := messages rm; workSignal := workSignal rm;
     inProgressResponses := inProgressResponses rm;
     nextCtx := nextCtx rm; cancelCalls := cancelCalls rm;
     chans := cs; logged := logged rm |}.

Definition set_logged l rm :=
  {| ctxDone := ctxDone rm; queryQueue := queryQueue rm;
     messages := messages rm; workSignal := workSignal rm;
     inProgressResponses := inProgressResponses rm;
     nextCtx := nextCtx rm; cancelCalls := cancelCalls rm;
     chans := chans rm; logged := l |}.

Definition set_isPaused b (r : inProgressResponseStatus) :=
  {| ctx := ctx r; request := request r; loader := loader r;
     traverser := traverser r; isPaused := b |}.

Definition set_loader_traverser l t (r : inProgressResponseStatus) :=
  {| ctx := ctx r; request := request r; loader := l;
     traverser := t; isPaused := isPaused r |}.

(* response.cancelFn() *)
Definition cancelFn (r : inProgressResponseStatus) rm :=
  set_cancelCalls (cancelCalls rm ++ [ctx r]) rm.

(* ctx.Done() of a request's context, a child of rm.ctx *)
Definition isDone (c : Context) rm : bool :=
  ctxDone rm || bool_decide (c ∈ cancelCalls rm).

(* select { case rm.workSignal <- struct{}{}: default: } *)
Definition pokeWorkSignal rm := set_workSignal true rm.

(* New: the table is empty, nothing is queued *)
Definition New (queryQueue : Q) : ResponseManager :=
  {| ctxDone := false; queryQueue := queryQueue; messages := [];
     workSignal := false; inProgressResponses := ∅;
     nextCtx := 0%nat; cancelCalls := []; chans := ∅; logged := [] |}.

(* Shutdown: rm.cancelFn() *)
Definition Shutdown rm := set_ctxDone true rm.

(** The body of the loop of [processRequestMessage.handle]. *)
Definition handleRequest (p : peerID) (request : gsmsg.GraphSyncRequest)
    rm : ResponseManager :=
  let key : responseKey := (p, gsmsg.ID request) in
  if negb (gsmsg.IsCancel request) then
    let ctx := nextCtx rm in            (* context.WithCancel(rm.ctx) *)
    let rm := set_nextCtx (S ctx) rm in
    let rm := set_inProgressResponses
      (<[key := {| ctx := ctx; request := request; loader := None;
                   traverser := None; isPaused := false |}]>
         (inProgressResponses rm)) rm in
    let rm := set_queryQueue
      (PushTasks p [ {| peertask.Topic := key;
                        peertask.Priority := gsmsg.Priority request;
                        peertask.Work := 1 |} ] (queryQueue rm)) rm in
    pokeWorkSignal rm
  else
    let rm := set_queryQueue (Remove key p (queryQueue rm)) rm in
    match inProgressResponses rm !! key with
    | Some response => cancelFn response rm
    | None => rm
    end.

Definition processRequestMessage_handle (p : peerID)
    (requests : list gsmsg.GraphSyncRequest) rm : ResponseManager :=
  foldl (λ rm request, handleRequest p request rm) rm requests.

(** A send on a reply channel, raced against rm.ctx.Done():
    select { case <-rm.ctx.Done(): case c <- v: }.  With neither case
    ready the handler blocks in the select, and the loop of [run] with it:
    [replyBlocks] says when, [reply] then gives the state the handler is
    blocked in (nothing was sent), and [run_step] reports [Stuck]. *)
Definition reply (choice : nat) (c : nat) (v : chanValue) rm
    : ResponseManager :=
  let ch := default {| chanCap := 0; chanBuf := []; chanRecv := false |}
                    (chans rm !! c) in
  match select choice [(ctxDone rm, false); (sendReady ch, true)] with
  | Some true => set_chans (<[c := chanSend v ch]> (chans rm)) rm
  | _ => rm
  end.

(* neither case of the select of [reply] can proceed *)
Definition replyBlocks (c : nat) rm : bool :=
  let ch := default {| chanCap := 0; chanBuf := []; chanRecv := false |}
                    (chans rm !! c) in
  negb (ctxDone rm) && negb (sendReady ch).

(* what responseDataRequest.handle puts in taskData *)
Definition taskDataFor (key : responseKey) rm : option responseTaskData :=
  match inProgressResponses rm !! key with
  | Some response =>
      Some {| td_ctx := ctx response; td_request := request response;
              td_loader := loader response;
              td_traverser := traverser response |}
  | None => None
  end.

Definition responseDataRequest_handle (choice : nat) (key : responseKey)
    (taskDataChan : nat) rm : ResponseManager :=
  reply choice taskDataChan (VTaskData (taskDataFor key rm)) rm.

Definition finishTaskRequest_handle (key : responseKey)
    (err : option error) rm : ResponseManager :=
  match inProgressResponses rm !! key with
  | None => rm
  | Some response =>
      if decide (err = Some ErrPaused) then
        set_inProgressResponses
          (<[key := set_isPaused true response]> (inProgressResponses rm)) rm
      else
        let rm := match err with
                  | Some e =>
                      set_logged (logged rm ++ [Infof "response failed: %w" e]) rm
                  | None => rm
                  end in
        let rm := set_inProgressResponses
                    (delete key (inProgressResponses rm)) rm in
        cancelFn response rm
  end.

(* response.loader = srdr.loader; response.traverser = srdr.traverser.
   The traverser is an object that the worker goes on advancing after it
   sent the message; the entry is given the traverser of the message. *)
Definition setResponseDataRequest_handle (key : responseKey)
    (l : option Loader) (t : option Traverser) rm : ResponseManager :=
  match inProgressResponses rm !! key with
  | None => rm
  | Some response =>
      set_inProgressResponses
        (<[key := set_loader_traverser l t response]>
           (inProgressResponses rm)) rm
  end.

Definition synchronizeMessage_handle (choice : nat) (sync : nat) rm
    : ResponseManager :=
  reply choice sync VUnit rm.

Definition unpauseRequest (p : peerID) (requestID : RequestID) rm
    : ResponseManager * option error :=
  let key : responseKey := (p, requestID) in
  match inProgressResponses rm !! key with
  | None => (rm, Some (errorNew "could not find request"))
  | Some inProgressResponse =>
      if negb (isPaused inProgressResponse) then
        (rm, Some (errorNew "request is not paused"))
      else
        let rm := set_inProgressResponses
          (<[key := set_isPaused false inProgressResponse]>
             (inProgressResponses rm)) rm in
        let rm := set_queryQueue
          (PushTasks p [ {| peertask.Topic := key;
                            peertask.Priority := math_MaxInt32;
                            peertask.Work := 1 |} ] (queryQueue rm)) rm in
        (pokeWorkSignal rm, None)
  end.

Definition unpauseRequestMessage_handle (choice : nat) (p : peerID)
    (requestID : RequestID) (response : nat) rm : ResponseManager :=
  let '(rm, err) := unpauseRequest p requestID rm in
  reply choice response (VError err) rm.

(* message.handle(rm) *)
Definition handle (choice : nat) (m : responseManagerMessage) rm
    : ResponseManager :=
  match m with
  | processRequestMessage p requests =>
      processRequestMessage_handle p requests rm
  | unpauseRequestMessage p requestID response =>
      unpauseRequestMessage_handle choice p requestID response rm
  | synchronizeMessage sync => synchronizeMessage_handle choice sync rm
  | responseDataRequest key taskDataChan =>
      responseDataRequest_handle choice key taskDataChan rm
  | finishTaskRequest key err => finishTaskRequest_handle key err rm
  | setResponseDataRequest key l t =>
      setResponseDataRequest_handle key l t rm
  end.

(** The send the handler of [m] blocks on, when it does: the reply channel
    and the value, at the state in which the handler reaches its select.
    The handlers of the other messages have no select. *)
Definition blockedOn (m : responseManagerMessage) rm
    : option (nat * chanValue) :=
  match m with
  | unpauseRequestMessage p requestID response =>
      let '(rm, err) := unpauseRequest p requestID rm in
      if replyBlocks response rm then Some (response, VError err) else None
  | synchronizeMessage sync =>
      if replyBlocks sync rm then Some (sync, VUnit) else None
  | responseDataRequest key taskDataChan =>
      if replyBlocks taskDataChan rm
      then Some (taskDataChan, VTaskData (taskDataFor key rm)) else None
  | _ => None
  end.

(* cleanupInProcessResponses: cancelFn of every entry, in the order the
   map is ranged over *)
Definition cleanupInProcessResponses rm : ResponseManager :=
  set_cancelCalls
    (cancelCalls rm ++ (ctx <$> (map_to_list (inProgressResponses rm)).*2)) rm.

Inductive running :=
| Waiting    (* no case of the select can proceed *)
| Exited     (* <-rm.ctx.Done(): return, then the deferred cleanup *)
| Handled    (* a message was received and its handler returned *)
| Stuck (c : nat) (v : chanValue).
             (* a message was received and its handler is blocked in its
                select, about to send v on c *)

(** One turn of the loop of [run]:
    select { case <-rm.ctx.Done(): return
             case message := <-rm.messages: message.handle(rm) }.
    [choice'] is the pick of the select inside the handler.  When the
    handler blocks in that select the loop does not come back to its own:
    the turn ends [Stuck], with the message taken off rm.messages and the
    state as the handler left it before its select. *)
Definition run_step (choice choice' : nat) rm : ResponseManager * running :=
  match select choice [(ctxDone rm, None);
                       (bool_decide (messages rm ≠ []), head (messages rm))] with
  | None => (rm, Waiting)
  | Some None => (cleanupInProcessResponses rm, Exited)
  | Some (Some message) =>
      let rm := set_messages (tail (messages rm)) rm in
      (handle choice' message rm,
       match blockedOn message rm with
       | Some (c, v) => Stuck c v
       | None => Handled
       end)
  end.

(** A handler that is blocked sending [v] on [c] goes on as soon as a case
    of its select can proceed: the context was cancelled, or the receiver
    is there.  The loop of [run] is then back at its own select. *)
Definition run_resume (choice : nat) (c : nat) (v : chanValue) rm
    : ResponseManager * running :=
  (reply choice c v rm, if replyBlocks c rm then Stuck c v else Handled).

(** [UnpauseResponse], a call from another goroutine, in its two selects.
    [response] is the channel that make(chan error, 1) returns. *)
Inductive call :=
| Blocked                        (* no case of the select can proceed *)
| Sent                           (* the message is on rm.messages *)
| Returned (err : option error).

Definition UnpauseResponse_send (choice : nat) (p : peerID)
    (requestID : RequestID) (response : nat) rm : ResponseManager * call :=
  let rm := set_chans
    (<[response := {| chanCap := 1; chanBuf := []; chanRecv := false |}]>
       (chans rm)) rm in
  match select choice
          [(ctxDone rm, false);
           (bool_decide (length (messages rm) < messagesCap)%nat, true)] with
  | None => (rm, Blocked)
  | Some false => (rm, Returned (Some (errorNew "Context Cancelled")))
  | Some true =>
      (set_messages
         (messages rm ++ [unpauseRequestMessage p requestID response]) rm,
       Sent)
  end.

Definition UnpauseResponse_receive (choice : nat) (response : nat) rm
    : ResponseManager * call :=
  let ch := default {| chanCap := 1; chanBuf := []; chanRecv := false |}
                    (chans rm !! response) in
  match select choice [(ctxDone rm, None);
                       (recvReady ch, head (chanBuf ch))] with
  | Some None => (rm, Returned (Some (errorNew "Context Cancelled")))
  | Some (Some (VError err)) =>
      (set_chans
         (<[response := {| chanCap := chanCap ch; chanBuf := tail (chanBuf ch);
                           chanRecv := false |}]> (chans rm)) rm,
       Returned err)
  | _ => (rm, Blocked)
  end.

(** [c] is a chan error: all it holds are errors (or nil). *)
Definition chanOfErrors (c : nat) (rm : ResponseManager) : Prop :=
  ∀ ch v, chans rm !! c = Some ch → v ∈ chanBuf ch → ∃ err, v = VError err.

(** Contexts are handed out in increasing order: every context of the table
    and every cancelled one was made before [nextCtx]. *)
Definition wf (rm : ResponseManager) : Prop :=
  (∀ key response,
     inProgressResponses rm !! key = Some response →
     (ctx response < nextCtx rm)%nat) ∧
  (∀ c, c ∈ cancelCalls rm → (c < nextCtx rm)%nat).

End Serializer.

(** *** The worker side: processQueriesWorker, executeTask, prepareQuery,
    executeQuery *)

(** What a worker goroutine acts on: the calls made on the collaborators,
    whether rm.ctx is cancelled, the picks of the selects to come and the
    messages put on rm.messages.  A send or a receive that has to wait is
    modelled by its completion. *)
Record worker := {
  w_trace : list Ev.Event;
  w_ctxDone : bool;
  w_choices : list nat;
  w_sent : list responseManagerMessage
}.

Definition call_ (e : Ev.Event) (w : worker) : worker :=
  {| w_trace := w_trace w ++ [e]; w_ctxDone := w_ctxDone w;
     w_choices := w_choices w; w_sent := w_sent w |}.

Definition calls (es : list Ev.Event) (w : worker) : worker :=
  {| w_trace := w_trace w ++ es; w_ctxDone := w_ctxDone w;
     w_choices := w_choices w; w_sent := w_sent w |}.

Definition pick (w : worker) : nat * worker :=
  (hd 0%nat (w_choices w),
   {| w_trace := w_trace w; w_ctxDone := w_ctxDone w;
      w_choices := tl (w_choices w); w_sent := w_sent w |}).

(* select { case rm.messages <- m: case <-rm.ctx.Done(): }; true when sent *)
Definition sendMessage (m : responseManagerMessage) (w : worker)
    : worker * bool :=
  let '(c, w) := pick w in
  match select c [(true, true); (w_ctxDone w, false)] with
  | Some true =>
      ({| w_trace := w_trace w; w_ctxDone := w_ctxDone w;
          w_choices := w_choices w; w_sent := w_sent w ++ [m] |}, true)
  | _ => (w, false)
  end.

Section Worker.
Context (env : Env).

Definition prepareQuery (ctx : Context) (p : peerID)
    (request : gsmsg.GraphSyncRequest) (w : worker)
    : worker * (Loader * Traverser + error) :=
  let id := gsmsg.ID request in
  let result := ProcessRequestHooks env (w_trace w) p request in
  let w := call_ (Ev.ProcessRequestHooks p request) w in
  let w := calls (Ev.SendExtensionData p id <$> hooks.Extensions result) w in
  if bool_decide (hooks.Err result ≠ None) || negb (hooks.IsValidated result)
  then
    (call_ (Ev.FinishWithError p id graphsync.RequestFailedUnknown) w,
     inr (errorNew "request not valid"))
  else
    let traverser := Start env (gsmsg.Root request) (gsmsg.Selector request)
                       (hooks.CustomChooser result) ctx in
    let w := call_ (Ev.TraversalStart ctx (gsmsg.Root request)
                      (gsmsg.Selector request)) w in
    let loader := match hooks.CustomLoader result with
                  | Some l => l
                  | None => default_loader env
                  end in
    (w, inl (loader, traverser)).

(** The function literal that [executeQuery] gives to RunTraversal. *)
Definition sendBlock (p : peerID) (request : gsmsg.GraphSyncRequest)
    (lnk : Link) (data : Bytes) (w : worker) : worker * option error :=
  let id := gsmsg.ID request in
  let blockData := SendResponse env (w_trace w) p id lnk data in
  let w := call_ (Ev.SendResponse p id lnk data) w in
  if bool_decide (graphsync.BlockSize blockData > 0) then
    let result := ProcessBlockHooks env (w_trace w) p request blockData in
    let w := call_ (Ev.ProcessBlockHooks p request blockData) w in
    let w := calls (Ev.SendExtensionData p id <$> hooks.BlockExtensions result)
                   w in
    (w, hooks.BlockErr result)
  else (w, None).

Definition executeQuery (p : peerID) (request : gsmsg.GraphSyncRequest)
    (loader : Loader) (traverser : Traverser) (w : worker)
    : worker * Traverser * option error :=
  let id := gsmsg.ID request in
  let '(w, traverser, err) :=
    RunTraversal loader traverser (sendBlock p request) w in
  match err with
  | Some e =>
      if bool_decide (e ≠ ErrPaused) then
        (call_ (Ev.FinishWithError p id graphsync.RequestFailedUnknown) w,
         traverser, Some e)
      else (w, traverser, Some e)
  | None => (call_ (Ev.FinishRequest p id) w, traverser, None)
  end.

(** [executeTask] reads taskData.loader first: with a nil taskData the
    goroutine panics (nil pointer dereference). *)
Inductive executed :=
| Panic
| Return (w : worker) (err : option error).

Definition executeTask (key : responseKey)
    (taskData : option responseTaskData) (w : worker) : executed :=
  match taskData with
  | None => Panic
  | Some taskData =>
      match td_loader taskData, td_traverser taskData with
      | Some loader, Some traverser =>
          let '(w, _, err) :=
            executeQuery key.1 (td_request taskData) loader traverser w in
          Return w err
      | _, _ =>
          match prepareQuery (td_ctx taskData) key.1 (td_request taskData) w with
          | (w, inr err) => Return w (Some err)
          | (w, inl (loader, traverser)) =>
              let '(c, w) := pick w in
              match select c
                      [(w_ctxDone w, false); (true, true)] with
              | Some true =>
                  let w :=
                    {| w_trace := w_trace w; w_ctxDone := w_ctxDone w;
                       w_choices := w_choices w;
                       w_sent := w_sent w ++
                         [setResponseDataRequest key (Some loader)
                            (Some traverser)] |} in
                  let '(w, _, err) :=
                    executeQuery key.1 (td_request taskData) loader traverser w
                  in Return w err
              | _ => Return w None
              end
          end
      end
  end.

(** The body of [for _, task := range tasks] in [processQueriesWorker], for
    the task of topic [key]; [taskData] is what the serializer puts on
    [taskDataChan] in answer to the responseDataRequest. *)
Inductive worked :=
| Panicked                   (* the goroutine panicked *)
| Stopped (w : worker)       (* <-rm.ctx.Done(): return *)
| Next (w : worker).         (* on to the next task *)

Definition processTask (taskDataChan : nat) (key : responseKey)
    (taskData : option responseTaskData) (w : worker) : worked :=
  match sendMessage (responseDataRequest key taskDataChan) w with
  | (w, false) => Stopped w
  | (w, true) =>
      let '(c, w) := pick w in
      match select c [(true, true); (w_ctxDone w, false)] with
      | Some true =>
          match executeTask key taskData w with
          | Panic => Panicked
          | Return w err => Next (sendMessage (finishTaskRequest key err) w).1
          end
      | _ => Stopped w
      end
  end.

End Worker.

End ResponseManager.

(** ** The query executor *)

Module QueryExecutor.

(** The messages the executor puts on qe.messages.  Their reply channels
    are left out: what comes back on them is an input of the model. *)
Inductive responseManagerMessage :=
| responseDataRequest (key : responseKey)
| finishTaskRequest (key : responseKey)
    (status : graphsync.ResponseStatusCode) (err : option error)
| setResponseDataRequest (key : responseKey) (loader : Loader)
    (traverser : Traverser)
| responseUpdateRequest (key : responseKey).

(** Modelled from the spec: the declarations of [responseTaskData] and
    [signals] are not under src/; the fields are those the executor reads.
    The three signal channels of a task are part of [executor] below. *)
Record responseTaskData := {
  empty : bool;
  ctx : Context;
  request : gsmsg.GraphSyncRequest;
  loader : option Loader;
  traverser : option Traverser
}.

(** What a worker goroutine acts on while it runs one task: the calls made
    on the collaborators, whether qe.ctx is cancelled, the picks of the
    selects to come, the messages put on qe.messages, what the three signal
    channels of the task still hold, and what the serializer sends back on
    updateChan, one list of update requests per responseUpdateRequest. *)
Record executor := {
  trace : list Ev.Event;
  ctxDone : bool;
  choices : list nat;
  sent : list responseManagerMessage;
  stopSignal : list bool;      (* signals.stopSignal *)
  pauseSignal : nat;           (* signals.pauseSignal: how many values *)
  updateSignal : nat;          (* signals.updateSignal: how many values *)
  updateReplies : list (list gsmsg.GraphSyncRequest)
}.

Definition set_trace t (w : executor) :=
  {| trace := t; ctxDone := ctxDone w; choices := choices w; sent := sent w;
     stopSignal := stopSignal w; pauseSignal := pauseSignal w;
     updateSignal := updateSignal w; updateReplies := updateReplies w |}.

Definition set_choices c (w : executor) :=
  {| trace := trace w; ctxDone := ctxDone w; choices := c; sent := sent w;
     stopSignal := stopSignal w; pauseSignal := pauseSignal w;
     updateSignal := updateSignal w; updateReplies := updateReplies w |}.

Definition set_sent s (w : executor) :=
  {| trace := trace w; ctxDone := ctxDone w; choices := choices w; sent := s;
     stopSignal := stopSignal w; pauseSignal := pauseSignal w;
     updateSignal := updateSignal w; updateReplies := updateReplies w |}.

Definition set_stopSignal s (w : executor) :=
  {| trace := trace w; ctxDone := ctxDone w; choices := choices w;
     sent := sent w; stopSignal := s; pauseSignal := pauseSignal w;
     updateSignal := updateSignal w; updateReplies := updateReplies w |}.

Definition set_pauseSignal n (w : executor) :=
  {| trace := trace w; ctxDone := ctxDone w; choices := choices w;
     sent := sent w; stopSignal := stopSignal w; pauseSignal := n;
     updateSignal := updateSignal w; updateReplies := updateReplies w |}.

Definition set_updateSignal n (w : executor) :=
  {| trace := trace w; ctxDone := ctxDone w; choices := choices w;
     sent := sent w; stopSignal := stopSignal w; pauseSignal := pauseSignal w;
     updateSignal := n; updateReplies := updateReplies w |}.

Definition set_updateReplies r (w : executor) :=
  {| trace := trace w; ctxDone := ctxDone w; choices := choices w;
     sent := sent w; stopSignal := stopSignal w; pauseSignal := pauseSignal w;
     updateSignal := updateSignal w; updateReplies := r |}.

Definition call_ (e : Ev.Event) (w : executor) : executor :=
  set_trace (trace w ++ [e]) w.

Definition calls (es : list Ev.Event) (w : executor) : executor :=
  set_trace (trace w ++ es) w.

Definition pick (w : executor) : nat * executor :=
  (hd 0%nat (choices w), set_choices (tl (choices w)) w).

(* select { case qe.messages <- m: case <-qe.ctx.Done(): }; true when sent *)
Definition sendMessage (m : responseManagerMessage) (w : executor)
    : executor * bool :=
  let '(c, w) := pick w in
  match select c [(true, true); (ctxDone w, false)] with
  | Some true => (set_sent (sent w ++ [m]) w, true)
  | _ => (w, false)
  end.

Inductive signal := stopCase | pauseCase | updateCase.

Section Executor.
Context (env : Env).

(* strings.Contains(err.Error(), ipldutil.ContextCancelError{}.Error()) *)
Definition isContextErr (err : error) : bool :=
  strings_Contains (Error env err) (ContextCancelError_Error env).

(** The loop over the updates inside [checkForUpdates]. *)
Fixpoint processUpdates (p : peerID) (request : gsmsg.GraphSyncRequest)
    (updates : list gsmsg.GraphSyncRequest) (w : executor)
    : executor * option error :=
  match updates with
  | [] => (w, None)
  | update :: updates =>
      let result := ProcessUpdateHooks env (trace w) p request update in
      let w := call_ (Ev.ProcessUpdateHooks p request update) w in
      let w := calls (Ev.SendExtensionData p (gsmsg.ID request)
                        <$> hooks.UpdateExtensions result) w in
      match hooks.UpdateErr result with
      | Some e => (w, Some e)
      | None => processUpdates p request updates w
      end
  end.

(** [checkForUpdates]: for { select { ... default: return nil } }.  Every
    turn that does not return takes one value from signals.updateSignal;
    [pending] is the number of values that channel holds. *)
Fixpoint checkForUpdates_loop (pending : nat) (p : peerID)
    (request : gsmsg.GraphSyncRequest) (w : executor)
    : executor * option error :=
  let '(c, w) := pick w in
  match select c [(bool_decide (stopSignal w ≠ []), stopCase);
                  (bool_decide (0 < pauseSignal w)%nat, pauseCase);
                  (bool_decide (0 < pending)%nat, updateCase)] with
  | Some stopCase =>
      let selfCancelled := hd false (stopSignal w) in
      let w := set_stopSignal (tl (stopSignal w)) w in
      if selfCancelled then (w, Some errCancelledByCommand)
      else (w, Some ContextCancelError)
  | Some pauseCase =>
      let w := set_pauseSignal (pred (pauseSignal w)) w in
      (call_ (Ev.PauseRequest p (gsmsg.ID request)) w, Some ErrPaused)
  | Some updateCase =>
      match pending with
      | O => (w, None)
      | S pending =>
          let w := set_updateSignal pending w in
          let '(w, isSent) :=
            sendMessage (responseUpdateRequest (p, gsmsg.ID request)) w in
          let '(c, w) := pick w in
          match select c [(isSent, true); (ctxDone w, false)] with
          | Some true =>
              let updates := hd [] (updateReplies w) in
              let w := set_updateReplies (tl (updateReplies w)) w in
              match processUpdates p request updates w with
              | (w, Some e) => (w, Some e)
              | (w, None) => checkForUpdates_loop pending p request w
              end
          | _ => checkForUpdates_loop pending p request w
          end
      end
  | None => (w, None)
  end.

Definition checkForUpdates (p : peerID) (request : gsmsg.GraphSyncRequest)
    (w : executor) : executor * option error :=
  checkForUpdates_loop (updateSignal w) p request w.

(** The function literal that [executeQuery] gives to RunTraversal: one
    transaction on the peer's sender per (link, data). *)
Definition sendBlock (p : peerID) (request : gsmsg.GraphSyncRequest)
    (lnk : Link) (data : Bytes) (w : executor) : executor * option error :=
  let id := gsmsg.ID request in
  let w := call_ (Ev.TransactionBegin p id) w in
  let '(w, err) := checkForUpdates p request w in
  let '(w, err) :=
    if negb (isErrPaused err) && bool_decide (err ≠ None) then (w, err)
    else
      let blockData := SendResponse env (trace w) p id lnk data in
      let w := call_ (Ev.SendResponse p id lnk data) w in
      if bool_decide (graphsync.BlockSize blockData > 0) then
        let result := ProcessBlockHooks env (trace w) p request blockData in
        let w := call_ (Ev.ProcessBlockHooks p request blockData) w in
        let w := calls (Ev.SendExtensionData p id
                          <$> hooks.BlockExtensions result) w in
        let w := if isErrPaused (hooks.BlockErr result)
                 then call_ (Ev.PauseRequest p id) w else w in
        (w, match hooks.BlockErr result with
            | Some e => Some e
            | None => err
            end)
      else (w, err) in
  (call_ (Ev.TransactionEnd p id) w, err).

Definition executeQuery (p : peerID) (request : gsmsg.GraphSyncRequest)
    (loader : Loader) (traverser : Traverser) (w : executor)
    : executor * Traverser * (graphsync.ResponseStatusCode * option error) :=
  let id := gsmsg.ID request in
  let '(w, traverser, err) :=
    RunTraversal loader traverser (sendBlock p request) w in
  match err with
  | Some e =>
      if isErrPaused (Some e) then
        (w, traverser, (graphsync.RequestPaused, Some e))
      else if isContextErr e then
        (call_ (Ev.FinishWithCancel p id) w, traverser,
         (graphsync.RequestCancelled, Some e))
      else if bool_decide (e = errCancelledByCommand) then
        (call_ (Ev.FinishWithError p id graphsync.RequestCancelled) w,
         traverser, (graphsync.RequestCancelled, Some e))
      else
        (call_ (Ev.FinishWithError p id graphsync.RequestFailedUnknown) w,
         traverser, (graphsync.RequestFailedUnknown, Some e))
  | None =>
      let status := FinishRequest env (trace w) p id in
      (call_ (Ev.FinishRequest p id) w, traverser, (status, None))
  end.

Definition processDedupByKey (p : peerID) (request : gsmsg.GraphSyncRequest)
    (w : executor) : executor * option error :=
  let id := gsmsg.ID request in
  match gsmsg.Extension request graphsync.ExtensionDeDupByKey with
  | None => (w, None)
  | Some dedupData =>
      match DecodeDedupKey env dedupData with
      | inr err =>
          (call_ (Ev.FinishWithError p id graphsync.RequestFailedUnknown) w,
           Some err)
      | inl key => (call_ (Ev.DedupKey p id key) w, None)
      end
  end.

Definition processDoNoSendCids (p : peerID) (request : gsmsg.GraphSyncRequest)
    (w : executor) : executor * option error :=
  let id := gsmsg.ID request in
  match gsmsg.Extension request graphsync.ExtensionDoNotSendCIDs with
  | None => (w, None)
  | Some doNotSendCidsData =>
      match DecodeCidSet env doNotSendCidsData with
      | inr err =>
          (call_ (Ev.FinishWithError p id graphsync.RequestFailedUnknown) w,
           Some err)
      | inl links => (call_ (Ev.IgnoreBlocks p id links) w, None)
      end
  end.

(** [prepareQuery] returns (loader, traverser, isPaused, nil) or
    (nil, nil, false, err). *)
Definition prepareQuery (ctx : Context) (p : peerID)
    (request : gsmsg.GraphSyncRequest) (w : executor)
    : executor * (Loader * Traverser * bool + error) :=
  let id := gsmsg.ID request in
  let result := ProcessRequestHooks env (trace w) p request in
  let w := call_ (Ev.ProcessRequestHooks p request) w in
  let w := call_ (Ev.TransactionBegin p id) w in
  let w := calls (Ev.SendExtensionData p id <$> hooks.Extensions result) w in
  let '(w, transactionError, isPaused) :=
    if bool_decide (hooks.Err result ≠ None) || negb (hooks.IsValidated result)
    then (call_ (Ev.FinishWithError p id graphsync.RequestFailedUnknown) w,
          Some (errorNew "request not valid"), false)
    else if hooks.IsPaused result
    then (call_ (Ev.PauseRequest p id) w, None, true)
    else (w, None, false) in
  let err := TransactionErr env (trace w) p id in
  let w := call_ (Ev.TransactionEnd p id) w in
  match err, transactionError with
  | Some e, _ => (w, inr e)
  | None, Some e => (w, inr e)
  | None, None =>
      match processDedupByKey p request w with
      | (w, Some e) => (w, inr e)
      | (w, None) =>
          match processDoNoSendCids p request w with
          | (w, Some e) => (w, inr e)
          | (w, None) =>
              let traverser :=
                Start env (gsmsg.Root request) (gsmsg.Selector request)
                  (hooks.CustomChooser result) ctx in
              let w := call_ (Ev.TraversalStart ctx (gsmsg.Root request)
                                (gsmsg.Selector request)) w in
              let loader := match hooks.CustomLoader result with
                            | Some l => l
                            | None => default_loader env
                            end in
              (w, inl (loader, traverser, isPaused))
          end
      end
  end.

Definition executeTask (key : responseKey) (taskData : responseTaskData)
    (w : executor)
    : executor * (graphsync.ResponseStatusCode * option error) :=
  match loader taskData, traverser taskData with
  | Some loader, Some traverser =>
      let '(w, _, r) :=
        executeQuery key.1 (request taskData) loader traverser w in (w, r)
  | _, _ =>
      match prepareQuery (ctx taskData) key.1 (request taskData) w with
      | (w, inr err) => (w, (graphsync.RequestFailedUnknown, Some err))
      | (w, inl (loader, traverser, isPaused)) =>
          let '(c, w) := pick w in
          match select c [(ctxDone w, false); (true, true)] with
          | Some true =>
              let w := set_sent
                (sent w ++ [setResponseDataRequest key loader traverser]) w in
              if isPaused then (w, (graphsync.RequestPaused, Some ErrPaused))
              else
                let '(w, _, r) :=
                  executeQuery key.1 (request taskData) loader traverser w
                in (w, r)
          | _ => (w, (graphsync.RequestFailedUnknown,
                      Some (errorNew "context cancelled")))
          end
      end
  end.

(** The body of [for _, task := range tasks] in [processQueriesWorker], for
    the task of topic [key]; [taskData] is what arrives on taskDataChan. *)
Inductive worked :=
| Stopped (w : executor)     (* <-qe.ctx.Done(): return *)
| Next (w : executor).       (* on to the next task *)

Definition processTask (key : responseKey) (taskData : responseTaskData)
    (w : executor) : worked :=
  match sendMessage (responseDataRequest key) w with
  | (w, false) => Stopped w
  | (w, true) =>
      let '(c, w) := pick w in
      match select c [(true, true); (ctxDone w, false)] with
      | Some true =>
          if empty taskData then
            Next (call_ (Ev.LogInfo "Empty task on peer request stack") w)
          else
            let '(w, (status, err)) := executeTask key taskData w in
            let isPaused := isErrPaused err in
            let isCancelled := match err with
                               | Some e => isContextErr e
                               | None => false
                               end in
            let w :=
              if isCancelled then
                call_ (Ev.NotifyCancelledListeners key.1 (request taskData)) w
              else if negb isPaused then
                call_ (Ev.NotifyCompletedListeners key.1 (request taskData)
                         status) w
              else w in
            Next (sendMessage (finishTaskRequest key status err) w).1
      | _ => Stopped w
      end
  end.

End Executor.

End QueryExecutor.

(** ** Stand-ins for the collaborators, for closed examples *)

(** A queue that only records the calls made on it, oldest first, as a test
    double would; [PopTasks] gives no task. *)
Inductive queueCall :=
| QPushTasks (to : peerID) (tasks : list peertask.Task)
| QPopTasks (targetMinWork : Z)
| QRemove (topic : responseKey) (p : peerID)
| QTasksDone (to : peerID) (tasks : list peertask.Task)
| QThawRound.

#[global] Instance recordingQueue : QueryQueue (list queueCall) := {|
  PushTasks to tasks q := q ++ [QPushTasks to tasks];
  PopTasks targetMinWork q := (("", [], 0), q ++ [QPopTasks targetMinWork]);
  Remove topic p q := q ++ [QRemove topic p];
  TasksDone to tasks q := q ++ [QTasksDone to tasks];
  ThawRound q := q ++ [QThawRound]
|}.

(** A queue that keeps the pending tasks in the order they were pushed,
    without priorities or freezing: [Remove] drops the tasks of the topic
    for the peer (none, when there is none), [PopTasks] gives the oldest
    task. *)
#[global] Instance pendingQueue : QueryQueue (list (string * peertask.Task)) := {|
  PushTasks to tasks q := q ++ (pair to <$> tasks);
  PopTasks targetMinWork q :=
    match q with
    | [] => (("", [], 0), [])
    | (p, task) :: q => ((p, [task], peertask.Work task), q)
    end;
  Remove topic p q :=
    List.filter
      (λ pt, negb (bool_decide (pt.1 = p ∧ peertask.Topic pt.2 = topic))) q;
  TasksDone to tasks q := q;
  ThawRound q := q
|}.

Definition request1 : gsmsg.GraphSyncRequest :=
  {| gsmsg.ID := 1; gsmsg.Root := "A"; gsmsg.Selector := [];
     gsmsg.Priority := 5; gsmsg.Extensions := [];
     gsmsg.IsCancel := false; gsmsg.IsUpdate := false |}.

Definition cancel1 : gsmsg.GraphSyncRequest :=
  {| gsmsg.ID := 1; gsmsg.Root := "A"; gsmsg.Selector := [];
     gsmsg.Priority := 5; gsmsg.Extensions := [];
     gsmsg.IsCancel := true; gsmsg.IsUpdate := false |}.

Definition update1 : gsmsg.GraphSyncRequest :=
  {| gsmsg.ID := 1; gsmsg.Root := "A"; gsmsg.Selector := [];
     gsmsg.Priority := 5; gsmsg.Extensions := [];
     gsmsg.IsCancel := false; gsmsg.IsUpdate := true |}.

(** The manager after it was given [request1] by peer "P". *)
Definition rm1 : ResponseManager.ResponseManager :=
  ResponseManager.handle 0 (ResponseManager.processRequestMessage "P" [request1])
    (ResponseManager.New ([] : list queueCall)).

(** ... and after the worker reported that the response was paused. *)
Definition rm1_paused : ResponseManager.ResponseManager :=
  ResponseManager.handle 0
    (ResponseManager.finishTaskRequest ("P", 1) (Some ErrPaused)) rm1.

(** Collaborators that let everything through: every request is valid,
    no hook sends extensions or fails, every block is sent in full, and
    the traversal of a request visits its root and is done. *)
Definition env0 : Env := {|
  ProcessRequestHooks _ _ _ :=
    {| hooks.IsValidated := true; hooks.IsPaused := false;
       hooks.CustomLoader := None; hooks.CustomChooser := None;
       hooks.Err := None; hooks.Extensions := [] |};
  ProcessBlockHooks _ _ _ _ :=
    {| hooks.BlockErr := None; hooks.BlockExtensions := [] |};
  ProcessUpdateHooks _ _ _ _ :=
    {| hooks.UpdateErr := None; hooks.UpdateExtensions := [] |};
  SendResponse _ _ _ lnk data :=
    {| graphsync.BlockLink := lnk;
       graphsync.BlockSize := Z.of_nat (length data);
       graphsync.BlockIndex := Z.of_nat (length data) |};
  FinishRequest _ _ _ := graphsync.RequestCompletedFull;
  TransactionErr _ _ _ := None;
  Start root _ _ _ := TVisit root (λ _, TDone);
  DecodeDedupKey _ := inl "k";
  DecodeCidSet _ := inl [];
  default_loader _ := inl [Byte.x2a];
  ErrPaused_Error := "request is paused";
  ContextCancelError_Error := "Context cancelled"
|}.

Definition extension1 : graphsync.ExtensionData :=
  {| graphsync.Name := "app/note"; graphsync.Data := [Byte.x01] |}.

(** As [env0], with a request hook that sends [extension1] and does not
    validate the request. *)
Definition env_invalid : Env := {|
  ProcessRequestHooks _ _ _ :=
    {| hooks.IsValidated := false; hooks.IsPaused := false;
       hooks.CustomLoader := None; hooks.CustomChooser := None;
       hooks.Err := None; hooks.Extensions := [extension1] |};
  ProcessBlockHooks := ProcessBlockHooks env0;
  ProcessUpdateHooks := ProcessUpdateHooks env0;
  SendResponse := SendResponse env0;
  FinishRequest := FinishRequest env0;
  TransactionErr := TransactionErr env0;
  Start := Start env0;
  DecodeDedupKey := DecodeDedupKey env0;
  DecodeCidSet := DecodeCidSet env0;
  default_loader := default_loader env0;
  ErrPaused_Error := ErrPaused_Error env0;
  ContextCancelError_Error := ContextCancelError_Error env0
|}.

(** As [env0], with a block hook that sends [extension1] and pauses. *)
Definition env_pausing : Env := {|
  ProcessRequestHooks := ProcessRequestHooks env0;
  ProcessBlockHooks _ _ _ _ :=
    {| hooks.BlockErr := Some ErrPaused;
       hooks.BlockExtensions := [extension1] |};
  ProcessUpdateHooks := ProcessUpdateHooks env0;
  SendResponse := SendResponse env0;
  FinishRequest := FinishRequest env0;
  TransactionErr := TransactionErr env0;
  Start := Start env0;
  DecodeDedupKey := DecodeDedupKey env0;
  DecodeCidSet := DecodeCidSet env0;
  default_loader := default_loader env0;
  ErrPaused_Error := ErrPaused_Error env0;
  ContextCancelError_Error := ContextCancelError_Error env0
|}.

(** A worker of the response manager that has done nothing yet. *)
Definition worker0 : ResponseManager.worker :=
  {| ResponseManager.w_trace := []; ResponseManager.w_ctxDone := false;
     ResponseManager.w_choices := []; ResponseManager.w_sent := [] |}.

(** An executor that has done nothing yet, with no signal pending. *)
Definition executor0 : QueryExecutor.executor :=
  {| QueryExecutor.trace := []; QueryExecutor.ctxDone := false;
     QueryExecutor.choices := []; QueryExecutor.sent := [];
     QueryExecutor.stopSignal := []; QueryExecutor.pauseSignal := 0%nat;
     QueryExecutor.updateSignal := 0%nat; QueryExecutor.updateReplies := [] |}.


(** The task data of a request that was not prepared yet. *)
Definition taskData1 : QueryExecutor.responseTaskData :=
  {| QueryExecutor.empty := false; QueryExecutor.ctx := 0%nat;
     QueryExecutor.request := request1; QueryExecutor.loader := None;
     QueryExecutor.traverser := None |}.

(** The reply of the serializer for a key that has no entry. *)
Definition taskData_empty : QueryExecutor.responseTaskData :=
  {| QueryExecutor.empty := true; QueryExecutor.ctx := 0%nat;
     QueryExecutor.request := request1; QueryExecutor.loader := None;
     QueryExecutor.traverser := None |}.

(** The manager after the response to [request1] was finished. *)
Definition rm1_done : ResponseManager.ResponseManager :=
  ResponseManager.handle 0
    (ResponseManager.finishTaskRequest ("P", 1) None) rm1.

(* is the call a block record handed to the sender *)
Definition isSendResponse (e : Ev.Event) : bool :=
  match e with
  | Ev.SendResponse _ _ _ _ => true
  | _ => false
  end.

(* is the call the start of a traversal *)
Definition isTraversalStart (e : Ev.Event) : bool :=
  match e with
  | Ev.TraversalStart _ _ _ => true
  | _ => false
  end.

(** The case the first select of [checkForUpdates] takes in [w] ([None]:
    the default branch). *)
Definition firstSelect (w : QueryExecutor.executor) : option QueryExecutor.signal :=
  select (hd 0%nat (QueryExecutor.choices w))
    [(bool_decide (QueryExecutor.stopSignal w ≠ []), QueryExecutor.stopCase);
     (bool_decide (0 < QueryExecutor.pauseSignal w)%nat,
      QueryExecutor.pauseCase);
     (bool_decide (0 < QueryExecutor.updateSignal w)%nat,
      QueryExecutor.updateCase)].

(** The manager with the paused response, after Shutdown. *)
Definition rm1_shutdown : ResponseManager.ResponseManager :=
  ResponseManager.Shutdown rm1_paused.

(* is the call one that [checkForUpdates] makes: PauseRequest, an update
   hook, or an extension of an update hook *)
Definition isPollCall (e : Ev.Event) : bool :=
  match e with
  | Ev.PauseRequest _ _ | Ev.ProcessUpdateHooks _ _ _
  | Ev.SendExtensionData _ _ _ => true
  | _ => false
  end.

#[global] Instance BlockData_eq_dec : EqDecision graphsync.BlockData.
Proof. solve_decision. Defined.

(** A check on a trace: every SendResponse whose BlockData (the one the
    sender returned, given the calls [before] it) has a size greater than 0
    is followed at once by the block hooks on that BlockData, and the block
    hooks are called nowhere else.  [expect] is the BlockData whose hooks
    must come next. *)
Fixpoint blockHooksFollow (env : Env) (before : list Ev.Event)
    (expect : option graphsync.BlockData) (calls : list Ev.Event) : bool :=
  match calls with
  | [] => bool_decide (expect = None)
  | e :: calls =>
      match e, expect with
      | Ev.ProcessBlockHooks _ _ blockData, Some blockData' =>
          bool_decide (blockData = blockData')
      | Ev.ProcessBlockHooks _ _ _, None => false
      | _, Some _ => false
      | _, None => true
      end &&
      blockHooksFollow env (before ++ [e])
        match e with
        | Ev.SendResponse p id lnk data =>
            let blockData := SendResponse env before p id lnk data in
            if bool_decide (graphsync.BlockSize blockData > 0)
            then Some blockData else None
        | _ => None
        end calls
  end.

(* a call that is neither a block record nor a block hook *)
Definition isOtherCall (e : Ev.Event) : bool :=
  match e with
  | Ev.SendResponse _ _ _ _ | Ev.ProcessBlockHooks _ _ _ => false
  | _ => true
  end.

Definition request2 : gsmsg.GraphSyncRequest :=
  {| gsmsg.ID := 2; gsmsg.Root := "B"; gsmsg.Selector := [];
     gsmsg.Priority := 7; gsmsg.Extensions := [];
     gsmsg.IsCancel := false; gsmsg.IsUpdate := false |}.

(** The manager after it was given [request1] and [request2] by peer "P". *)
Definition rm12 : ResponseManager.ResponseManager :=
  ResponseManager.handle 0
    (ResponseManager.processRequestMessage "P" [request1; request2])
    (ResponseManager.New ([] : list queueCall)).

(** ** More of responsemanager.go: ProcessRequests and the loop of run *)

Section Loop.
Import ResponseManager.
Context `{QueryQueue Q}.
Implicit Types rm : ResponseManager (Q := Q).

(** [ProcessRequests], a call from another goroutine:
    select { case rm.messages <- &processRequestMessage{p, requests}:
             case <-rm.ctx.Done(): case <-ctx.Done(): }.
    [callerDone] says whether the ctx of the caller is cancelled.  It
    returns nothing: [Sent] when the message was put on rm.messages,
    [Returned None] when a context ended first. *)
Definition ProcessRequests (choice : nat) (callerDone : bool) (p : peerID)
    (requests : list gsmsg.GraphSyncRequest) rm
    : ResponseManager (Q := Q) * call :=
  match select choice
          [(bool_decide (length (messages rm) < messagesCap)%nat, true);
           (ctxDone rm, false); (callerDone, false)] with
  | None => (rm, Blocked)
  | Some true =>
      (set_messages (messages rm ++ [processRequestMessage p requests]) rm,
       Sent)
  | Some false => (rm, Returned None)
  end.

(** The loop of [run], for as many turns as [turns] has picks: it goes on
    after every message it handled and stops when it returned, when no
    case of its select can proceed, or when a handler blocks. *)
Fixpoint run (turns : list (nat * nat)) rm
    : ResponseManager (Q := Q) * running :=
  match turns with
  | [] => (rm, Handled)
  | (choice, choice') :: turns =>
      match run_step choice choice' rm with
      | (rm, Handled) => run turns rm
      | stopped => stopped
      end
  end.

(** Messages handled one after the other, each with the pick of the select
    of its handler. *)
Definition handles (ms : list (nat * responseManagerMessage))
    rm : ResponseManager (Q := Q) :=
  foldl (λ rm m, handle m.1 m.2 rm) rm ms.

(** The manager after the first [j] buffered messages were taken and
    handled, each with the pick of the turn it was received in. *)
Definition handled_upto (turns : list (nat * nat)) (j : nat)
    rm : ResponseManager (Q := Q) :=
  set_messages (drop j (messages rm))
    (handles (take j (zip (turns.*2) (messages rm))) rm).

(** The state in which the handler of buffered message number [i] is
    called: the messages before it were handled, and it was taken off
    rm.messages. *)
Definition called_in (turns : list (nat * nat)) (i : nat)
    rm : ResponseManager (Q := Q) :=
  set_messages (drop (S i) (messages rm))
    (handles (take i (zip (turns.*2) (messages rm))) rm).

(** What the handlers keep about contexts: every context of the table and
    every cancelled one was made before [n], and no two entries of the
    table have the same context. *)
Definition tableInv (tbl : gmap responseKey inProgressResponseStatus)
    (n : Context) (cancelled : list Context) : Prop :=
  (∀ key response, tbl !! key = Some response → (ctx response < n)%nat) ∧
  (∀ c, c ∈ cancelled → (c < n)%nat) ∧
  (∀ key1 key2 response1 response2,
     tbl !! key1 = Some response1 → tbl !! key2 = Some response2 →
     ctx response1 = ctx response2 → key1 = key2).

Definition inv rm : Prop :=
  tableInv (inProgressResponses rm) (nextCtx rm) (cancelCalls rm).

(** No entry of the table has context [c]. *)
Definition orphan (c : Context) rm : Prop :=
  ∀ key response, inProgressResponses rm !! key = Some response →
                  ctx response ≠ c.

(** What is kept about a context [c] that was made and that no entry has. *)
Definition left_behind (c : Context) rm : Prop :=
  inv rm ∧ (c < nextCtx rm)%nat ∧ orphan c rm.

(** The entry under [key] is as [processRequestMessage.handle] makes it
    for a request of that id: not paused, without loader and traverser. *)
Definition fresh_entry (key : responseKey) rm : Prop :=
  ∃ response,
    inProgressResponses rm !! key = Some response ∧
    gsmsg.ID (request response) = key.2 ∧
    gsmsg.IsCancel (request response) = false ∧
    loader response = None ∧ traverser response = None ∧
    isPaused response = false.

End Loop.

(** A manager that was just made, with two messages waiting on rm.messages:
    [request1] from peer "P", and the end of its response. *)
Definition rm_buffered : ResponseManager.ResponseManager :=
  ResponseManager.set_messages
    [ResponseManager.processRequestMessage "P" [request1];
     ResponseManager.finishTaskRequest ("P", 1) None]
    (ResponseManager.New ([] : list queueCall)).

(** A manager that was just made, with a synchronize message waiting on
    rm.messages ahead of [request1] from peer "P"; nobody receives on the
    channel 3 of the synchronize message yet. *)
Definition rm_barrier : ResponseManager.ResponseManager :=
  ResponseManager.set_messages
    [ResponseManager.synchronizeMessage 3;
     ResponseManager.processRequestMessage "P" [request1]]
    (ResponseManager.New ([] : list queueCall)).

(** ** Kinds of calls in a trace *)

(* a terminal call on the sender *)
Definition isFinishCall (e : Ev.Event) : bool :=
  match e with
  | Ev.FinishRequest _ _ | Ev.FinishWithError _ _ _
  | Ev.FinishWithCancel _ _ => true
  | _ => false
  end.

Definition isRequestHooksCall (e : Ev.Event) : bool :=
  match e with
  | Ev.ProcessRequestHooks _ _ => true
  | _ => false
  end.

Definition isUpdateHooksCall (e : Ev.Event) : bool :=
  match e with
  | Ev.ProcessUpdateHooks _ _ _ => true
  | _ => false
  end.

Definition isListenerCall (e : Ev.Event) : bool :=
  match e with
  | Ev.NotifyCancelledListeners _ _ | Ev.NotifyCompletedListeners _ _ _ => true
  | _ => false
  end.

(* a call [sendBlock] makes: transaction brackets, polls, the block record,
   the block hooks and their extensions *)
Definition isLinkCall (e : Ev.Event) : bool :=
  match e with
  | Ev.TransactionBegin _ _ | Ev.TransactionEnd _ _
  | Ev.SendResponse _ _ _ _ | Ev.ProcessBlockHooks _ _ _
  | Ev.ProcessUpdateHooks _ _ _ | Ev.SendExtensionData _ _ _
  | Ev.PauseRequest _ _ => true
  | _ => false
  end.

(* a call made for one of the two extensions of a request *)
Definition isRequestExtensionCall (e : Ev.Event) : bool :=
  match e with
  | Ev.DedupKey _ _ _ | Ev.IgnoreBlocks _ _ _ => true
  | _ => false
  end.

(** As [env0], with decoders that accept no payload. *)
Definition env_undecodable : Env := {|
  ProcessRequestHooks := ProcessRequestHooks env0;
  ProcessBlockHooks := ProcessBlockHooks env0;
  ProcessUpdateHooks := ProcessUpdateHooks env0;
  SendResponse := SendResponse env0;
  FinishRequest := FinishRequest env0;
  TransactionErr := TransactionErr env0;
  Start := Start env0;
  DecodeDedupKey _ := inr (errorNew "invalid dedup key");
  DecodeCidSet _ := inr (errorNew "invalid cid set");
  default_loader := default_loader env0;
  ErrPaused_Error := ErrPaused_Error env0;
  ContextCancelError_Error := ContextCancelError_Error env0
|}.

(** [request1] with a payload for each of the two extensions. *)
Definition request_extensions : gsmsg.GraphSyncRequest :=
  {| gsmsg.ID := 1; gsmsg.Root := "A"; gsmsg.Selector := [];
     gsmsg.Priority := 5;
     gsmsg.Extensions :=
       [{| graphsync.Name := "do-not-send-cids"; graphsync.Data := [Byte.x02] |};
        {| graphsync.Name := "dedup-by-key"; graphsync.Data := [Byte.x01] |}];
     gsmsg.IsCancel := false; gsmsg.IsUpdate := false |}.



(** As [env_updating], with update hooks that refuse every update after
    the first one they were run on. *)
Definition env_update_refused : Env := {|
  ProcessRequestHooks := ProcessRequestHooks env0;
  ProcessBlockHooks := ProcessBlockHooks env0;
  ProcessUpdateHooks before _ _ _ :=
    {| hooks.UpdateErr :=
         if existsb isUpdateHooksCall before
         then Some (errorNew "update refused") else None;
       hooks.UpdateExtensions := [extension1] |};
  SendResponse := SendResponse env0;
  FinishRequest := FinishRequest env0;
  TransactionErr := TransactionErr env0;
  Start := Start env0;
  DecodeDedupKey := DecodeDedupKey env0;
  DecodeCidSet := DecodeCidSet env0;
  default_loader := default_loader env0;
  ErrPaused_Error := ErrPaused_Error env0;
  ContextCancelError_Error := ContextCancelError_Error env0
|}.


(* a call [executeQuery] makes: those of the links and the terminal one *)
Definition isQueryCall (e : Ev.Event) : bool :=
  isLinkCall e || isFinishCall e.


(* how many terminal calls a trace holds *)
Definition finishCalls (t : list Ev.Event) : nat :=
  length (List.filter isFinishCall t).

(** ** benchmark_test.go: the pattern of the temporary directory *)

(* tempDirReplacer.r = strings.NewReplacer("/", "_", "\\", "_", ":", "_"):
   every old string is one byte, so Replace takes each byte of its argument
   through this table *)
Definition tempDirReplacer (c : Ascii.ascii) : Ascii.ascii :=
  if Ascii.eqb c "/" || Ascii.eqb c "\" || Ascii.eqb c ":"
  then "_"%char else c.

(* tempDirReplacer.r.Replace(name), the pattern newTempDirMaker gives to
   ioutil.TempDir *)
Fixpoint tempDirReplacer_Replace (name : string) : string :=
  match name with
  | EmptyString => EmptyString
  | String c name => String (tempDirReplacer c) (tempDirReplacer_Replace name)
  end.

(** * Properties *)

(** ** The serializer *)

Section SerializerProofs.
Import ResponseManager.
Context `{QueryQueue Q}.
Implicit Types rm : ResponseManager (Q := Q).

Lemma wf_New (q : Q) : wf (New q).
Proof.
  split.
  - intros key response Hk. cbn in Hk. by rewrite lookup_empty in Hk.
  - intros c Hc. cbn in Hc. by apply not_elem_of_nil in Hc.
Qed.

Lemma wf_cancelFn rm key response :
  wf rm → inProgressResponses rm !! key = Some response →
  wf (cancelFn response rm).
Proof.
  intros [Ht Hc] Hk. split; cbn.
  - exact Ht.
  - intros c [Hin | Hin%list_elem_of_singleton]%elem_of_app.
    + by apply Hc.
    + subst c. by apply (Ht key).
Qed.


Lemma finishTaskRequest_handle_absent rm key err :
  inProgressResponses rm !! key = None →
  finishTaskRequest_handle key err rm = rm.
Proof. intros Hk. unfold finishTaskRequest_handle. by rewrite Hk. Qed.

(** C9. A finishTask message whose key is not in the in-progress table
    changes nothing: the handler returns the state it was given, so the
    table, the task queue, every entry with its context and isPaused flag,
    and the list of cancelFn calls are all as before. *)
Theorem finishTask_absent_is_noop rm key err :
  inProgressResponses rm !! key = None →
  finishTaskRequest_handle key err rm = rm.
Proof. apply finishTaskRequest_handle_absent. Qed.

(** C5, as the handlers have it.  A finishTask message whose key is in the
    table: with the paused error the entry stays, now with isPaused = true
    and the same context, and no cancelFn is called; with any other error
    or with success the entry is deleted and its cancelFn is called, once
    by this message, and a later finishTask for that key calls no cancelFn
    again.  The cancelFn of an entry is not called on a terminal transition
    only, nor once only: a cancel request for the key calls it too and
    leaves the entry in the table, so that a cancel followed by the end of
    the task calls it twice. *)
Theorem finishTask_present rm key err response :
  inProgressResponses rm !! key = Some response →
  let rm' := finishTaskRequest_handle key err rm in
  (err = Some ErrPaused →
     inProgressResponses rm' =
       <[key := set_isPaused true response]> (inProgressResponses rm) ∧
     (∃ response', inProgressResponses rm' !! key = Some response' ∧
        isPaused response' = true ∧ ctx response' = ctx response) ∧
     cancelCalls rm' = cancelCalls rm ∧
     isDone (ctx response) rm' = isDone (ctx response) rm) ∧
  (err ≠ Some ErrPaused →
     inProgressResponses rm' = delete key (inProgressResponses rm) ∧
     inProgressResponses rm' !! key = None ∧
     cancelCalls rm' = cancelCalls rm ++ [ctx response] ∧
     count_occ Nat.eq_dec (cancelCalls rm') (ctx response) =
       S (count_occ Nat.eq_dec (cancelCalls rm) (ctx response)) ∧
     isDone (ctx response) rm' = true ∧
     ∀ err', finishTaskRequest_handle key err' rm' = rm') ∧
  queryQueue rm' = queryQueue rm ∧ workSignal rm' = workSignal rm ∧
  nextCtx rm' = nextCtx rm ∧
  (∀ request,
     gsmsg.IsCancel request = true → key = (key.1, gsmsg.ID request) →
     let cancelled := handleRequest key.1 request rm in
     inProgressResponses cancelled !! key = Some response ∧
     cancelCalls cancelled = cancelCalls rm ++ [ctx response] ∧
     isDone (ctx response) cancelled = true ∧
     (err ≠ Some ErrPaused →
      cancelCalls (finishTaskRequest_handle key err cancelled) =
        cancelCalls rm ++ [ctx response; ctx response] ∧
      count_occ Nat.eq_dec
        (cancelCalls (finishTaskRequest_handle key err cancelled))
        (ctx response) =
        S (S (count_occ Nat.eq_dec (cancelCalls rm) (ctx response))))).
Proof.
  intros Hk rm'. subst rm'.
  assert (∀ l c, count_occ Nat.eq_dec (l ++ [c]) c =
                 S (count_occ Nat.eq_dec l c)) as Hcount.
  { intros l c. rewrite count_occ_app. cbn.
    destruct (Nat.eq_dec c c); [lia|done]. }
  split; [|split; [|split; [|split; [|split]]]].
  - unfold finishTaskRequest_handle. rewrite Hk.
    intros ->. rewrite decide_True by done. cbn.
    split; [done|]. split; [|done].
    exists (set_isPaused true response). by rewrite lookup_insert_eq.
  - intros Hne.
    assert (finishTaskRequest_handle key err rm =
            cancelFn response
              (set_inProgressResponses (delete key (inProgressResponses rm))
                 match err with
                 | Some e =>
                     set_logged (logged rm ++ [Infof "response failed: %w" e])
                       rm
                 | None => rm
                 end)) as ->.
    { unfold finishTaskRequest_handle. rewrite Hk.
      rewrite decide_False by done. by destruct err. }
    destruct err as [e|].
    all: split; [reflexivity|].
    all: split; [cbn; apply lookup_delete_eq|].
    all: split; [reflexivity|].
    all: split; [cbn; apply Hcount|].
    all: split;
      [ unfold isDone; cbn;
        rewrite bool_decide_eq_true_2; [by destruct (ctxDone rm)|];
        apply elem_of_app; right; by apply list_elem_of_singleton
      | intros err'; apply finishTaskRequest_handle_absent; cbn;
        apply lookup_delete_eq ].
  - unfold finishTaskRequest_handle. rewrite Hk.
    case_decide; [done|]. by destruct err.
  - unfold finishTaskRequest_handle. rewrite Hk.
    case_decide; [done|]. by destruct err.
  - unfold finishTaskRequest_handle. rewrite Hk.
    case_decide; [done|]. by destruct err.
  - intros request Hcancel Hkey cancelled. subst cancelled.
    unfold handleRequest. rewrite Hcancel, <- Hkey.
    cbn [negb inProgressResponses set_queryQueue]. rewrite Hk.
    cbn [cancelFn inProgressResponses set_cancelCalls cancelCalls].
    split; [exact Hk|]. split; [reflexivity|]. split.
    { unfold isDone. cbn. rewrite bool_decide_eq_true_2;
        [by destruct (ctxDone rm)|].
      apply elem_of_app; right; by apply list_elem_of_singleton. }
    intros Hne. unfold finishTaskRequest_handle.
    cbn [inProgressResponses cancelFn set_cancelCalls set_queryQueue].
    rewrite Hk. rewrite decide_False by done.
    assert (∀ l (c : nat), (l ++ [c]) ++ [c] = l ++ [c; c]) as Happ
      by (intros l c; by rewrite <- app_assoc).
    destruct err as [e|]; cbn; rewrite Happ;
      (split; [done|]); rewrite <- Happ; by rewrite !Hcount.
Qed.

(** C4. unpauseRequest returns an error and the state it was given when the
    key has no entry or the entry is not paused; otherwise it returns no
    error and the state in which the entry has isPaused = false and its
    context, request, loader and traverser as before, a task
    {key, math.MaxInt32, 1} was pushed for the peer, workSignal is full, and
    nothing else differs: every other entry is as it was, and the response
    is no longer paused, so that a second unpause returns an error. *)
Theorem unpauseRequest_spec rm p requestID :
  (inProgressResponses rm !! (p, requestID) = None ∨
   (∃ response, inProgressResponses rm !! (p, requestID) = Some response ∧
                isPaused response = false) →
   ∃ e, unpauseRequest p requestID rm = (rm, Some e)) ∧
  (∀ response,
     inProgressResponses rm !! (p, requestID) = Some response →
     isPaused response = true →
     unpauseRequest p requestID rm =
       ({| ctxDone := ctxDone rm;
           queryQueue :=
             PushTasks p [ {| peertask.Topic := (p, requestID);
                              peertask.Priority := 2147483647;
                              peertask.Work := 1 |} ] (queryQueue rm);
           messages := messages rm;
           workSignal := true;
           inProgressResponses :=
             <[(p, requestID) :=
                 {| ctx := ctx response; request := request response;
                    loader := loader response;
                    traverser := traverser response;
                    isPaused := false |}]>
               (inProgressResponses rm);
           nextCtx := nextCtx rm; cancelCalls := cancelCalls rm;
           chans := chans rm; logged := logged rm |}, None) ∧
     let rm' := (unpauseRequest p requestID rm).1 in
     (∃ response',
        inProgressResponses rm' !! (p, requestID) = Some response' ∧
        isPaused response' = false ∧ ctx response' = ctx response ∧
        request response' = request response ∧
        loader response' = loader response ∧
        traverser response' = traverser response) ∧
     (∀ key, key ≠ (p, requestID) →
        inProgressResponses rm' !! key = inProgressResponses rm !! key) ∧
     ∃ e, unpauseRequest p requestID rm' = (rm', Some e)).
Proof.
  unfold unpauseRequest. split.
  - intros [-> | (response & -> & ->)]; cbn; eauto.
  - intros response Hkey Hpaused. rewrite Hkey, Hpaused. cbn.
    split; [reflexivity|]. split; [|split].
    + eexists. rewrite lookup_insert_eq. by repeat split.
    + intros key Hne. by rewrite lookup_insert_ne.
    + rewrite lookup_insert_eq. cbn. by eexists.
Qed.


End SerializerProofs.

(** The entry [rm1] holds for ("P", 1). *)
Lemma rm1_lookup :
  ResponseManager.inProgressResponses rm1 !! ("P", 1) =
  Some {| ResponseManager.ctx := 0%nat; ResponseManager.request := request1;
          ResponseManager.loader := None; ResponseManager.traverser := None;
          ResponseManager.isPaused := false |}.
Proof. reflexivity. Qed.

Lemma rm1_paused_lookup :
  ResponseManager.inProgressResponses rm1_paused !! ("P", 1) =
  Some {| ResponseManager.ctx := 0%nat; ResponseManager.request := request1;
          ResponseManager.loader := None; ResponseManager.traverser := None;
          ResponseManager.isPaused := true |}.
Proof. reflexivity. Qed.

Lemma finishTask_absent_is_noop_witness :
  ResponseManager.inProgressResponses rm1 !! ("P", 2) = None ∧
  ResponseManager.finishTaskRequest_handle ("P", 2)
    (Some (errorNew "block not found")) rm1 = rm1.
Proof.
  split; [reflexivity|].
  apply finishTask_absent_is_noop. reflexivity.
Defined.

Lemma finishTask_present_witness :
  (let rm' := ResponseManager.finishTaskRequest_handle ("P", 1) None rm1 in
   ResponseManager.inProgressResponses rm' !! ("P", 1) = None ∧
   ResponseManager.cancelCalls rm' = [0%nat]) ∧
  (let rm' := ResponseManager.finishTaskRequest_handle ("P", 1)
                (Some ErrPaused) rm1 in
   (∃ response', ResponseManager.inProgressResponses rm' !! ("P", 1)
                   = Some response' ∧
      ResponseManager.isPaused response' = true ∧
      ResponseManager.ctx response' = 0%nat) ∧
   ResponseManager.cancelCalls rm' = []) ∧
  ResponseManager.cancelCalls
    (ResponseManager.finishTaskRequest_handle ("P", 1) None
       (ResponseManager.handleRequest "P" cancel1 rm1)) = [0%nat; 0%nat].
Proof.
  split; [|split].
  - destruct (finishTask_present rm1 ("P", 1) None _ rm1_lookup)
      as (_ & Hterminal & _).
    destruct (Hterminal ltac:(discriminate)) as (_ & Hk & Hc & _).
    split; [exact Hk | exact Hc].
  - destruct (finishTask_present rm1 ("P", 1) (Some ErrPaused) _ rm1_lookup)
      as (Hpaused & _ & _).
    destruct (Hpaused eq_refl) as (_ & Hk & Hc & _).
    split; [exact Hk | exact Hc].
  - destruct (finishTask_present rm1 ("P", 1) None _ rm1_lookup)
      as (_ & _ & _ & _ & _ & Hcancel).
    destruct (Hcancel cancel1 eq_refl eq_refl) as (_ & _ & _ & Htwice).
    destruct (Htwice ltac:(discriminate)) as [Hcalls _]. exact Hcalls.
Defined.

(** C5, the counterexample: the context of the response to [request1] is
    cancelled twice, the first time by a cancel request, which is no
    terminal transition (the entry stays in the table), the second time by
    the finishTask message that ends the task. *)
Lemma cancel_then_finishTask_cancels_twice :
  let cancelled :=
    ResponseManager.handle 0
      (ResponseManager.processRequestMessage "P" [cancel1]) rm1 in
  let finished :=
    ResponseManager.handle 0
      (ResponseManager.finishTaskRequest ("P", 1) None) cancelled in
  ResponseManager.cancelCalls rm1 = [] ∧
  ResponseManager.inProgressResponses cancelled !! ("P", 1) =
    Some {| ResponseManager.ctx := 0%nat; ResponseManager.request := request1;
            ResponseManager.loader := None; ResponseManager.traverser := None;
            ResponseManager.isPaused := false |} ∧
  ResponseManager.cancelCalls cancelled = [0%nat] ∧
  ResponseManager.inProgressResponses finished !! ("P", 1) = None ∧
  ResponseManager.cancelCalls finished = [0%nat; 0%nat].
Proof. repeat split. Qed.

Lemma unpauseRequest_spec_witness :
  (∃ e, ResponseManager.unpauseRequest "P" 2 rm1 = (rm1, Some e)) ∧
  (∃ e, ResponseManager.unpauseRequest "P" 1 rm1 = (rm1, Some e)) ∧
  (∃ rm', ResponseManager.unpauseRequest "P" 1 rm1_paused = (rm', None) ∧
     ResponseManager.queryQueue rm' =
       [QPushTasks "P" [ {| peertask.Topic := ("P", 1);
                            peertask.Priority := 5; peertask.Work := 1 |} ];
        QPushTasks "P" [ {| peertask.Topic := ("P", 1);
                            peertask.Priority := 2147483647;
                            peertask.Work := 1 |} ]] ∧
     ResponseManager.inProgressResponses rm' !! ("P", 1) =
       Some {| ResponseManager.ctx := 0%nat;
               ResponseManager.request := request1;
               ResponseManager.loader := None;
               ResponseManager.traverser := None;
               ResponseManager.isPaused := false |} ∧
     ∃ e, ResponseManager.unpauseRequest "P" 1 rm' = (rm', Some e)).
Proof.
  split; [|split].
  - apply (unpauseRequest_spec rm1 "P" 2). left. reflexivity.
  - apply (unpauseRequest_spec rm1 "P" 1). right. eexists. split.
    + exact rm1_lookup.
    + reflexivity.
  - destruct (unpauseRequest_spec rm1_paused "P" 1) as [_ Hok].
    destruct (Hok _ rm1_paused_lookup eq_refl) as (Hresult & _ & _ & Hagain).
    eexists. split; [exact Hresult|].
    split; [reflexivity|]. split; [reflexivity|].
    rewrite Hresult in Hagain. exact Hagain.
Defined.



(** ** The select *)

Lemma select_first_only {A} (c : nat) (a b : A) :
  select c [(true, a); (false, b)] = Some a.
Proof.
  unfold select. simpl List.filter. simpl length.
  by rewrite Nat.mod_1_r.
Qed.

Lemma select_second_only {A} (c : nat) (a b : A) :
  select c [(false, a); (true, b)] = Some b.
Proof.
  unfold select. simpl List.filter. simpl length.
  by rewrite Nat.mod_1_r.
Qed.

Lemma select_both {A} (c : nat) (a b : A) :
  select c [(true, a); (true, b)] = Some a ∨
  select c [(true, a); (true, b)] = Some b.
Proof.
  unfold select. simpl List.filter. simpl length.
  pose proof (Nat.mod_upper_bound c 2 ltac:(lia)) as Hlt.
  destruct (c `mod` 2)%nat as [|[|n]]; cbn; [by left|by right|lia].
Qed.

(** [select] takes a case that can proceed. *)
Lemma select_ready {A} (c : nat) (cases : list (bool * A)) (a : A) :
  select c cases = Some a → In (true, a) cases.
Proof.
  unfold select. intros Hsel.
  destruct (List.filter fst cases !! _) as [[b a']|] eqn:Hlookup; [|done].
  injection Hsel as ->.
  apply list_elem_of_lookup_2, list_elem_of_In, List.filter_In in Hlookup.
  destruct Hlookup as [Hin Hb]. cbn in Hb. by subst b.
Qed.

(** ** The workers and a task whose key has no entry *)

Section WorkerProofs.
Context (env : Env).

Lemma ResponseManager_processTask_nil c key (w : ResponseManager.worker) :
  ResponseManager.w_ctxDone w = false →
  ResponseManager.processTask env c key None w = ResponseManager.Panicked.
Proof.
  intros Hctx. unfold ResponseManager.processTask, ResponseManager.sendMessage,
    ResponseManager.pick.
  repeat (progress (cbn; rewrite ?Hctx, ?select_first_only)). reflexivity.
Qed.

Lemma ResponseManager_taskDataFor_absent `{QueryQueue Q}
    (rm : ResponseManager.ResponseManager (Q := Q)) key :
  ResponseManager.inProgressResponses rm !! key = None →
  ResponseManager.taskDataFor key rm = None.
Proof. intros Hk. unfold ResponseManager.taskDataFor. by rewrite Hk. Qed.

(** The worker of the query executor: an empty reply is logged and the
    task is left at that; no hook, sender or listener is called and no
    finishTaskRequest is sent. *)
Lemma QueryExecutor_processTask_empty key taskData
    (w : QueryExecutor.executor) :
  QueryExecutor.empty taskData = true →
  QueryExecutor.ctxDone w = false →
  QueryExecutor.processTask env key taskData w =
    QueryExecutor.Next
      (QueryExecutor.call_ (Ev.LogInfo "Empty task on peer request stack")
         (QueryExecutor.set_choices (tl (tl (QueryExecutor.choices w)))
            (QueryExecutor.set_sent
               (QueryExecutor.sent w ++ [QueryExecutor.responseDataRequest key])
               w))).
Proof.
  intros Hempty Hctx.
  unfold QueryExecutor.processTask, QueryExecutor.sendMessage,
    QueryExecutor.pick.
  repeat (progress (cbn; rewrite ?Hctx, ?select_first_only)).
  rewrite Hempty. reflexivity.
Qed.

End WorkerProofs.

(** C8.  The worker of responsemanager.go at a task whose key has no entry:
    the serializer answers the responseDataRequest with a nil taskData, and
    the worker hands it to executeTask, which reads taskData.loader: the
    goroutine panics.  The worker of the query executor, given the empty
    reply for the same task, logs it and goes on. *)
Theorem worker_dereferences_nil_taskData :
  ResponseManager.inProgressResponses rm1_done !! ("P", 1) = None ∧
  ResponseManager.taskDataFor ("P", 1) rm1_done = None ∧
  ResponseManager.chans
    (ResponseManager.responseDataRequest_handle 0 ("P", 1) 0
       (ResponseManager.set_chans
          {[ 0%nat := {| ResponseManager.chanCap := 0;
                         ResponseManager.chanBuf := [];
                         ResponseManager.chanRecv := true |} ]} rm1_done))
    !! 0%nat =
    Some {| ResponseManager.chanCap := 0;
            ResponseManager.chanBuf := [ResponseManager.VTaskData None];
            ResponseManager.chanRecv := false |} ∧
  ResponseManager.executeTask env0 ("P", 1) None worker0 =
    ResponseManager.Panic ∧
  ResponseManager.processTask env0 0 ("P", 1)
    (ResponseManager.taskDataFor ("P", 1) rm1_done) worker0 =
    ResponseManager.Panicked ∧
  QueryExecutor.trace
    (match QueryExecutor.processTask env0 ("P", 1) taskData_empty executor0 with
     | QueryExecutor.Next w | QueryExecutor.Stopped w => w
     end) = [Ev.LogInfo "Empty task on peer request stack"].
Proof. repeat split; reflexivity. Qed.

(** ** prepareQuery on a request the request hooks reject *)

Lemma filter_fmap_nil {A B} (f : B → bool) (g : A → B) (l : list A) :
  (∀ a, f (g a) = false) → List.filter f (g <$> l) = [].
Proof.
  intros Hf. induction l as [|a l IH]; [done|].
  cbn. by rewrite Hf.
Qed.

Lemma rejected_condition (result : hooks.RequestResult) :
  hooks.Err result ≠ None ∨ hooks.IsValidated result = false →
  bool_decide (hooks.Err result ≠ None) || negb (hooks.IsValidated result)
  = true.
Proof.
  intros [Herr | Hval].
  - by rewrite bool_decide_eq_true_2.
  - rewrite Hval. apply orb_true_r.
Qed.

Section PrepareProofs.
Context (env : Env).

(** C6.  When the request hooks return an error or isValidated = false,
    prepareQuery, in the query executor and in the response manager alike,
    sends the extensions the hooks returned, in order, then
    finishWithError(RequestFailedUnknown), and returns an error without a
    loader or a traverser: no traversal is started and no block record is
    sent; executeTask for a request not prepared before ends there with
    that error (and, in the query executor, status RequestFailedUnknown). *)
Theorem prepareQuery_rejected ctx p request :
  (∀ w : QueryExecutor.executor,
     let result := ProcessRequestHooks env (QueryExecutor.trace w) p request in
     hooks.Err result ≠ None ∨ hooks.IsValidated result = false →
     ∃ w' e,
       QueryExecutor.prepareQuery env ctx p request w = (w', inr e) ∧
       QueryExecutor.trace w' =
         QueryExecutor.trace w ++
         [Ev.ProcessRequestHooks p request;
          Ev.TransactionBegin p (gsmsg.ID request)] ++
         (Ev.SendExtensionData p (gsmsg.ID request)
            <$> hooks.Extensions result) ++
         [Ev.FinishWithError p (gsmsg.ID request)
            graphsync.RequestFailedUnknown;
          Ev.TransactionEnd p (gsmsg.ID request)] ∧
       List.filter isSendResponse (QueryExecutor.trace w') =
         List.filter isSendResponse (QueryExecutor.trace w) ∧
       List.filter isTraversalStart (QueryExecutor.trace w') =
         List.filter isTraversalStart (QueryExecutor.trace w) ∧
       (∀ requestID taskData,
          QueryExecutor.ctx taskData = ctx →
          QueryExecutor.request taskData = request →
          QueryExecutor.loader taskData = None ∨
          QueryExecutor.traverser taskData = None →
          QueryExecutor.executeTask env (p, requestID) taskData w =
            (w', (graphsync.RequestFailedUnknown, Some e)))) ∧
  (∀ w : ResponseManager.worker,
     let result :=
       ProcessRequestHooks env (ResponseManager.w_trace w) p request in
     hooks.Err result ≠ None ∨ hooks.IsValidated result = false →
     ∃ w',
       ResponseManager.prepareQuery env ctx p request w =
         (w', inr (errorNew "request not valid")) ∧
       ResponseManager.w_trace w' =
         ResponseManager.w_trace w ++
         [Ev.ProcessRequestHooks p request] ++
         (Ev.SendExtensionData p (gsmsg.ID request)
            <$> hooks.Extensions result) ++
         [Ev.FinishWithError p (gsmsg.ID request)
            graphsync.RequestFailedUnknown] ∧
       List.filter isSendResponse (ResponseManager.w_trace w') =
         List.filter isSendResponse (ResponseManager.w_trace w) ∧
       List.filter isTraversalStart (ResponseManager.w_trace w') =
         List.filter isTraversalStart (ResponseManager.w_trace w) ∧
       (∀ requestID taskData,
          ResponseManager.td_ctx taskData = ctx →
          ResponseManager.td_request taskData = request →
          ResponseManager.td_loader taskData = None ∨
          ResponseManager.td_traverser taskData = None →
          ResponseManager.executeTask env (p, requestID) (Some taskData) w =
            ResponseManager.Return w' (Some (errorNew "request not valid")))).
Proof.
  split.
  - intros w result Hrej.
    assert (Hprep : ∃ w' e,
      QueryExecutor.prepareQuery env ctx p request w = (w', inr e) ∧
      QueryExecutor.trace w' =
        QueryExecutor.trace w ++
        [Ev.ProcessRequestHooks p request;
         Ev.TransactionBegin p (gsmsg.ID request)] ++
        (Ev.SendExtensionData p (gsmsg.ID request)
           <$> hooks.Extensions result) ++
        [Ev.FinishWithError p (gsmsg.ID request)
           graphsync.RequestFailedUnknown;
         Ev.TransactionEnd p (gsmsg.ID request)]).
    { unfold QueryExecutor.prepareQuery.
      fold result. cbn. fold result.
      rewrite (rejected_condition result Hrej). cbn.
      destruct (TransactionErr env _ p (gsmsg.ID request)) as [e|];
        eexists _, _; (split; [reflexivity|]); cbn;
        by rewrite <- !app_assoc. }
    destruct Hprep as (w' & e & Hprep & Htrace).
    exists w', e. split; [exact Hprep|]. split; [exact Htrace|].
    split; [|split].
    + rewrite Htrace, !List.filter_app. cbn.
      rewrite filter_fmap_nil by done. by rewrite !app_nil_r.
    + rewrite Htrace, !List.filter_app. cbn.
      rewrite filter_fmap_nil by done. by rewrite !app_nil_r.
    + intros requestID taskData Hctx Hreq Hnil.
      unfold QueryExecutor.executeTask. cbn.
      rewrite Hctx, Hreq, Hprep.
      destruct Hnil as [-> | ->];
        by destruct (QueryExecutor.loader taskData).
  - intros w result Hrej.
    assert (Hprep :
      ResponseManager.prepareQuery env ctx p request w =
        (ResponseManager.call_
           (Ev.FinishWithError p (gsmsg.ID request)
              graphsync.RequestFailedUnknown)
           (ResponseManager.calls
              (Ev.SendExtensionData p (gsmsg.ID request)
                 <$> hooks.Extensions result)
              (ResponseManager.call_ (Ev.ProcessRequestHooks p request) w)),
         inr (errorNew "request not valid"))).
    { unfold ResponseManager.prepareQuery. fold result. cbn. fold result.
      by rewrite (rejected_condition result Hrej). }
    eexists. split; [exact Hprep|].
    assert (Htrace :
      ResponseManager.w_trace
        (ResponseManager.call_
           (Ev.FinishWithError p (gsmsg.ID request)
              graphsync.RequestFailedUnknown)
           (ResponseManager.calls
              (Ev.SendExtensionData p (gsmsg.ID request)
                 <$> hooks.Extensions result)
              (ResponseManager.call_ (Ev.ProcessRequestHooks p request) w)))
      = ResponseManager.w_trace w ++
        [Ev.ProcessRequestHooks p request] ++
        (Ev.SendExtensionData p (gsmsg.ID request)
           <$> hooks.Extensions result) ++
        [Ev.FinishWithError p (gsmsg.ID request)
           graphsync.RequestFailedUnknown]).
    { cbn. by rewrite <- !app_assoc. }
    split; [exact Htrace|]. split; [|split].
    + rewrite Htrace, !List.filter_app. cbn.
      rewrite filter_fmap_nil by done. by rewrite !app_nil_r.
    + rewrite Htrace, !List.filter_app. cbn.
      rewrite filter_fmap_nil by done. by rewrite !app_nil_r.
    + intros requestID taskData Hctx Hreq Hnil.
      unfold ResponseManager.executeTask. cbn.
      rewrite Hctx, Hreq, Hprep.
      destruct Hnil as [-> | ->];
        by destruct (ResponseManager.td_loader taskData).
Qed.

End PrepareProofs.

Lemma prepareQuery_rejected_witness :
  (∃ w' e,
     QueryExecutor.prepareQuery env_invalid 0%nat "P" request1 executor0 =
       (w', inr e) ∧
     QueryExecutor.trace w' =
       [Ev.ProcessRequestHooks "P" request1; Ev.TransactionBegin "P" 1;
        Ev.SendExtensionData "P" 1 extension1;
        Ev.FinishWithError "P" 1 graphsync.RequestFailedUnknown;
        Ev.TransactionEnd "P" 1] ∧
     QueryExecutor.executeTask env_invalid ("P", 1) taskData1 executor0 =
       (w', (graphsync.RequestFailedUnknown, Some e))) ∧
  (∃ w',
     ResponseManager.prepareQuery env_invalid 0%nat "P" request1 worker0 =
       (w', inr (errorNew "request not valid")) ∧
     ResponseManager.w_trace w' =
       [Ev.ProcessRequestHooks "P" request1;
        Ev.SendExtensionData "P" 1 extension1;
        Ev.FinishWithError "P" 1 graphsync.RequestFailedUnknown]).
Proof.
  destruct (prepareQuery_rejected env_invalid 0%nat "P" request1)
    as [Hqe Hrm].
  split.
  - destruct (Hqe executor0 (or_intror eq_refl))
      as (w' & e & Hp & Ht & _ & _ & Hx).
    exists w', e. split; [exact Hp|]. split; [exact Ht|].
    apply Hx; [reflexivity|reflexivity|]. left. reflexivity.
  - destruct (Hrm worker0 (or_intror eq_refl)) as (w' & Hp & Ht & _).
    exists w'. split; [exact Hp | exact Ht].
Defined.

(** ** executeQuery: how the traversal ends *)

Lemma prefix_refl (s : string) : String.prefix s s = true.
Proof.
  induction s as [|a s IH]; [done|].
  cbn. by destruct (Ascii.ascii_dec a a).
Qed.

Lemma strings_Contains_refl (s : string) : strings_Contains s s = true.
Proof.
  destruct s as [|a s]; [done|].
  change (String.prefix (String a s) (String a s)
          || strings_Contains s (String a s) = true).
  by rewrite prefix_refl.
Qed.

Section ExecuteQueryProofs.
Context (env : Env).

(** C1, as the two executeQuery have it.  In the query executor the
    traversal error decides the sender call and the status: ErrPaused, no
    call, RequestPaused; a context-cancel error (one whose message contains
    that of ContextCancelError, as the error ContextCancelError itself
    does), FinishWithCancel, RequestCancelled; errCancelledByCommand,
    FinishWithError(RequestCancelled), RequestCancelled, given that its
    message does not contain that of ContextCancelError; any other error,
    FinishWithError(RequestFailedUnknown), RequestFailedUnknown; no error,
    FinishRequest and the status it returns.  In the response manager
    executeQuery reports no status and knows two errors only: ErrPaused, no
    call; any other error, FinishWithError(RequestFailedUnknown); no error,
    FinishRequest. *)
Theorem executeQuery_outcome p request loader traverser :
  (∀ (w w1 : QueryExecutor.executor) t1 err,
     RunTraversal loader traverser (QueryExecutor.sendBlock env p request) w
       = (w1, t1, err) →
     let r := QueryExecutor.executeQuery env p request loader traverser w in
     (err = Some ErrPaused →
        r = (w1, t1, (graphsync.RequestPaused, err))) ∧
     (∀ e, err = Some e → e ≠ ErrPaused →
        QueryExecutor.isContextErr env e = true →
        r = (QueryExecutor.call_ (Ev.FinishWithCancel p (gsmsg.ID request)) w1,
             t1, (graphsync.RequestCancelled, err))) ∧
     (err = Some errCancelledByCommand →
        QueryExecutor.isContextErr env errCancelledByCommand = false →
        r = (QueryExecutor.call_
               (Ev.FinishWithError p (gsmsg.ID request)
                  graphsync.RequestCancelled) w1,
             t1, (graphsync.RequestCancelled, err))) ∧
     (∀ e, err = Some e → e ≠ ErrPaused →
        QueryExecutor.isContextErr env e = false →
        e ≠ errCancelledByCommand →
        r = (QueryExecutor.call_
               (Ev.FinishWithError p (gsmsg.ID request)
                  graphsync.RequestFailedUnknown) w1,
             t1, (graphsync.RequestFailedUnknown, err))) ∧
     (err = None →
        r = (QueryExecutor.call_ (Ev.FinishRequest p (gsmsg.ID request)) w1,
             t1,
             (FinishRequest env (QueryExecutor.trace w1) p (gsmsg.ID request),
              None)))) ∧
  QueryExecutor.isContextErr env ContextCancelError = true ∧
  (∀ (w w1 : ResponseManager.worker) t1 err,
     RunTraversal loader traverser (ResponseManager.sendBlock env p request) w
       = (w1, t1, err) →
     let r := ResponseManager.executeQuery env p request loader traverser w in
     (err = Some ErrPaused → r = (w1, t1, err)) ∧
     (∀ e, err = Some e → e ≠ ErrPaused →
        r = (ResponseManager.call_
               (Ev.FinishWithError p (gsmsg.ID request)
                  graphsync.RequestFailedUnknown) w1, t1, err)) ∧
     (err = None →
        r = (ResponseManager.call_
               (Ev.FinishRequest p (gsmsg.ID request)) w1, t1, None))).
Proof.
  split; [|split].
  - intros w w1 t1 err Hrun r. subst r.
    unfold QueryExecutor.executeQuery. rewrite Hrun.
    repeat split.
    + by intros ->.
    + intros e -> Hne Hctx.
      destruct e; try done; cbv [isErrPaused]; by rewrite Hctx.
    + intros -> Hctx. cbv [isErrPaused]. rewrite Hctx.
      by rewrite bool_decide_eq_true_2.
    + intros e -> Hne Hctx Hcmd.
      destruct e; try done; cbv [isErrPaused]; rewrite Hctx;
        by rewrite bool_decide_eq_false_2.
    + by intros ->.
  - unfold QueryExecutor.isContextErr. cbn. apply strings_Contains_refl.
  - intros w w1 t1 err Hrun r. subst r.
    unfold ResponseManager.executeQuery. rewrite Hrun.
    repeat split.
    + by intros ->.
    + intros e -> Hne. by rewrite bool_decide_eq_true_2.
    + by intros ->.
Qed.

End ExecuteQueryProofs.

Lemma executeQuery_outcome_witness :
  QueryExecutor.executeQuery env0 "P" request1 (default_loader env0)
    (TError ErrPaused) executor0 =
    (executor0, TError ErrPaused, (graphsync.RequestPaused, Some ErrPaused)) ∧
  QueryExecutor.executeQuery env0 "P" request1 (default_loader env0)
    (TError ContextCancelError) executor0 =
    (QueryExecutor.call_ (Ev.FinishWithCancel "P" 1) executor0,
     TError ContextCancelError,
     (graphsync.RequestCancelled, Some ContextCancelError)) ∧
  QueryExecutor.executeQuery env0 "P" request1 (default_loader env0)
    (TError errCancelledByCommand) executor0 =
    (QueryExecutor.call_
       (Ev.FinishWithError "P" 1 graphsync.RequestCancelled) executor0,
     TError errCancelledByCommand,
     (graphsync.RequestCancelled, Some errCancelledByCommand)) ∧
  QueryExecutor.executeQuery env0 "P" request1 (default_loader env0)
    (TError (errorNew "block not found")) executor0 =
    (QueryExecutor.call_
       (Ev.FinishWithError "P" 1 graphsync.RequestFailedUnknown) executor0,
     TError (errorNew "block not found"),
     (graphsync.RequestFailedUnknown, Some (errorNew "block not found"))) ∧
  QueryExecutor.executeQuery env0 "P" request1 (default_loader env0)
    TDone executor0 =
    (QueryExecutor.call_ (Ev.FinishRequest "P" 1) executor0, TDone,
     (graphsync.RequestCompletedFull, None)) ∧
  ResponseManager.executeQuery env0 "P" request1 (default_loader env0)
    (TError (errorNew "block not found")) worker0 =
    (ResponseManager.call_
       (Ev.FinishWithError "P" 1 graphsync.RequestFailedUnknown) worker0,
     TError (errorNew "block not found"),
     Some (errorNew "block not found")).
Proof.
  split; [|split; [|split; [|split; [|split]]]].
  - destruct (executeQuery_outcome env0 "P" request1 (default_loader env0)
                (TError ErrPaused)) as (Hqe & _ & _).
    destruct (Hqe executor0 _ _ _ eq_refl) as (Hpaused & _).
    exact (Hpaused eq_refl).
  - destruct (executeQuery_outcome env0 "P" request1 (default_loader env0)
                (TError ContextCancelError)) as (Hqe & _ & _).
    destruct (Hqe executor0 _ _ _ eq_refl) as (_ & Hcancel & _).
    apply (Hcancel ContextCancelError); [reflexivity|discriminate|reflexivity].
  - destruct (executeQuery_outcome env0 "P" request1 (default_loader env0)
                (TError errCancelledByCommand)) as (Hqe & _ & _).
    destruct (Hqe executor0 _ _ _ eq_refl) as (_ & _ & Hcommand & _).
    apply Hcommand; reflexivity.
  - destruct (executeQuery_outcome env0 "P" request1 (default_loader env0)
                (TError (errorNew "block not found"))) as (Hqe & _ & _).
    destruct (Hqe executor0 _ _ _ eq_refl) as (_ & _ & _ & Hother & _).
    apply (Hother (errorNew "block not found"));
      [reflexivity|discriminate|reflexivity|discriminate].
  - destruct (executeQuery_outcome env0 "P" request1 (default_loader env0)
                TDone) as (Hqe & _ & _).
    destruct (Hqe executor0 _ _ _ eq_refl) as (_ & _ & _ & _ & Hdone).
    exact (Hdone eq_refl).
  - destruct (executeQuery_outcome env0 "P" request1 (default_loader env0)
                (TError (errorNew "block not found"))) as (_ & _ & Hrm).
    destruct (Hrm worker0 _ _ _ eq_refl) as (_ & Hother & _).
    apply (Hother (errorNew "block not found")); [reflexivity|discriminate].
Defined.

(** C1, the counterexample: executeQuery of the response manager, on a
    traversal that ends with the context-cancel error, calls
    FinishWithError(RequestFailedUnknown) on the sender, not
    FinishWithCancel. *)
Lemma ResponseManager_executeQuery_on_cancel :
  QueryExecutor.isContextErr env0 ContextCancelError = true ∧
  ResponseManager.executeQuery env0 "P" request1 (default_loader env0)
    (TError ContextCancelError) worker0 =
    (ResponseManager.call_
       (Ev.FinishWithError "P" 1 graphsync.RequestFailedUnknown) worker0,
     TError ContextCancelError, Some ContextCancelError) ∧
  ResponseManager.w_trace
    (ResponseManager.executeQuery env0 "P" request1 (default_loader env0)
       (TError ContextCancelError) worker0).1.1 =
    [Ev.FinishWithError "P" 1 graphsync.RequestFailedUnknown] ∧
  Ev.FinishWithCancel "P" 1 ∉
    ResponseManager.w_trace
      (ResponseManager.executeQuery env0 "P" request1 (default_loader env0)
         (TError ContextCancelError) worker0).1.1.
Proof.
  repeat split; try reflexivity.
  intros Hin. cbn in Hin. apply list_elem_of_singleton in Hin. discriminate.
Qed.

(** ** The transaction of one link: polling, sending, block hooks *)

Lemma QueryExecutor_call_calls e (w : QueryExecutor.executor) :
  QueryExecutor.call_ e w = QueryExecutor.calls [e] w.
Proof. reflexivity. Qed.

Lemma QueryExecutor_calls_calls es1 es2 (w : QueryExecutor.executor) :
  QueryExecutor.calls es2 (QueryExecutor.calls es1 w) =
  QueryExecutor.calls (es1 ++ es2) w.
Proof.
  unfold QueryExecutor.calls, QueryExecutor.set_trace. cbn.
  by rewrite app_assoc.
Qed.

Lemma ResponseManager_calls_calls es1 es2 (w : ResponseManager.worker) :
  ResponseManager.calls es2 (ResponseManager.calls es1 w) =
  ResponseManager.calls (es1 ++ es2) w.
Proof. unfold ResponseManager.calls. cbn. by rewrite app_assoc. Qed.

Lemma forallb_isPollCall_extensions p id
    (extensions : list graphsync.ExtensionData) :
  forallb isPollCall (Ev.SendExtensionData p id <$> extensions) = true.
Proof. induction extensions as [|e l IH]; [done|]. exact IH. Qed.

Section SendBlockProofs.
Context (env : Env).

(** [sendBlock] of the query executor, given what the poll returned. *)
Lemma QueryExecutor_sendBlock_eq p request lnk data
    (w w1 : QueryExecutor.executor) err :
  QueryExecutor.checkForUpdates env p request
    (QueryExecutor.call_ (Ev.TransactionBegin p (gsmsg.ID request)) w)
    = (w1, err) →
  QueryExecutor.sendBlock env p request lnk data w =
    if negb (isErrPaused err) && bool_decide (err ≠ None) then
      (QueryExecutor.calls [Ev.TransactionEnd p (gsmsg.ID request)] w1, err)
    else
      let blockData :=
        SendResponse env (QueryExecutor.trace w1) p (gsmsg.ID request)
          lnk data in
      let result :=
        ProcessBlockHooks env
          (QueryExecutor.trace w1 ++
           [Ev.SendResponse p (gsmsg.ID request) lnk data])
          p request blockData in
      if bool_decide (graphsync.BlockSize blockData > 0) then
        (QueryExecutor.calls
           ([Ev.SendResponse p (gsmsg.ID request) lnk data;
             Ev.ProcessBlockHooks p request blockData] ++
            (Ev.SendExtensionData p (gsmsg.ID request)
               <$> hooks.BlockExtensions result) ++
            (if isErrPaused (hooks.BlockErr result)
             then [Ev.PauseRequest p (gsmsg.ID request)] else []) ++
            [Ev.TransactionEnd p (gsmsg.ID request)]) w1,
         match hooks.BlockErr result with
         | Some e => Some e
         | None => err
         end)
      else
        (QueryExecutor.calls
           [Ev.SendResponse p (gsmsg.ID request) lnk data;
            Ev.TransactionEnd p (gsmsg.ID request)] w1, err).
Proof.
  intros Hpoll. unfold QueryExecutor.sendBlock. rewrite Hpoll.
  destruct (negb (isErrPaused err) && bool_decide (err ≠ None)); [done|].
  cbv zeta.
  change (QueryExecutor.trace
            (QueryExecutor.call_
               (Ev.SendResponse p (gsmsg.ID request) lnk data) w1))
    with (QueryExecutor.trace w1 ++
          [Ev.SendResponse p (gsmsg.ID request) lnk data]).
  destruct (bool_decide (graphsync.BlockSize _ > 0)).
  - rewrite !QueryExecutor_call_calls.
    destruct (isErrPaused (hooks.BlockErr _));
      rewrite ?QueryExecutor_call_calls, !QueryExecutor_calls_calls;
      by rewrite <- ?app_assoc.
  - by rewrite !QueryExecutor_call_calls, !QueryExecutor_calls_calls.
Qed.

(** The poll when its first select takes the pause signal. *)
Lemma QueryExecutor_checkForUpdates_pause p request
    (w : QueryExecutor.executor) :
  firstSelect w = Some QueryExecutor.pauseCase →
  QueryExecutor.checkForUpdates env p request w =
    (QueryExecutor.call_ (Ev.PauseRequest p (gsmsg.ID request))
       (QueryExecutor.set_pauseSignal (pred (QueryExecutor.pauseSignal w))
          (QueryExecutor.set_choices (tl (QueryExecutor.choices w)) w)),
     Some ErrPaused).
Proof.
  unfold firstSelect, QueryExecutor.checkForUpdates. intros Hsel.
  destruct (QueryExecutor.updateSignal w) as [|n];
    unfold QueryExecutor.checkForUpdates_loop; cbn -[select];
    by rewrite Hsel.
Qed.

Lemma processUpdates_spec p request updates
    (w w1 : QueryExecutor.executor) err :
  QueryExecutor.processUpdates env p request updates w = (w1, err) →
  ∃ evs, QueryExecutor.trace w1 = QueryExecutor.trace w ++ evs ∧
         forallb isPollCall evs = true ∧
         QueryExecutor.pauseSignal w1 = QueryExecutor.pauseSignal w.
Proof.
  revert w. induction updates as [|update updates IH]; intros w Hrun.
  - injection Hrun as <- _. exists []. by rewrite app_nil_r.
  - cbn [QueryExecutor.processUpdates] in Hrun.
    set (result := ProcessUpdateHooks env _ p request update) in Hrun.
    set (w' := QueryExecutor.calls _ (QueryExecutor.call_ _ w)) in Hrun.
    assert (Hw' : QueryExecutor.trace w' =
                  QueryExecutor.trace w ++
                  Ev.ProcessUpdateHooks p request update ::
                  (Ev.SendExtensionData p (gsmsg.ID request)
                     <$> hooks.UpdateExtensions result))
      by (subst w'; cbn; by rewrite <- app_assoc).
    assert (Hpoll : forallb isPollCall
                      (Ev.ProcessUpdateHooks p request update ::
                       (Ev.SendExtensionData p (gsmsg.ID request)
                          <$> hooks.UpdateExtensions result)) = true).
    { cbn. apply forallb_isPollCall_extensions. }
    destruct (hooks.UpdateErr result).
    + injection Hrun as <- _. eexists. by rewrite Hw'.
    + destruct (IH _ Hrun) as (evs & Htrace & Hevs & Hpause).
      eexists (_ :: _ ++ evs). rewrite Htrace, Hw', <- app_assoc. cbn.
      split; [done|]. split; [|by rewrite Hpause].
      rewrite forallb_app. cbn in Hpoll. by rewrite Hpoll, Hevs.
Qed.

Lemma sendMessage_spec m (w w' : QueryExecutor.executor) b :
  QueryExecutor.sendMessage m w = (w', b) →
  QueryExecutor.trace w' = QueryExecutor.trace w ∧
  QueryExecutor.pauseSignal w' = QueryExecutor.pauseSignal w.
Proof.
  unfold QueryExecutor.sendMessage. cbn -[select].
  destruct (select _ _) as [[]|]; by intros [= <- _].
Qed.

Ltac poll_unchanged Hrun :=
  injection Hrun as <- <-; exists []; rewrite app_nil_r;
  split; [done|]; split; [done|]; by left.

Ltac poll_paused Hsel Hrun :=
  injection Hrun as <- <-;
  apply select_ready in Hsel;
  destruct Hsel as [Hsel | [Hsel | [Hsel | []]]]; try discriminate;
  injection Hsel as Hsel; apply bool_decide_eq_true_1 in Hsel;
  eexists; split; [cbn; reflexivity|];
  split; [done|]; right; cbn;
  split; [lia|]; split; [done|]; by exists [].

(** The poll as a whole: it only adds calls of its own to the trace, and
    when it takes a value from pauseSignal, its last call is PauseRequest
    and it returns ErrPaused. *)
Lemma checkForUpdates_loop_spec pending p request
    (w w1 : QueryExecutor.executor) err :
  QueryExecutor.checkForUpdates_loop env pending p request w = (w1, err) →
  ∃ evs, QueryExecutor.trace w1 = QueryExecutor.trace w ++ evs ∧
         forallb isPollCall evs = true ∧
         (QueryExecutor.pauseSignal w1 = QueryExecutor.pauseSignal w ∨
          (S (QueryExecutor.pauseSignal w1) = QueryExecutor.pauseSignal w ∧
           err = Some ErrPaused ∧
           ∃ evs', evs = evs' ++ [Ev.PauseRequest p (gsmsg.ID request)])).
Proof.
  revert w. induction pending as [|pending IH]; intros w Hrun.
  - cbn -[select] in Hrun.
    destruct (select _ _) as [[]|] eqn:Hsel.
    + destruct (hd false _); poll_unchanged Hrun.
    + poll_paused Hsel Hrun.
    + poll_unchanged Hrun.
    + poll_unchanged Hrun.
  - cbn -[select QueryExecutor.sendMessage] in Hrun.
    destruct (select _ _) as [[]|] eqn:Hsel.
    + destruct (hd false _); poll_unchanged Hrun.
    + poll_paused Hsel Hrun.
    + destruct (QueryExecutor.sendMessage _ _) as [w2 isSent] eqn:Hsend.
      apply sendMessage_spec in Hsend as [Htrace2 Hpause2].
      cbn in Htrace2, Hpause2.
      assert (Hrest : ∃ w3 evs3,
        QueryExecutor.trace w3 = QueryExecutor.trace w ++ evs3 ∧
        forallb isPollCall evs3 = true ∧
        QueryExecutor.pauseSignal w3 = QueryExecutor.pauseSignal w ∧
        ((w3, err) = (w1, err) ∧
           QueryExecutor.pauseSignal w1 = QueryExecutor.pauseSignal w ∨
         QueryExecutor.checkForUpdates_loop env pending p request w3
           = (w1, err))).
      { revert Hrun.
        destruct (select _ [(isSent, true); _]) as [[]|]; intros Hrun.
        - destruct (QueryExecutor.processUpdates _ _ _ _ _) as [w3 o]
            eqn:Hupd.
          apply processUpdates_spec in Hupd
            as (evs3 & Htrace3 & Hevs3 & Hpause3).
          cbn in Htrace3, Hpause3.
          exists w3, evs3. rewrite Htrace3, Hpause3, Htrace2, Hpause2.
          split; [done|]. split; [done|]. split; [done|].
          destruct o; [|by right].
          injection Hrun as <- <-. left. by rewrite Hpause3, Hpause2.
        - exists (QueryExecutor.set_choices
                    (tl (QueryExecutor.choices w2)) w2), [].
          rewrite app_nil_r. cbn.
          split; [exact Htrace2|]. split; [done|]. split; [exact Hpause2|].
          right. exact Hrun.
        - exists (QueryExecutor.set_choices
                    (tl (QueryExecutor.choices w2)) w2), [].
          rewrite app_nil_r. cbn.
          split; [exact Htrace2|]. split; [done|]. split; [exact Hpause2|].
          right. exact Hrun. }
      destruct Hrest as (w3 & evs3 & Htrace3 & Hevs3 & Hpause3 & Hrest).
      destruct Hrest as [[Heq Hsame] | Hloop].
      * injection Heq as <-. exists evs3.
        split; [done|]. split; [done|]. by left.
      * destruct (IH _ Hloop) as (evs & Htrace & Hevs & Hcases).
        exists (evs3 ++ evs). rewrite Htrace, Htrace3, <- app_assoc.
        split; [done|]. split; [by rewrite forallb_app, Hevs3, Hevs|].
        rewrite <- Hpause3.
        destruct Hcases as [Hsame | (Hs & He & evs' & ->)]; [by left|].
        right. split; [done|]. split; [done|].
        exists (evs3 ++ evs'). by rewrite <- app_assoc.
    + poll_unchanged Hrun.
Qed.

End SendBlockProofs.

(** ** Block hooks over a whole traversal *)

Lemma blockHooksFollow_app env calls1 : ∀ before expect calls2,
  blockHooksFollow env before expect calls1 = true →
  blockHooksFollow env before expect (calls1 ++ calls2) =
  blockHooksFollow env (before ++ calls1) None calls2.
Proof.
  induction calls1 as [|e calls1 IH]; intros before expect calls2 Hok.
  - cbn in Hok. apply bool_decide_eq_true_1 in Hok as ->.
    by rewrite app_nil_r.
  - cbn [blockHooksFollow app] in *.
    apply andb_true_iff in Hok as [-> Hok].
    rewrite (IH _ _ _ Hok), <- app_assoc. reflexivity.
Qed.

Lemma blockHooksFollow_other env calls : ∀ before,
  forallb isOtherCall calls = true →
  blockHooksFollow env before None calls = true.
Proof.
  induction calls as [|e calls IH]; intros before Hother; [done|].
  cbn in Hother. apply andb_true_iff in Hother as [He Hother].
  destruct e; try done; cbn [blockHooksFollow andb]; by apply IH.
Qed.

Lemma isPollCall_isOtherCall calls :
  forallb isPollCall calls = true → forallb isOtherCall calls = true.
Proof.
  induction calls as [|e calls IH]; [done|]. cbn.
  intros [He Hrest]%andb_true_iff. rewrite (IH Hrest). by destruct e.
Qed.

Lemma forallb_isOtherCall_extensions p id
    (extensions : list graphsync.ExtensionData) :
  forallb isOtherCall (Ev.SendExtensionData p id <$> extensions) = true.
Proof. induction extensions as [|e l IH]; [done|]. exact IH. Qed.

(** RunTraversal keeps what every call of sendResponse keeps. *)
Lemma RunTraversal_invariant {W} (P : W → Prop) loader
    (sendResponse : Link → Bytes → W → W * option error) traverser :
  (∀ lnk data w, P w → P (sendResponse lnk data w).1) →
  ∀ w, P w → P (RunTraversal loader traverser sendResponse w).1.1.
Proof.
  intros Hkeep. induction traverser as [|e|lnk next IH]; intros w Hw;
    [done|done|].
  cbn [RunTraversal]. destruct (loader lnk) as [data|e]; [|done].
  specialize (Hkeep lnk data w Hw).
  destruct (sendResponse lnk data w) as [w' [e|]]; [done|].
  by apply IH.
Qed.

Section TraceProofs.
Context (env : Env).

Lemma QueryExecutor_sendBlock_follows p request lnk data
    (w : QueryExecutor.executor) :
  blockHooksFollow env [] None (QueryExecutor.trace w) = true →
  blockHooksFollow env [] None
    (QueryExecutor.trace (QueryExecutor.sendBlock env p request lnk data w).1)
  = true.
Proof.
  intros Hw.
  destruct (QueryExecutor.checkForUpdates env p request
              (QueryExecutor.call_
                 (Ev.TransactionBegin p (gsmsg.ID request)) w))
    as [w1 err] eqn:Hpoll.
  rewrite (QueryExecutor_sendBlock_eq env p request lnk data w w1 err Hpoll).
  destruct (checkForUpdates_loop_spec env _ _ _ _ _ _ Hpoll)
    as (evs & Htrace & Hevs%isPollCall_isOtherCall & _).
  cbn in Htrace.
  assert (Hw1 : blockHooksFollow env [] None (QueryExecutor.trace w1) = true).
  { rewrite Htrace, <- app_assoc, (blockHooksFollow_app _ _ _ _ _ Hw).
    apply blockHooksFollow_other. cbn. exact Hevs. }
  destruct (negb (isErrPaused err) && bool_decide (err ≠ None)).
  { cbn. rewrite (blockHooksFollow_app _ _ _ _ _ Hw1). done. }
  cbv zeta.
  destruct (bool_decide (graphsync.BlockSize _ > 0)) eqn:Hsize.
  - cbn [fst QueryExecutor.calls QueryExecutor.trace QueryExecutor.set_trace].
    rewrite (blockHooksFollow_app _ _ _ _ _ Hw1).
    cbn [app blockHooksFollow]. rewrite Hsize.
    cbn [andb]. rewrite bool_decide_eq_true_2 by done. cbn [andb].
    apply blockHooksFollow_other.
    rewrite !forallb_app, forallb_isOtherCall_extensions.
    by destruct (isErrPaused _).
  - cbn [fst QueryExecutor.calls QueryExecutor.trace QueryExecutor.set_trace].
    rewrite (blockHooksFollow_app _ _ _ _ _ Hw1).
    cbn [app blockHooksFollow]. rewrite Hsize. done.
Qed.

Lemma ResponseManager_sendBlock_follows p request lnk data
    (w : ResponseManager.worker) :
  blockHooksFollow env [] None (ResponseManager.w_trace w) = true →
  blockHooksFollow env [] None
    (ResponseManager.w_trace
       (ResponseManager.sendBlock env p request lnk data w).1) = true.
Proof.
  intros Hw. unfold ResponseManager.sendBlock. cbv zeta.
  destruct (bool_decide (graphsync.BlockSize _ > 0)) eqn:Hsize.
  - cbn [fst ResponseManager.calls ResponseManager.call_
         ResponseManager.w_trace].
    rewrite <- !app_assoc.
    rewrite (blockHooksFollow_app _ _ _ _ _ Hw).
    cbn [app blockHooksFollow]. rewrite Hsize.
    cbn [andb]. rewrite bool_decide_eq_true_2 by done. cbn [andb].
    apply blockHooksFollow_other, forallb_isOtherCall_extensions.
  - cbn [fst ResponseManager.call_ ResponseManager.w_trace].
    rewrite (blockHooksFollow_app _ _ _ _ _ Hw).
    cbn [app blockHooksFollow]. rewrite Hsize. done.
Qed.

End TraceProofs.

Section TransactionProofs.
Context (env : Env).

(** C7, as the two executeQuery have it.  For a block given to
    SendResponse, the block hooks are run exactly when the BlockData that
    comes back has a size greater than 0; the extensions the hooks return
    are then sent in order, and the error of the hooks, the pause error
    included, is what the function returns for the link.  In the query
    executor a pause error of the hooks is preceded by PauseRequest on the
    transaction (and with no hook error the result of the poll stands); in
    the response manager no PauseRequest is made.  A block of size 0 gets
    no hook call.  Over a whole executeQuery: in the calls it makes, every
    SendResponse that returns a size greater than 0 is followed at once by
    the block hooks on the BlockData it returned, and the block hooks are
    called nowhere else. *)
Theorem sendBlock_block_hooks p request lnk data :
  (∀ (w w1 : QueryExecutor.executor) err,
     QueryExecutor.checkForUpdates env p request
       (QueryExecutor.call_ (Ev.TransactionBegin p (gsmsg.ID request)) w)
       = (w1, err) →
     err = None ∨ err = Some ErrPaused →
     let blockData :=
       SendResponse env (QueryExecutor.trace w1) p (gsmsg.ID request)
         lnk data in
     let result :=
       ProcessBlockHooks env
         (QueryExecutor.trace w1 ++
          [Ev.SendResponse p (gsmsg.ID request) lnk data])
         p request blockData in
     (graphsync.BlockSize blockData > 0 →
        QueryExecutor.sendBlock env p request lnk data w =
          (QueryExecutor.calls
             ([Ev.SendResponse p (gsmsg.ID request) lnk data;
               Ev.ProcessBlockHooks p request blockData] ++
              (Ev.SendExtensionData p (gsmsg.ID request)
                 <$> hooks.BlockExtensions result) ++
              (if isErrPaused (hooks.BlockErr result)
               then [Ev.PauseRequest p (gsmsg.ID request)] else []) ++
              [Ev.TransactionEnd p (gsmsg.ID request)]) w1,
           match hooks.BlockErr result with
           | Some e => Some e
           | None => err
           end)) ∧
     (¬ graphsync.BlockSize blockData > 0 →
        QueryExecutor.sendBlock env p request lnk data w =
          (QueryExecutor.calls
             [Ev.SendResponse p (gsmsg.ID request) lnk data;
              Ev.TransactionEnd p (gsmsg.ID request)] w1, err))) ∧
  (∀ w : ResponseManager.worker,
     let blockData :=
       SendResponse env (ResponseManager.w_trace w) p (gsmsg.ID request)
         lnk data in
     let result :=
       ProcessBlockHooks env
         (ResponseManager.w_trace w ++
          [Ev.SendResponse p (gsmsg.ID request) lnk data])
         p request blockData in
     (graphsync.BlockSize blockData > 0 →
        ResponseManager.sendBlock env p request lnk data w =
          (ResponseManager.calls
             ([Ev.SendResponse p (gsmsg.ID request) lnk data;
               Ev.ProcessBlockHooks p request blockData] ++
              (Ev.SendExtensionData p (gsmsg.ID request)
                 <$> hooks.BlockExtensions result)) w,
           hooks.BlockErr result)) ∧
     (¬ graphsync.BlockSize blockData > 0 →
        ResponseManager.sendBlock env p request lnk data w =
          (ResponseManager.calls
             [Ev.SendResponse p (gsmsg.ID request) lnk data] w, None))) ∧
  (∀ loader traverser (w : QueryExecutor.executor),
     blockHooksFollow env [] None (QueryExecutor.trace w) = true →
     blockHooksFollow env [] None
       (QueryExecutor.trace
          (QueryExecutor.executeQuery env p request loader traverser w).1.1)
     = true) ∧
  (∀ loader traverser (w : ResponseManager.worker),
     blockHooksFollow env [] None (ResponseManager.w_trace w) = true →
     blockHooksFollow env [] None
       (ResponseManager.w_trace
          (ResponseManager.executeQuery env p request loader traverser w).1.1)
     = true).
Proof.
  split; [|split; [|split]].
  - intros w w1 err Hpoll Herr blockData result.
    rewrite (QueryExecutor_sendBlock_eq env p request lnk data w w1 err Hpoll).
    assert (negb (isErrPaused err) && bool_decide (err ≠ None) = false)
      as -> by (by destruct Herr as [-> | ->]).
    cbv zeta. fold blockData. fold result. split; intros Hsize.
    + by rewrite bool_decide_eq_true_2.
    + by rewrite bool_decide_eq_false_2.
  - intros w blockData result. unfold ResponseManager.sendBlock.
    cbv zeta.
    change (ResponseManager.w_trace
              (ResponseManager.call_
                 (Ev.SendResponse p (gsmsg.ID request) lnk data) w))
      with (ResponseManager.w_trace w ++
            [Ev.SendResponse p (gsmsg.ID request) lnk data]).
    fold blockData. fold result. split; intros Hsize.
    + rewrite bool_decide_eq_true_2 by done.
      unfold ResponseManager.call_, ResponseManager.calls. cbn.
      by rewrite <- !app_assoc.
    + by rewrite bool_decide_eq_false_2.
  - intros loader traverser w Hw.
    pose proof (RunTraversal_invariant
      (λ w, blockHooksFollow env [] None (QueryExecutor.trace w) = true)
      loader (QueryExecutor.sendBlock env p request) traverser
      (QueryExecutor_sendBlock_follows env p request) w Hw) as Hrun.
    unfold QueryExecutor.executeQuery.
    destruct (RunTraversal _ _ _ _) as [[w1 t1] [e|]]; cbn in Hrun.
    + destruct (isErrPaused (Some e)); [done|].
      destruct (QueryExecutor.isContextErr env e);
        [|destruct (bool_decide (e = errCancelledByCommand))];
        cbn; by rewrite (blockHooksFollow_app _ _ _ _ _ Hrun).
    + cbn. by rewrite (blockHooksFollow_app _ _ _ _ _ Hrun).
  - intros loader traverser w Hw.
    pose proof (RunTraversal_invariant
      (λ w, blockHooksFollow env [] None (ResponseManager.w_trace w) = true)
      loader (ResponseManager.sendBlock env p request) traverser
      (ResponseManager_sendBlock_follows env p request) w Hw) as Hrun.
    unfold ResponseManager.executeQuery.
    destruct (RunTraversal _ _ _ _) as [[w1 t1] [e|]]; cbn in Hrun.
    + destruct (bool_decide (e ≠ ErrPaused)); [|done].
      cbn. by rewrite (blockHooksFollow_app _ _ _ _ _ Hrun).
    + cbn. by rewrite (blockHooksFollow_app _ _ _ _ _ Hrun).
Qed.


End TransactionProofs.

Lemma sendBlock_block_hooks_witness :
  QueryExecutor.sendBlock env_pausing "P" request1 "A" [Byte.x2a] executor0 =
    (QueryExecutor.calls
       [Ev.TransactionBegin "P" 1;
        Ev.SendResponse "P" 1 "A" [Byte.x2a];
        Ev.ProcessBlockHooks "P" request1
          {| graphsync.BlockLink := "A"; graphsync.BlockSize := 1;
             graphsync.BlockIndex := 1 |};
        Ev.SendExtensionData "P" 1 extension1;
        Ev.PauseRequest "P" 1;
        Ev.TransactionEnd "P" 1] executor0,
     Some ErrPaused) ∧
  QueryExecutor.sendBlock env_pausing "P" request1 "A" [] executor0 =
    (QueryExecutor.calls
       [Ev.TransactionBegin "P" 1; Ev.SendResponse "P" 1 "A" [];
        Ev.TransactionEnd "P" 1] executor0, None) ∧
  ResponseManager.sendBlock env_pausing "P" request1 "A" [Byte.x2a] worker0 =
    (ResponseManager.calls
       [Ev.SendResponse "P" 1 "A" [Byte.x2a];
        Ev.ProcessBlockHooks "P" request1
          {| graphsync.BlockLink := "A"; graphsync.BlockSize := 1;
             graphsync.BlockIndex := 1 |};
        Ev.SendExtensionData "P" 1 extension1] worker0,
     Some ErrPaused) ∧
  ResponseManager.sendBlock env_pausing "P" request1 "A" [] worker0 =
    (ResponseManager.calls [Ev.SendResponse "P" 1 "A" []] worker0, None) ∧
  blockHooksFollow env_pausing [] None
    (QueryExecutor.trace
       (QueryExecutor.executeQuery env_pausing "P" request1
          (default_loader env_pausing) (TVisit "A" (λ _, TDone))
          executor0).1.1) = true ∧
  blockHooksFollow env_pausing [] None
    (ResponseManager.w_trace
       (ResponseManager.executeQuery env_pausing "P" request1
          (default_loader env_pausing) (TVisit "A" (λ _, TDone))
          worker0).1.1) = true.
Proof.
  split; [|split; [|split; [|split; [|split]]]].
  - destruct (sendBlock_block_hooks env_pausing "P" request1 "A" [Byte.x2a])
      as (Hqe & _).
    destruct (Hqe executor0 _ None eq_refl (or_introl eq_refl)) as [Hrun _].
    rewrite Hrun by (cbn; lia). reflexivity.
  - destruct (sendBlock_block_hooks env_pausing "P" request1 "A" [])
      as (Hqe & _).
    destruct (Hqe executor0 _ None eq_refl (or_introl eq_refl)) as [_ Hskip].
    rewrite Hskip by (cbn; lia). reflexivity.
  - destruct (sendBlock_block_hooks env_pausing "P" request1 "A" [Byte.x2a])
      as (_ & Hrm & _).
    destruct (Hrm worker0) as [Hrun _].
    rewrite Hrun by (cbn; lia). reflexivity.
  - destruct (sendBlock_block_hooks env_pausing "P" request1 "A" [])
      as (_ & Hrm & _).
    destruct (Hrm worker0) as [_ Hskip].
    rewrite Hskip by (cbn; lia). reflexivity.
  - destruct (sendBlock_block_hooks env_pausing "P" request1 "A" [])
      as (_ & _ & Hqe & _).
    apply Hqe. reflexivity.
  - destruct (sendBlock_block_hooks env_pausing "P" request1 "A" [])
      as (_ & _ & _ & Hrm).
    apply Hrm. reflexivity.
Defined.

(** C7, the counterexample: in the response manager a pause result of the
    block hooks is returned as the error of the link, and no PauseRequest
    is made on the sender. *)
Lemma ResponseManager_pause_without_PauseRequest :
  ResponseManager.sendBlock env_pausing "P" request1 "A" [Byte.x2a] worker0 =
    ({| ResponseManager.w_trace :=
          [Ev.SendResponse "P" 1 "A" [Byte.x2a];
           Ev.ProcessBlockHooks "P" request1
             {| graphsync.BlockLink := "A"; graphsync.BlockSize := 1;
                graphsync.BlockIndex := 1 |};
           Ev.SendExtensionData "P" 1 extension1];
        ResponseManager.w_ctxDone := false;
        ResponseManager.w_choices := [];
        ResponseManager.w_sent := [] |},
     Some ErrPaused) ∧
  Ev.PauseRequest "P" 1 ∉
    ResponseManager.w_trace
      (ResponseManager.executeQuery env_pausing "P" request1
         (default_loader env_pausing) (TVisit "A" (λ _, TDone)) worker0).1.1.
Proof.
  split; [reflexivity|].
  intros Hin. vm_compute in Hin.
  repeat (apply elem_of_cons in Hin as [Hin | Hin]; [discriminate|]).
  by apply not_elem_of_nil in Hin.
Qed.



(** ** UnpauseResponse when the manager's context is cancelled *)

Section UnpauseProofs.
Import ResponseManager.
Context `{QueryQueue Q}.
Implicit Types rm : ResponseManager (Q := Q).

Lemma reply_ctxDone choice c v rm :
  ctxDone (reply choice c v rm) = ctxDone rm.
Proof. unfold reply. by destruct (select _ _) as [[]|]. Qed.

Lemma handleRequest_ctxDone p request rm :
  ctxDone (handleRequest p request rm) = ctxDone rm.
Proof.
  unfold handleRequest. destruct (negb (gsmsg.IsCancel request)); [done|].
  cbn. by destruct (inProgressResponses rm !! (p, gsmsg.ID request)).
Qed.

Lemma processRequestMessage_handle_ctxDone p requests rm :
  ctxDone (processRequestMessage_handle p requests rm) = ctxDone rm.
Proof.
  unfold processRequestMessage_handle.
  revert rm. induction requests as [|request requests IH]; intros rm; [done|].
  cbn. by rewrite IH, handleRequest_ctxDone.
Qed.

(** No handler brings a cancelled context back. *)
Lemma handle_ctxDone choice m rm :
  ctxDone (handle choice m rm) = ctxDone rm.
Proof.
  destruct m as [p requests|p requestID response|sync|key c|key err|key l t];
    cbn.
  - apply processRequestMessage_handle_ctxDone.
  - unfold unpauseRequestMessage_handle, unpauseRequest.
    destruct (inProgressResponses rm !! (p, requestID)) as [response'|];
      [destruct (negb (isPaused response'))|]; by rewrite reply_ctxDone.
  - apply reply_ctxDone.
  - apply reply_ctxDone.
  - unfold finishTaskRequest_handle.
    destruct (inProgressResponses rm !! key); [|done].
    case_decide; [done|]. by destruct err.
  - unfold setResponseDataRequest_handle.
    by destruct (inProgressResponses rm !! key).
Qed.

Lemma run_step_ctxDone c c' rm :
  ctxDone (run_step c c' rm).1 = ctxDone rm.
Proof.
  unfold run_step. destruct (select _ _) as [[message|]|]; cbn; [|done..].
  by rewrite handle_ctxDone.
Qed.

(** C10, as the code has it.  With rm.ctx cancelled neither select of
    UnpauseResponse blocks.  The first returns the "Context Cancelled"
    error or, when rm.messages has room, may send the message; the second,
    reached with whatever the serializer did in between (which never
    brings the context back), returns the "Context Cancelled" error or,
    when the reply is already on the response channel, may return that
    reply. *)
Theorem UnpauseResponse_ctx_cancelled rm p requestID response :
  ctxDone rm = true →
  (∀ choice,
     let r := UnpauseResponse_send choice p requestID response rm in
     r.2 ≠ Blocked ∧
     (r.2 = Returned (Some (errorNew "Context Cancelled")) ∨
      (r.2 = Sent ∧ (length (messages rm) < 16)%nat ∧
       messages r.1 =
         messages rm ++ [unpauseRequestMessage p requestID response]))) ∧
  (chanOfErrors response rm →
   ∀ choice,
     let r := UnpauseResponse_receive choice response rm in
     r.2 ≠ Blocked ∧
     (r.2 = Returned (Some (errorNew "Context Cancelled")) ∨
      (∃ ch err, chans rm !! response = Some ch ∧
                 head (chanBuf ch) = Some (VError err) ∧
                 r.2 = Returned err))) ∧
  (∀ choice choice', ctxDone (run_step choice choice' rm).1 = true).
Proof.
  intros Hctx. split; [|split].
  - intros choice r. subst r. unfold UnpauseResponse_send. cbn.
    rewrite Hctx.
    destruct (bool_decide (length (messages rm) < messagesCap)%nat) eqn:Hroom.
    + apply bool_decide_eq_true_1 in Hroom.
      destruct (select_both choice false true) as [-> | ->]; cbn.
      * split; [done|]. by left.
      * split; [done|]. right. done.
    + rewrite select_first_only. cbn. split; [done|]. by left.
  - intros Htyped choice r. subst r. unfold UnpauseResponse_receive.
    rewrite Hctx.
    destruct (chans rm !! response) as [ch|] eqn:Hch; cbn.
    + destruct (chanBuf ch) as [|v buf] eqn:Hbuf.
      * unfold recvReady. rewrite Hbuf. cbn.
        rewrite select_first_only. split; [done|]. by left.
      * unfold recvReady. rewrite Hbuf.
        rewrite bool_decide_eq_true_2 by done. cbn.
        destruct (Htyped ch v Hch) as [err ->];
          [rewrite Hbuf; apply elem_of_cons; by left|].
        destruct (select_both choice (None : option chanValue)
                    (Some (VError err))) as [-> | ->]; cbn.
        -- split; [done|]. by left.
        -- split; [done|]. right. exists ch, err. by rewrite Hbuf.
    + rewrite select_first_only. split; [done|]. by left.
  - intros choice choice'. by rewrite run_step_ctxDone.
Qed.

End UnpauseProofs.

Lemma UnpauseResponse_ctx_cancelled_witness :
  ResponseManager.ctxDone rm1_shutdown = true ∧
  (ResponseManager.UnpauseResponse_send 0 "P" 1 7 rm1_shutdown).2 ≠
    ResponseManager.Blocked ∧
  (ResponseManager.UnpauseResponse_receive 0 7 rm1_shutdown).2 ≠
    ResponseManager.Blocked.
Proof.
  destruct (UnpauseResponse_ctx_cancelled rm1_shutdown "P" 1 7 eq_refl)
    as (Hsend & Hreceive & _).
  split; [reflexivity|]. split.
  - apply (Hsend 0%nat).
  - apply (Hreceive
             ltac:(intros ch v Hch; vm_compute in Hch; discriminate) 0%nat).
Defined.

(** C10, the counterexample: the context of the manager is cancelled, the
    response ("P", 1) is paused, rm.messages has room.  The first select
    sends the message, the loop of [run] receives and handles it before it
    sees the cancelled context, and the second select takes the reply:
    UnpauseResponse returns nil, not the "Context Cancelled" error. *)
Lemma UnpauseResponse_returns_the_reply :
  let sent := ResponseManager.UnpauseResponse_send 1 "P" 1 7 rm1_shutdown in
  let handled := ResponseManager.run_step 1 1 sent.1 in
  let received := ResponseManager.UnpauseResponse_receive 1 7 handled.1 in
  ResponseManager.ctxDone rm1_shutdown = true ∧
  sent.2 = ResponseManager.Sent ∧
  handled.2 = ResponseManager.Handled ∧
  received.2 = ResponseManager.Returned None ∧
  received.2 ≠ ResponseManager.Returned (Some (errorNew "Context Cancelled")).
Proof. repeat split; try reflexivity. discriminate. Qed.

(** ** What the handlers keep about contexts *)

Section InvariantProofs.
Import ResponseManager.
Context `{QueryQueue Q}.
Implicit Types rm : ResponseManager (Q := Q).
Implicit Types tbl : gmap (string * Z) inProgressResponseStatus.

Lemma tableInv_insert_same tbl n cancelled key response response' :
  tbl !! key = Some response → ctx response' = ctx response →
  tableInv tbl n cancelled → tableInv (<[key := response']> tbl) n cancelled.
Proof.
  intros Hkey Hctx (Hlt & Hcancelled & Hdistinct). split; [|split].
  - intros key1 response1. rewrite lookup_insert. case_decide.
    + intros [= <-]. rewrite Hctx. by apply (Hlt key).
    + apply Hlt.
  - exact Hcancelled.
  - intros key1 key2 response1 response2. rewrite !lookup_insert.
    repeat case_decide; subst.
    + done.
    + intros [= <-] H2 Heq. rewrite Hctx in Heq.
      symmetry. by apply (Hdistinct _ _ _ _ H2 Hkey).
    + intros H1 [= <-] Heq. rewrite Hctx in Heq.
      by apply (Hdistinct _ _ _ _ H1 Hkey).
    + apply Hdistinct.
Qed.

Lemma tableInv_delete tbl n cancelled key :
  tableInv tbl n cancelled → tableInv (delete key tbl) n cancelled.
Proof.
  intros (Hlt & Hcancelled & Hdistinct). split; [|split].
  - intros key1 response1 [_ H1]%lookup_delete_Some. by apply (Hlt key1).
  - exact Hcancelled.
  - intros key1 key2 response1 response2
      [_ H1]%lookup_delete_Some [_ H2]%lookup_delete_Some.
    by apply Hdistinct.
Qed.

Lemma tableInv_fresh tbl n cancelled key response :
  ctx response = n →
  tableInv tbl n cancelled → tableInv (<[key := response]> tbl) (S n) cancelled.
Proof.
  intros Hctx (Hlt & Hcancelled & Hdistinct). split; [|split].
  - intros key1 response1. rewrite lookup_insert. case_decide.
    + intros [= <-]. lia.
    + intros H1. specialize (Hlt _ _ H1). lia.
  - intros c Hc. specialize (Hcancelled _ Hc). lia.
  - intros key1 key2 response1 response2. rewrite !lookup_insert.
    repeat case_decide; subst.
    + done.
    + intros [= <-] H2 Heq. specialize (Hlt _ _ H2). lia.
    + intros H1 [= <-] Heq. specialize (Hlt _ _ H1). lia.
    + apply Hdistinct.
Qed.

Lemma tableInv_cancel tbl n cancelled cs :
  (∀ c, c ∈ cs → ∃ key response, tbl !! key = Some response ∧ ctx response = c) →
  tableInv tbl n cancelled → tableInv tbl n (cancelled ++ cs).
Proof.
  intros Hcs (Hlt & Hcancelled & Hdistinct). split; [|split]; [done| |done].
  intros c [Hc | Hc]%elem_of_app; [by apply Hcancelled|].
  destruct (Hcs c Hc) as (key & response & Hkey & <-). by apply (Hlt key).
Qed.

Lemma inv_New (q : Q) : inv (New q).
Proof.
  split; [|split].
  - intros key response Hkey. cbn in Hkey. by rewrite lookup_empty in Hkey.
  - intros c Hc. cbn in Hc. by apply not_elem_of_nil in Hc.
  - intros key1 key2 response1 response2 H1. cbn in H1.
    by rewrite lookup_empty in H1.
Qed.

Lemma inv_handleRequest p request rm :
  inv rm → inv (handleRequest p request rm).
Proof.
  unfold inv, handleRequest. intros Hinv.
  destruct (gsmsg.IsCancel request); cbn.
  - destruct (inProgressResponses rm !! (p, gsmsg.ID request))
      as [response|] eqn:Hkey; cbn; [|done].
    apply tableInv_cancel; [|done].
    intros c ->%list_elem_of_singleton. eauto.
  - by apply tableInv_fresh.
Qed.

Lemma inv_processRequestMessage_handle p requests rm :
  inv rm → inv (processRequestMessage_handle p requests rm).
Proof.
  unfold processRequestMessage_handle. revert rm.
  induction requests as [|request requests IH]; intros rm Hinv; [done|].
  cbn. by apply IH, inv_handleRequest.
Qed.

Lemma inv_reply choice c v rm : inv rm → inv (reply choice c v rm).
Proof. unfold inv, reply. by destruct (select _ _) as [[]|]. Qed.

Lemma inv_handle choice m rm : inv rm → inv (handle choice m rm).
Proof.
  intros Hinv.
  destruct m as [p requests|p requestID response|sync|key c|key err|key l t];
    cbn.
  - by apply inv_processRequestMessage_handle.
  - unfold unpauseRequestMessage_handle, unpauseRequest.
    destruct (inProgressResponses rm !! (p, requestID)) as [response'|]
      eqn:Hkey; [destruct (negb (isPaused response'))|];
      apply inv_reply; try done.
    unfold inv. cbn. by apply (tableInv_insert_same _ _ _ _ response').
  - by apply inv_reply.
  - by apply inv_reply.
  - unfold finishTaskRequest_handle.
    destruct (inProgressResponses rm !! key) as [response|] eqn:Hkey; [|done].
    case_decide.
    + unfold inv. cbn. by apply (tableInv_insert_same _ _ _ _ response).
    + assert (tableInv (delete key (inProgressResponses rm)) (nextCtx rm)
                (cancelCalls rm ++ [ctx response])) as Hdone.
      { apply tableInv_delete, tableInv_cancel; [|done].
        intros c ->%list_elem_of_singleton. eauto. }
      by destruct err.
  - unfold setResponseDataRequest_handle.
    destruct (inProgressResponses rm !! key) as [response|] eqn:Hkey; [|done].
    unfold inv. cbn. by apply (tableInv_insert_same _ _ _ _ response).
Qed.

Lemma inv_cleanupInProcessResponses rm :
  inv rm → inv (cleanupInProcessResponses rm).
Proof.
  unfold inv, cleanupInProcessResponses. cbn. intros Hinv.
  apply tableInv_cancel; [|done].
  intros c (response & -> & Hin)%list_elem_of_fmap.
  apply list_elem_of_fmap in Hin as ([key response'] & Heq & Hin).
  cbn in Heq. subst response'. apply elem_of_map_to_list in Hin. eauto.
Qed.

Lemma inv_handles ms rm : inv rm → inv (handles ms rm).
Proof.
  unfold handles. revert rm.
  induction ms as [|m ms IH]; intros rm Hinv; [done|].
  cbn. by apply IH, inv_handle.
Qed.

End InvariantProofs.

Section ContextProofs.
Import ResponseManager.
Context `{QueryQueue Q}.
Implicit Types rm : ResponseManager (Q := Q).

Lemma inv_run_step choice choice' rm :
  inv rm → inv (run_step choice choice' rm).1.
Proof.
  intros Hinv. unfold run_step.
  destruct (select _ _) as [[message|]|]; cbn; [|by apply inv_cleanupInProcessResponses|done].
  by apply inv_handle.
Qed.

Lemma inv_run turns rm : inv rm → inv (run turns rm).1.
Proof.
  revert rm. induction turns as [|[choice choice'] turns IH]; intros rm Hinv;
    [done|].
  cbn [run]. pose proof (inv_run_step choice choice' rm Hinv) as Hstep.
  destruct (run_step choice choice' rm) as [rm' []]; cbn in *; try done.
  by apply IH.
Qed.

(** X1.  From New on, through every handler, every turn of run and the
    cleanup at its end: every context of an entry and every cancelled
    context was made earlier than the next one to be made, and no two
    entries of the in-progress table share a context. *)
Theorem contexts_are_never_shared (q : Q) rm :
  inv (New q) ∧
  (inv rm →
   (∀ choice m, inv (handle choice m rm)) ∧
   (∀ ms, inv (handles ms rm)) ∧
   (∀ turns, inv (run turns rm).1) ∧
   (∀ key1 key2 response1 response2,
      inProgressResponses rm !! key1 = Some response1 →
      inProgressResponses rm !! key2 = Some response2 →
      key1 ≠ key2 → ctx response1 ≠ ctx response2)).
Proof.
  split; [apply inv_New|]. intros Hinv. split; [|split; [|split]].
  - intros choice m. by apply inv_handle.
  - intros ms. by apply inv_handles.
  - intros turns. by apply inv_run.
  - intros key1 key2 response1 response2 H1 H2 Hne Heq.
    destruct Hinv as (_ & _ & Hdistinct). by apply Hne, (Hdistinct _ _ _ _ H1 H2).
Qed.

Lemma isDone_cancel_other c c' rm :
  c ≠ c' →
  isDone c (set_cancelCalls (cancelCalls rm ++ [c']) rm) = isDone c rm.
Proof.
  intros Hne. unfold isDone. cbn. f_equal.
  apply bool_decide_ext. rewrite elem_of_app, list_elem_of_singleton.
  split; [intros [Hin | Heq]; [done | by destruct Hne] | by left].
Qed.

(** X2.  A cancel request and a finishTask message act on the entry of
    their key only: every other entry of the table stays as it is, and its
    context is cancelled afterwards only if it was before. *)
Theorem other_entries_are_untouched rm key key' response' :
  inv rm →
  inProgressResponses rm !! key' = Some response' →
  key' ≠ key →
  (∀ request,
     gsmsg.IsCancel request = true → key.2 = gsmsg.ID request →
     let rm' := handleRequest key.1 request rm in
     inProgressResponses rm' !! key' = Some response' ∧
     isDone (ctx response') rm' = isDone (ctx response') rm) ∧
  (∀ err,
     let rm' := finishTaskRequest_handle key err rm in
     inProgressResponses rm' !! key' = Some response' ∧
     isDone (ctx response') rm' = isDone (ctx response') rm).
Proof.
  intros (_ & _ & Hdistinct) Hkey' Hne. destruct key as [p requestID]. split.
  - intros request Hcancel Hid rm'. subst rm'. cbn in Hid. subst requestID.
    unfold handleRequest. rewrite Hcancel. cbn.
    destruct (inProgressResponses rm !! (p, gsmsg.ID request))
      as [response|] eqn:Hkey; cbn; [|done].
    split; [done|]. apply (isDone_cancel_other _ _ (set_queryQueue _ rm)).
    intros Heq. by apply Hne, (Hdistinct _ _ _ _ Hkey' Hkey).
  - intros err rm'. subst rm'. unfold finishTaskRequest_handle.
    destruct (inProgressResponses rm !! (p, requestID))
      as [response|] eqn:Hkey; [|done].
    case_decide.
    + cbn. by rewrite lookup_insert_ne.
    + assert (ctx response' ≠ ctx response) as Hctx.
      { intros Heq. by apply Hne, (Hdistinct _ _ _ _ Hkey' Hkey). }
      destruct err; cbn; (split; [by rewrite lookup_delete_ne|]);
        unfold isDone; cbn; f_equal; apply bool_decide_ext;
        rewrite elem_of_app, list_elem_of_singleton;
        (split; [intros [Hin | Heq]; [done | by destruct Hctx] | by left]).
Qed.

End ContextProofs.

(** ** Contexts whose entry has left the table *)

Lemma count_occ_snoc_ne (l : list nat) (c c' : nat) :
  c' ≠ c → count_occ Nat.eq_dec (l ++ [c']) c = count_occ Nat.eq_dec l c.
Proof.
  intros Hne. rewrite count_occ_app. cbn.
  destruct (Nat.eq_dec c' c); [done|lia].
Qed.

Lemma count_occ_app_others (l cs : list nat) (c : nat) :
  (∀ c', c' ∈ cs → c' ≠ c) →
  count_occ Nat.eq_dec (l ++ cs) c = count_occ Nat.eq_dec l c.
Proof.
  intros Hcs. rewrite count_occ_app.
  rewrite (proj1 (count_occ_not_In Nat.eq_dec cs c)); [lia|].
  intros Hin%list_elem_of_In. by apply (Hcs c).
Qed.

Section OrphanProofs.
Import ResponseManager.
Context `{QueryQueue Q}.
Implicit Types rm : ResponseManager (Q := Q).

Lemma left_behind_handleRequest c p request rm :
  left_behind c rm →
  left_behind c (handleRequest p request rm) ∧
  count_occ Nat.eq_dec (cancelCalls (handleRequest p request rm)) c =
  count_occ Nat.eq_dec (cancelCalls rm) c.
Proof.
  intros (Hinv & Hlt & Horphan).
  split; [split; [by apply inv_handleRequest|]|].
  - unfold handleRequest. destruct (gsmsg.IsCancel request); cbn.
    + by destruct (inProgressResponses rm !! (p, gsmsg.ID request)).
    + split; [lia|]. intros key response. cbn. rewrite lookup_insert.
      case_decide; [intros [= <-]; cbn; lia|apply Horphan].
  - unfold handleRequest. destruct (gsmsg.IsCancel request); cbn; [|done].
    destruct (inProgressResponses rm !! (p, gsmsg.ID request))
      as [response|] eqn:Hkey; cbn; [|done].
    apply count_occ_snoc_ne, (Horphan _ _ Hkey).
Qed.

Lemma left_behind_handle c choice m rm :
  left_behind c rm →
  left_behind c (handle choice m rm) ∧
  count_occ Nat.eq_dec (cancelCalls (handle choice m rm)) c =
  count_occ Nat.eq_dec (cancelCalls rm) c.
Proof.
  intros Hleft. pose proof Hleft as (Hinv & Hlt & Horphan).
  split; [split; [by apply inv_handle|]|].
  - destruct m as [p requests|p requestID ch0|sync|key ch|key err|key l t];
      cbn.
    + unfold processRequestMessage_handle. clear Hinv Hlt Horphan.
      revert rm Hleft.
      induction requests as [|request requests IH]; intros rm Hleft.
      * by destruct Hleft as (_ & ? & ?).
      * cbn. apply IH. by apply left_behind_handleRequest.
    + unfold unpauseRequestMessage_handle, unpauseRequest, reply.
      destruct (inProgressResponses rm !! (p, requestID)) as [response'|]
        eqn:Hkey; [destruct (negb (isPaused response'))|];
        destruct (select _ _) as [[]|]; cbn; try done.
      all: split; [done|]; intros key response; cbn; rewrite lookup_insert;
        (case_decide; [intros [= <-]; cbn; by apply (Horphan _ _ Hkey)
                      |apply Horphan]).
    + unfold synchronizeMessage_handle, reply.
      by destruct (select _ _) as [[]|].
    + unfold responseDataRequest_handle, reply.
      by destruct (select _ _) as [[]|].
    + unfold finishTaskRequest_handle.
      destruct (inProgressResponses rm !! key) as [response|] eqn:Hkey;
        [|done].
      case_decide.
      * cbn. split; [done|]. intros key' response'. cbn.
        rewrite lookup_insert.
        case_decide; [intros [= <-]; cbn; by apply (Horphan _ _ Hkey)
                     |apply Horphan].
      * assert (∀ key' response',
          delete key (inProgressResponses rm) !! key' = Some response' →
          ctx response' ≠ c) as Hdel.
        { intros key' response' [_ Hkey']%lookup_delete_Some.
          by apply (Horphan key'). }
        by destruct err.
    + unfold setResponseDataRequest_handle.
      destruct (inProgressResponses rm !! key) as [response|] eqn:Hkey;
        [|done].
      cbn. split; [done|]. intros key' response'. cbn.
      rewrite lookup_insert.
      case_decide; [intros [= <-]; cbn; by apply (Horphan _ _ Hkey)
                   |apply Horphan].
  - destruct m as [p requests|p requestID ch0|sync|key ch|key err|key l t];
      cbn.
    + unfold processRequestMessage_handle. clear Hinv Hlt Horphan.
      revert rm Hleft.
      induction requests as [|request requests IH]; intros rm Hleft; [done|].
      cbn. destruct (left_behind_handleRequest c p request rm Hleft)
        as [Hleft' <-].
      by apply IH.
    + unfold unpauseRequestMessage_handle, unpauseRequest, reply.
      destruct (inProgressResponses rm !! (p, requestID)) as [response'|];
        [destruct (negb (isPaused response'))|];
        by destruct (select _ _) as [[]|].
    + unfold synchronizeMessage_handle, reply.
      by destruct (select _ _) as [[]|].
    + unfold responseDataRequest_handle, reply.
      by destruct (select _ _) as [[]|].
    + unfold finishTaskRequest_handle.
      destruct (inProgressResponses rm !! key) as [response|] eqn:Hkey;
        [|done].
      case_decide; [done|].
      destruct err; cbn; apply count_occ_snoc_ne, (Horphan _ _ Hkey).
    + unfold setResponseDataRequest_handle.
      by destruct (inProgressResponses rm !! key).
Qed.

Lemma left_behind_handles c ms rm :
  left_behind c rm →
  left_behind c (handles ms rm) ∧
  count_occ Nat.eq_dec (cancelCalls (handles ms rm)) c =
  count_occ Nat.eq_dec (cancelCalls rm) c.
Proof.
  unfold handles. revert rm.
  induction ms as [|m ms IH]; intros rm Hleft; [done|].
  cbn. destruct (left_behind_handle c m.1 m.2 rm Hleft) as [Hleft' <-].
  by apply IH.
Qed.

Lemma left_behind_run_step c choice choice' rm :
  left_behind c rm →
  left_behind c (run_step choice choice' rm).1 ∧
  count_occ Nat.eq_dec (cancelCalls (run_step choice choice' rm).1) c =
  count_occ Nat.eq_dec (cancelCalls rm) c.
Proof.
  intros Hleft. pose proof Hleft as (Hinv & Hlt & Horphan).
  unfold run_step. destruct (select _ _) as [[message|]|]; cbn; [| |done].
  - by apply (left_behind_handle c choice' message
                (set_messages (tail (messages rm)) rm)).
  - split; [split; [by apply inv_cleanupInProcessResponses|done]|].
    apply count_occ_app_others.
    intros c' (response & -> & Hin)%list_elem_of_fmap.
    apply list_elem_of_fmap in Hin as ([key response'] & Heq & Hin).
    cbn in Heq. subst response'. apply elem_of_map_to_list in Hin.
    by apply (Horphan key).
Qed.

Lemma left_behind_run c turns rm :
  left_behind c rm →
  count_occ Nat.eq_dec (cancelCalls (run turns rm).1) c =
  count_occ Nat.eq_dec (cancelCalls rm) c.
Proof.
  revert rm. induction turns as [|[choice choice'] turns IH];
    intros rm Hleft; [done|].
  cbn [run].
  destruct (left_behind_run_step c choice choice' rm Hleft) as [Hleft' Hcount].
  destruct (run_step choice choice' rm) as [rm' []]; cbn in *; try done.
  rewrite <- Hcount. by apply IH.
Qed.

(** X3.  A context leaves the table when finishTask deletes its entry or
    when a new request for the same key replaces the entry (which calls no
    cancelFn).  Once no entry has the context, no message the serializer
    handles later and no cleanup at the end of run calls its cancelFn
    again: the number of cancelFn calls for it stays what it was. *)
Theorem no_cancelFn_once_the_entry_is_gone rm key response :
  inv rm →
  inProgressResponses rm !! key = Some response →
  (∀ err, err ≠ Some ErrPaused →
     orphan (ctx response) (finishTaskRequest_handle key err rm)) ∧
  (∀ request,
     gsmsg.IsCancel request = false → gsmsg.ID request = key.2 →
     orphan (ctx response) (handleRequest key.1 request rm) ∧
     cancelCalls (handleRequest key.1 request rm) = cancelCalls rm) ∧
  (∀ rm' : ResponseManager (Q := Q),
     inv rm' → (ctx response < nextCtx rm')%nat → orphan (ctx response) rm' →
     (∀ ms,
        count_occ Nat.eq_dec (cancelCalls (handles ms rm')) (ctx response) =
        count_occ Nat.eq_dec (cancelCalls rm') (ctx response)) ∧
     (∀ turns,
        count_occ Nat.eq_dec (cancelCalls (run turns rm').1) (ctx response) =
        count_occ Nat.eq_dec (cancelCalls rm') (ctx response))).
Proof.
  intros Hinv Hkey. pose proof Hinv as (Hlt & _ & Hdistinct).
  split; [|split].
  - intros err Hne. unfold finishTaskRequest_handle. rewrite Hkey.
    rewrite decide_False by done.
    assert (∀ key' response',
      delete key (inProgressResponses rm) !! key' = Some response' →
      ctx response' ≠ ctx response) as Hdel.
    { intros key' response' [Hne' Hkey']%lookup_delete_Some Heq.
      by apply Hne', (Hdistinct _ _ _ _ Hkey Hkey'). }
    by destruct err.
  - intros request Hnew Hid. destruct key as [p requestID]. cbn in *.
    subst requestID. unfold handleRequest. rewrite Hnew. cbn.
    split; [|done]. intros key' response'. cbn. rewrite lookup_insert.
    destruct (decide ((p, gsmsg.ID request) = key')) as [<-|Hne'].
    + intros [= <-]. cbn. specialize (Hlt _ _ Hkey). lia.
    + intros Hkey' Heq. by apply Hne', (Hdistinct _ _ _ _ Hkey Hkey').
  - intros rm' Hinv' Hlt' Horphan. split.
    + intros ms. by apply left_behind_handles.
    + intros turns. by apply left_behind_run.
Qed.

End OrphanProofs.

Lemma inv_rm12 : inv rm12.
Proof. apply inv_handle, inv_New. Qed.

Lemma inv_rm1 : inv rm1.
Proof. apply inv_handle, inv_New. Qed.

Lemma contexts_are_never_shared_witness :
  inv (ResponseManager.New ([] : list queueCall)) ∧
  inv (ResponseManager.handle 0
         (ResponseManager.processRequestMessage "P" [cancel1]) rm12) ∧
  (∀ response1 response2,
     ResponseManager.inProgressResponses rm12 !! ("P", 1) = Some response1 →
     ResponseManager.inProgressResponses rm12 !! ("P", 2) = Some response2 →
     ResponseManager.ctx response1 ≠ ResponseManager.ctx response2).
Proof.
  destruct (contexts_are_never_shared ([] : list queueCall) rm12)
    as [Hnew Hkeep].
  destruct (Hkeep inv_rm12) as (Hhandle & _ & _ & Hdistinct).
  split; [exact Hnew|]. split; [apply Hhandle|].
  intros response1 response2 H1 H2.
  apply (Hdistinct ("P", 1) ("P", 2) _ _ H1 H2). discriminate.
Defined.

Lemma other_entries_are_untouched_witness :
  let rm' := ResponseManager.handleRequest "P" cancel1 rm12 in
  ResponseManager.inProgressResponses rm' !! ("P", 2) =
    Some {| ResponseManager.ctx := 1%nat; ResponseManager.request := request2;
            ResponseManager.loader := None; ResponseManager.traverser := None;
            ResponseManager.isPaused := false |} ∧
  ResponseManager.isDone 1%nat rm' = false.
Proof.
  destruct (other_entries_are_untouched rm12 ("P", 1) ("P", 2) _
              inv_rm12 eq_refl ltac:(discriminate)) as [Hcancel _].
  exact (Hcancel cancel1 eq_refl eq_refl).
Defined.

Lemma no_cancelFn_once_the_entry_is_gone_witness :
  orphan 0%nat rm1_done ∧
  count_occ Nat.eq_dec
    (ResponseManager.cancelCalls
       (handles
          [(0%nat, ResponseManager.processRequestMessage "P" [request1]);
           (0%nat, ResponseManager.processRequestMessage "P" [cancel1]);
           (0%nat, ResponseManager.finishTaskRequest ("P", 1)
                     (Some ContextCancelError))]
          rm1_done)) 0%nat = 1%nat.
Proof.
  destruct (no_cancelFn_once_the_entry_is_gone rm1 ("P", 1) _ inv_rm1
              rm1_lookup) as (Hfinish & _ & Hlater).
  assert (orphan 0%nat rm1_done) as Horphan
    by (apply (Hfinish None); discriminate).
  split; [exact Horphan|].
  destruct (Hlater rm1_done) as [Hhandles _].
  - apply inv_handle, inv_rm1.
  - vm_compute. lia.
  - exact Horphan.
  - rewrite Hhandles. reflexivity.
Defined.

(** ** Pausing, resuming, and what the table remembers *)

Section PauseProofs.
Import ResponseManager.
Context `{QueryQueue Q}.
Implicit Types rm : ResponseManager (Q := Q).

Lemma set_isPaused_false_true response :
  isPaused response = false →
  set_isPaused false (set_isPaused true response) = response.
Proof. destruct response. cbn. by intros ->. Qed.

(** X4.  A response that was running and is reported paused by finishTask
    can be unpaused once: unpauseRequest then returns nil and gives back
    the table as it was before the pause, with one task of priority
    math.MaxInt32 pushed for the key and workSignal full.  Unpausing it a
    second time returns an error and changes nothing. *)
Theorem pause_then_unpause rm p requestID response :
  inProgressResponses rm !! (p, requestID) = Some response →
  isPaused response = false →
  let paused := finishTaskRequest_handle (p, requestID) (Some ErrPaused) rm in
  let resumed :=
    set_workSignal true
      (set_queryQueue
         (PushTasks p [ {| peertask.Topic := (p, requestID);
                           peertask.Priority := 2147483647;
                           peertask.Work := 1 |} ] (queryQueue rm)) rm) in
  (∃ response', inProgressResponses paused !! (p, requestID) = Some response' ∧
                isPaused response' = true) ∧
  unpauseRequest p requestID paused = (resumed, None) ∧
  inProgressResponses resumed = inProgressResponses rm ∧
  unpauseRequest p requestID resumed =
    (resumed, Some (errorNew "request is not paused")).
Proof.
  intros Hkey Hrunning paused resumed.
  assert (Hpaused : paused =
    set_inProgressResponses
      (<[(p, requestID) := set_isPaused true response]>
         (inProgressResponses rm)) rm).
  { subst paused. unfold finishTaskRequest_handle. rewrite Hkey.
    by rewrite decide_True. }
  split; [|split; [|split]].
  - exists (set_isPaused true response). rewrite Hpaused. cbn.
    by rewrite lookup_insert_eq.
  - rewrite Hpaused. unfold unpauseRequest. cbn.
    rewrite lookup_insert_eq. cbn.
    rewrite insert_insert_eq, set_isPaused_false_true by done.
    rewrite insert_id by done. subst resumed. by destruct rm.
  - done.
  - subst resumed. unfold unpauseRequest. cbn. rewrite Hkey, Hrunning. done.
Qed.

(** X5.  setResponseData assigns the loader and the traverser of the
    message to the entry of its key and changes nothing else: the context,
    the request and the pause flag of the entry, every other entry, the
    queue and the cancelFn calls are as before.  The loader it recorded is
    the one the next responseDataRequest for the key is answered with,
    together with the context and the request of the entry, also after the
    response was paused and unpaused in between.  For a key without entry
    setResponseData changes nothing.  (Of the traverser only the assignment
    is stated: the entry refers to an object that the worker advances, so
    nothing is said of the state it is in when it is handed back.) *)
Theorem recorded_loader_is_handed_back rm key l t :
  (∀ response,
     inProgressResponses rm !! key = Some response →
     let recorded := setResponseDataRequest_handle key l t rm in
     let paused := finishTaskRequest_handle key (Some ErrPaused) recorded in
     let unpaused := unpauseRequest key.1 key.2 paused in
     let handed_back rm' :=
       ∃ taskData, taskDataFor key rm' = Some taskData ∧
                   td_loader taskData = l ∧
                   td_ctx taskData = ctx response ∧
                   td_request taskData = request response in
     (∃ response',
        inProgressResponses recorded !! key = Some response' ∧
        loader response' = l ∧ traverser response' = t ∧
        ctx response' = ctx response ∧
        request response' = request response ∧
        isPaused response' = isPaused response) ∧
     (∀ key', key' ≠ key →
        inProgressResponses recorded !! key' = inProgressResponses rm !! key') ∧
     queryQueue recorded = queryQueue rm ∧
     cancelCalls recorded = cancelCalls rm ∧
     nextCtx recorded = nextCtx rm ∧
     handed_back recorded ∧ handed_back paused ∧
     unpaused.2 = None ∧ handed_back unpaused.1) ∧
  (inProgressResponses rm !! key = None →
   setResponseDataRequest_handle key l t rm = rm ∧
   taskDataFor key rm = None).
Proof.
  split.
  - intros response Hkey recorded paused unpaused handed_back.
    destruct key as [p requestID].
    assert (Hrecorded : inProgressResponses recorded !! (p, requestID) =
              Some (set_loader_traverser l t response)).
    { subst recorded. unfold setResponseDataRequest_handle. rewrite Hkey.
      cbn. by rewrite lookup_insert_eq. }
    assert (Hpaused : inProgressResponses paused !! (p, requestID) =
              Some (set_isPaused true (set_loader_traverser l t response))).
    { subst paused. unfold finishTaskRequest_handle. rewrite Hrecorded.
      rewrite decide_True by done. cbn. by rewrite lookup_insert_eq. }
    split; [|split; [|split; [|split; [|split]]]].
    + eexists. split; [exact Hrecorded|]. by repeat split.
    + intros key' Hne. subst recorded. unfold setResponseDataRequest_handle.
      rewrite Hkey. cbn. by rewrite lookup_insert_ne.
    + subst recorded. unfold setResponseDataRequest_handle. by rewrite Hkey.
    + subst recorded. unfold setResponseDataRequest_handle. by rewrite Hkey.
    + subst recorded. unfold setResponseDataRequest_handle. by rewrite Hkey.
    + subst handed_back. cbv beta. split; [|split; [|split]].
      * eexists. unfold taskDataFor. rewrite Hrecorded. by repeat split.
      * eexists. unfold taskDataFor. rewrite Hpaused. by repeat split.
      * subst unpaused. unfold unpauseRequest. cbn. by rewrite Hpaused.
      * subst unpaused. unfold unpauseRequest. cbn. rewrite Hpaused. cbn.
        eexists. unfold taskDataFor. cbn. rewrite lookup_insert_eq.
        by repeat split.
  - intros Hkey. unfold setResponseDataRequest_handle, taskDataFor.
    by rewrite Hkey.
Qed.

End PauseProofs.

Lemma pause_then_unpause_witness :
  ∃ resumed,
    ResponseManager.unpauseRequest "P" 1 rm1_paused = (resumed, None) ∧
    ResponseManager.inProgressResponses resumed =
      ResponseManager.inProgressResponses rm1 ∧
    ResponseManager.unpauseRequest "P" 1 resumed =
      (resumed, Some (errorNew "request is not paused")).
Proof.
  destruct (pause_then_unpause rm1 "P" 1 _ rm1_lookup eq_refl)
    as (_ & Hunpause & Htable & Hagain).
  eexists. split; [exact Hunpause|]. split; [exact Htable | exact Hagain].
Defined.

Lemma recorded_loader_is_handed_back_witness :
  (∃ taskData,
     ResponseManager.taskDataFor ("P", 1)
       (ResponseManager.unpauseRequest "P" 1
          (ResponseManager.finishTaskRequest_handle ("P", 1) (Some ErrPaused)
             (ResponseManager.setResponseDataRequest_handle ("P", 1)
                (Some (default_loader env0)) (Some TDone) rm1))).1 =
       Some taskData ∧
     ResponseManager.td_loader taskData = Some (default_loader env0) ∧
     ResponseManager.td_ctx taskData = 0%nat ∧
     ResponseManager.td_request taskData = request1) ∧
  ResponseManager.setResponseDataRequest_handle ("P", 2)
    (Some (default_loader env0)) (Some TDone) rm1 = rm1.
Proof.
  destruct (recorded_loader_is_handed_back rm1 ("P", 1)
              (Some (default_loader env0)) (Some TDone)) as [Hpresent _].
  destruct (recorded_loader_is_handed_back rm1 ("P", 2)
              (Some (default_loader env0)) (Some TDone)) as [_ Habsent].
  split.
  - destruct (Hpresent _ rm1_lookup)
      as (_ & _ & _ & _ & _ & _ & _ & _ & Hback).
    exact Hback.
  - by destruct (Habsent eq_refl).
Defined.

(** ** The loop of run *)

Section LoopProofs.
Import ResponseManager.
Context `{QueryQueue Q}.
Implicit Types rm : ResponseManager (Q := Q).

Lemma reply_set_messages ms choice c v rm :
  reply choice c v (set_messages ms rm) = set_messages ms (reply choice c v rm).
Proof. unfold reply. cbn. by destruct (select _ _) as [[]|]. Qed.

Lemma handleRequest_set_messages ms p request rm :
  handleRequest p request (set_messages ms rm) =
  set_messages ms (handleRequest p request rm).
Proof.
  unfold handleRequest. destruct (negb (gsmsg.IsCancel request)); [done|].
  cbn. by destruct (inProgressResponses rm !! (p, gsmsg.ID request)).
Qed.

Lemma unpauseRequest_set_messages ms p requestID rm :
  unpauseRequest p requestID (set_messages ms rm) =
  (set_messages ms (unpauseRequest p requestID rm).1,
   (unpauseRequest p requestID rm).2).
Proof.
  unfold unpauseRequest. cbn.
  destruct (inProgressResponses rm !! (p, requestID)) as [response|];
    [destruct (negb (isPaused response))|]; done.
Qed.

(** No handler reads or writes rm.messages. *)
Lemma handle_set_messages ms choice m rm :
  handle choice m (set_messages ms rm) = set_messages ms (handle choice m rm).
Proof.
  destruct m as [p requests|p requestID ch|sync|key ch|key err|key l t]; cbn.
  - unfold processRequestMessage_handle. revert rm.
    induction requests as [|request requests IH]; intros rm; [done|].
    cbn. by rewrite handleRequest_set_messages, IH.
  - unfold unpauseRequestMessage_handle.
    rewrite unpauseRequest_set_messages.
    destruct (unpauseRequest p requestID rm) as [rm' err]. cbn [fst snd].
    apply reply_set_messages.
  - apply reply_set_messages.
  - unfold responseDataRequest_handle, taskDataFor. cbn.
    apply reply_set_messages.
  - unfold finishTaskRequest_handle. cbn.
    destruct (inProgressResponses rm !! key); [|done].
    case_decide; [done|]. by destruct err.
  - unfold setResponseDataRequest_handle. cbn.
    by destruct (inProgressResponses rm !! key).
Qed.

Lemma handle_messages choice m rm :
  messages (handle choice m rm) = messages rm.
Proof.
  assert (rm = set_messages (messages rm) rm) as Hrm by (by destruct rm).
  rewrite Hrm at 1. by rewrite handle_set_messages.
Qed.

Lemma unpauseRequest_replyBlocks c p requestID rm :
  replyBlocks c (unpauseRequest p requestID rm).1 = replyBlocks c rm.
Proof.
  unfold unpauseRequest.
  destruct (inProgressResponses rm !! (p, requestID)) as [response|];
    [destruct (negb (isPaused response))|]; done.
Qed.

(* whether a handler blocks does not depend on rm.messages *)
Lemma blockedOn_set_messages ms m rm :
  blockedOn m (set_messages ms rm) = blockedOn m rm.
Proof.
  destruct m as [p requests|p requestID ch|sync|key ch|key err|key l t];
    try done.
  cbn [blockedOn]. rewrite unpauseRequest_set_messages.
  by destruct (unpauseRequest p requestID rm) as [rm' err].
Qed.

Lemma run_step_live choice choice' m ms rm :
  ctxDone rm = false → messages rm = m :: ms →
  run_step choice choice' rm =
    (set_messages ms (handle choice' m rm),
     match blockedOn m (set_messages ms rm) with
     | Some (c, v) => Stuck c v
     | None => Handled
     end).
Proof.
  intros Hctx Hms. unfold run_step. rewrite Hctx, Hms.
  rewrite bool_decide_eq_true_2 by done. cbn [head tail].
  rewrite select_second_only. by rewrite handle_set_messages.
Qed.

Lemma handles_set_messages ms' ms rm l :
  set_messages ms' (handles l (set_messages ms rm)) =
  set_messages ms' (handles l rm).
Proof.
  revert rm. induction l as [|[choice m] l IH]; intros rm; [done|].
  cbn. rewrite handle_set_messages. apply IH.
Qed.

Lemma handled_upto_0 turns rm : handled_upto turns 0 rm = rm.
Proof. unfold handled_upto. cbn. by destruct rm. Qed.

Lemma handled_upto_S choice choice' turns j m ms rm :
  messages rm = m :: ms →
  handled_upto ((choice, choice') :: turns) (S j) rm =
  handled_upto turns j (set_messages ms (handle choice' m rm)).
Proof.
  intros Hms. unfold handled_upto. rewrite Hms.
  cbn [messages set_messages fmap list_fmap zip zip_with take drop fst snd].
  symmetry. apply (handles_set_messages _ ms (handle choice' m rm)).
Qed.

Lemma called_in_0 turns m ms rm :
  messages rm = m :: ms → called_in turns 0 rm = set_messages ms rm.
Proof. intros Hms. unfold called_in. by rewrite Hms. Qed.

Lemma called_in_S choice choice' turns i m ms rm :
  messages rm = m :: ms →
  called_in ((choice, choice') :: turns) (S i) rm =
  called_in turns i (set_messages ms (handle choice' m rm)).
Proof.
  intros Hms. unfold called_in. rewrite Hms.
  cbn [messages set_messages fmap list_fmap zip zip_with take drop fst snd].
  symmetry. apply (handles_set_messages _ ms (handle choice' m rm)).
Qed.

(* a blocked select leaves the state as it is *)
Lemma reply_blocked choice c v rm :
  replyBlocks c rm = true → reply choice c v rm = rm.
Proof.
  unfold replyBlocks, reply.
  intros [Hctx%negb_true_iff Hsend%negb_true_iff]%andb_true_iff.
  rewrite Hctx, Hsend. unfold select. by cbn.
Qed.

(* a handler that blocks leaves the manager where [run_resume] finds the
   same select blocked, as long as nothing else changes *)
Lemma blockedOn_stays choice choice' m c v rm :
  blockedOn m rm = Some (c, v) →
  run_resume choice c v (handle choice' m rm) =
    (handle choice' m rm, Stuck c v).
Proof.
  unfold run_resume.
  destruct m as [p requests|p requestID ch|sync|key ch|key err|key l t];
    try done; cbn [blockedOn handle].
  - unfold unpauseRequestMessage_handle.
    pose proof (unpauseRequest_replyBlocks ch p requestID rm) as Hsame.
    destruct (unpauseRequest p requestID rm) as [rm' err]. cbn [fst] in Hsame.
    destruct (replyBlocks ch rm') eqn:Hblocks; [|done].
    intros [= <- <-]. rewrite (reply_blocked choice' ch _ rm') by done.
    rewrite reply_blocked by done. by rewrite Hblocks.
  - unfold synchronizeMessage_handle.
    destruct (replyBlocks sync rm) eqn:Hblocks; [|done].
    intros [= <- <-]. rewrite (reply_blocked choice' sync _ rm) by done.
    rewrite reply_blocked by done. by rewrite Hblocks.
  - unfold responseDataRequest_handle.
    destruct (replyBlocks ch rm) eqn:Hblocks; [|done].
    intros [= <- <-]. rewrite (reply_blocked choice' ch _ rm) by done.
    rewrite reply_blocked by done. by rewrite Hblocks.
Qed.

Lemma run_in_order turns : ∀ rm,
  ctxDone rm = false →
  ∃ n,
    (∀ i m, (i < n)%nat → messages rm !! i = Some m →
            blockedOn m (called_in turns i rm) = None) ∧
    match (run turns rm).2 with
    | Handled =>
        n = length turns ∧ (n ≤ length (messages rm))%nat ∧
        (run turns rm).1 = handled_upto turns n rm
    | Waiting =>
        n = length (messages rm) ∧ (n < length turns)%nat ∧
        (run turns rm).1 = handled_upto turns n rm
    | Stuck c v =>
        (n < length turns)%nat ∧
        (∃ m, messages rm !! n = Some m ∧
              blockedOn m (called_in turns n rm) = Some (c, v)) ∧
        (run turns rm).1 = handled_upto turns (S n) rm ∧
        ∀ choice, run_resume choice c v (run turns rm).1 =
                    ((run turns rm).1, Stuck c v)
    | Exited => False
    end.
Proof.
  induction turns as [|[choice choice'] turns IH]; intros rm Hctx.
  { exists 0%nat. split; [intros i m Hi; lia|]. cbn.
    split; [done|]. split; [lia|]. by rewrite handled_upto_0. }
  destruct (messages rm) as [|m ms] eqn:Hms.
  { exists 0%nat. split; [intros i m Hi; lia|].
    cbn [run]. unfold run_step. rewrite Hctx, Hms. cbn.
    split; [done|]. split; [lia|]. by rewrite handled_upto_0. }
  cbn [run]. rewrite (run_step_live _ _ m ms) by done.
  destruct (blockedOn m (set_messages ms rm)) as [[c v]|] eqn:Hblocked.
  { exists 0%nat. split; [intros i m' Hi; lia|]. cbn [fst snd length].
    split; [lia|]. split; [|split].
    - exists m. split; [done|]. by rewrite (called_in_0 _ m ms).
    - rewrite (handled_upto_S _ _ _ _ m ms) by done.
      by rewrite handled_upto_0.
    - intros choice2. rewrite <- handle_set_messages.
      by apply blockedOn_stays. }
  set (rm1 := set_messages ms (handle choice' m rm)).
  destruct (IH rm1) as (n & Hreturned & Houtcome).
  { subst rm1. cbn. by rewrite handle_ctxDone. }
  exists (S n). split.
  { intros [|i] m' Hi Hm'.
    - cbn in Hm'. injection Hm' as <-. by rewrite (called_in_0 _ m ms).
    - rewrite (called_in_S _ _ _ _ m ms) by done.
      apply Hreturned; [lia|]. exact Hm'. }
  assert (messages rm1 = ms) as Hms1 by done.
  rewrite Hms1 in Houtcome.
  destruct (run turns rm1) as [rm2 [| | |c v]]; cbn [fst snd length] in *.
  - destruct Houtcome as (-> & Hlt & ->). split; [done|]. split; [lia|].
    by rewrite (handled_upto_S _ _ _ _ m ms).
  - done.
  - destruct Houtcome as (-> & Hle & ->). split; [done|]. split; [lia|].
    by rewrite (handled_upto_S _ _ _ _ m ms).
  - destruct Houtcome as (Hlt & (m' & Hm' & Hblocks) & -> & Hstays).
    split; [lia|]. split; [|split].
    + exists m'. split; [exact Hm'|].
      by rewrite (called_in_S _ _ _ _ m ms).
    + by rewrite (handled_upto_S _ _ _ (S n) m ms).
    + exact Hstays.
Qed.

(** X6.  While its context is live, run takes the buffered messages in the
    order they arrived, one per turn, and hands each to its handler.  It
    goes on for as long as the handlers return: after n of them the first
    n messages have been handled in order, each once, and the rest is
    still buffered; it then has used up its turns, or waits with nothing
    buffered.  At the first handler that blocks in its select the loop is
    stuck: that message was taken and its handler has done its work up to
    the select, no later message is handled, and the loop stays stuck for
    as long as nothing else changes.  The loop does not return while its
    context is live. *)
Theorem run_handles_messages_in_order turns rm :
  ctxDone rm = false →
  ∃ n,
    (∀ i m, (i < n)%nat → messages rm !! i = Some m →
            blockedOn m (called_in turns i rm) = None) ∧
    match (run turns rm).2 with
    | Handled =>
        n = length turns ∧ (n ≤ length (messages rm))%nat ∧
        (run turns rm).1 = handled_upto turns n rm
    | Waiting =>
        n = length (messages rm) ∧ (n < length turns)%nat ∧
        (run turns rm).1 = handled_upto turns n rm
    | Stuck c v =>
        (n < length turns)%nat ∧
        (∃ m, messages rm !! n = Some m ∧
              blockedOn m (called_in turns n rm) = Some (c, v)) ∧
        (run turns rm).1 = handled_upto turns (S n) rm ∧
        ∀ choice, run_resume choice c v (run turns rm).1 =
                    ((run turns rm).1, Stuck c v)
    | Exited => False
    end.
Proof. intros Hctx. by apply run_in_order. Qed.

Lemma NoDup_table_contexts rm :
  inv rm → NoDup (ctx <$> (map_to_list (inProgressResponses rm)).*2).
Proof.
  intros (_ & _ & Hdistinct). rewrite <- list_fmap_compose.
  apply NoDup_fmap_2_strong; [|apply NoDup_map_to_list].
  intros [key1 response1] [key2 response2]
    Hin1%elem_of_map_to_list Hin2%elem_of_map_to_list Heq. cbn in Heq.
  pose proof (Hdistinct _ _ _ _ Hin1 Hin2 Heq) as ->. congruence.
Qed.

(** X7.  When run finds its context cancelled and nothing buffered, it
    returns, and the cleanup it deferred calls the cancelFn of every entry
    of the table exactly once and of nothing else; the table itself is left
    as it is. *)
Theorem run_exit_cancels_every_entry_once choice choice' rm :
  inv rm → ctxDone rm = true → messages rm = [] →
  let exited := run_step choice choice' rm in
  exited.2 = Exited ∧
  inProgressResponses exited.1 = inProgressResponses rm ∧
  (∀ key response,
     inProgressResponses rm !! key = Some response →
     count_occ Nat.eq_dec (cancelCalls exited.1) (ctx response) =
     S (count_occ Nat.eq_dec (cancelCalls rm) (ctx response))) ∧
  (∀ c, orphan c rm →
     count_occ Nat.eq_dec (cancelCalls exited.1) c =
     count_occ Nat.eq_dec (cancelCalls rm) c).
Proof.
  intros Hinv Hctx Hms exited. subst exited. unfold run_step.
  rewrite Hctx, Hms. cbn [head].
  rewrite bool_decide_eq_false_2 by (intros Hne; by apply Hne).
  rewrite select_first_only. cbn [fst snd].
  unfold cleanupInProcessResponses. cbn [cancelCalls inProgressResponses
    set_cancelCalls].
  split; [done|]. split; [done|]. split.
  - intros key response Hkey. rewrite count_occ_app.
    rewrite (proj1 (NoDup_count_occ' Nat.eq_dec _)
               (proj1 (NoDup_ListNoDup _) (NoDup_table_contexts rm Hinv))
               (ctx response)); [lia|].
    apply list_elem_of_In, list_elem_of_fmap. exists response. split; [done|].
    apply list_elem_of_fmap. exists (key, response). split; [done|].
    by apply elem_of_map_to_list.
  - intros c Horphan. apply count_occ_app_others.
    intros c' (response & -> & Hin)%list_elem_of_fmap.
    apply list_elem_of_fmap in Hin as ([key response'] & Heq & Hin).
    cbn in Heq. subst response'. apply elem_of_map_to_list in Hin.
    by apply (Horphan key).
Qed.

End LoopProofs.

Lemma run_handles_messages_in_order_witness :
  (run [(0, 0); (1, 0)]%nat rm_buffered =
     (handled_upto [(0, 0); (1, 0)]%nat 2 rm_buffered,
      ResponseManager.Handled) ∧
   handled_upto [(0, 0); (1, 0)]%nat 2 rm_buffered = rm1_done) ∧
  ((run [(0, 0); (0, 0)]%nat rm_barrier).2 =
     ResponseManager.Stuck 3 ResponseManager.VUnit ∧
   (run [(0, 0); (0, 0)]%nat rm_barrier).1 =
     handled_upto [(0, 0); (0, 0)]%nat 1 rm_barrier ∧
   ResponseManager.messages (run [(0, 0); (0, 0)]%nat rm_barrier).1 =
     [ResponseManager.processRequestMessage "P" [request1]] ∧
   ResponseManager.inProgressResponses
     (run [(0, 0); (0, 0)]%nat rm_barrier).1 = ∅).
Proof.
  split.
  - destruct (run_handles_messages_in_order [(0, 0); (1, 0)]%nat rm_buffered
                eq_refl) as (n & _ & Houtcome).
    assert ((run [(0, 0); (1, 0)]%nat rm_buffered).2 =
            ResponseManager.Handled) as Hrun2 by reflexivity.
    rewrite Hrun2 in Houtcome. destruct Houtcome as (-> & _ & Hstate).
    split; [|reflexivity].
    destruct (run [(0, 0); (1, 0)]%nat rm_buffered) as [st outcome].
    cbn [fst snd] in *. by subst.
  - destruct (run_handles_messages_in_order [(0, 0); (0, 0)]%nat rm_barrier
                eq_refl) as (n & _ & Houtcome).
    assert ((run [(0, 0); (0, 0)]%nat rm_barrier).2 =
            ResponseManager.Stuck 3 ResponseManager.VUnit) as Hrun2
      by reflexivity.
    rewrite Hrun2 in Houtcome.
    destruct Houtcome as (_ & (m & Hm & _) & Hstate & _).
    destruct n as [|[|n]]; [|done..].
    split; [exact Hrun2|]. split; [exact Hstate|].
    rewrite Hstate. split; reflexivity.
Defined.

Lemma inv_rm1_shutdown : inv rm1_shutdown.
Proof.
  apply (inv_handle 0
           (ResponseManager.finishTaskRequest ("P", 1) (Some ErrPaused)) rm1).
  apply inv_rm1.
Qed.

Lemma run_exit_cancels_every_entry_once_witness :
  (ResponseManager.run_step 0 0 rm1_shutdown).2 = ResponseManager.Exited ∧
  count_occ Nat.eq_dec
    (ResponseManager.cancelCalls (ResponseManager.run_step 0 0 rm1_shutdown).1) 0%nat = 1%nat.
Proof.
  destruct (run_exit_cancels_every_entry_once 0 0 rm1_shutdown
              inv_rm1_shutdown eq_refl eq_refl) as (Hexit & _ & Hentry & _).
  split; [exact Hexit|].
  exact (Hentry ("P", 1)
           (ResponseManager.set_isPaused true
              {| ResponseManager.ctx := 0%nat;
                 ResponseManager.request := request1;
                 ResponseManager.loader := None;
                 ResponseManager.traverser := None;
                 ResponseManager.isPaused := false |})
           rm1_paused_lookup).
Defined.

(** ** Calls from other goroutines, together with the loop *)

Section CallProofs.
Import ResponseManager.
Context `{QueryQueue Q}.
Implicit Types rm : ResponseManager (Q := Q).

Lemma unpauseRequest_set_chans cs p requestID rm :
  unpauseRequest p requestID (set_chans cs rm) =
  (set_chans cs (unpauseRequest p requestID rm).1,
   (unpauseRequest p requestID rm).2).
Proof.
  unfold unpauseRequest. cbn.
  destruct (inProgressResponses rm !! (p, requestID)) as [response|];
    [destruct (negb (isPaused response))|]; done.
Qed.

(* unpauseRequest touches the table, the queue and workSignal only *)
Lemma unpauseRequest_frame p requestID rm :
  let rm' := (unpauseRequest p requestID rm).1 in
  ctxDone rm' = ctxDone rm ∧ messages rm' = messages rm ∧
  chans rm' = chans rm.
Proof.
  unfold unpauseRequest.
  destruct (inProgressResponses rm !! (p, requestID)) as [response|];
    [destruct (negb (isPaused response))|]; done.
Qed.

Lemma blockedOn_unpause_ready p requestID response rm :
  replyBlocks response rm = false →
  blockedOn (unpauseRequestMessage p requestID response) rm = None.
Proof.
  intros Hready. cbn [blockedOn].
  pose proof (unpauseRequest_replyBlocks response p requestID rm) as Hsame.
  destruct (unpauseRequest p requestID rm) as [rm' err]. cbn [fst] in Hsame.
  by rewrite Hsame, Hready.
Qed.

Lemma UnpauseResponse_send_live choice p requestID response rm :
  ctxDone rm = false → (length (messages rm) < messagesCap)%nat →
  UnpauseResponse_send choice p requestID response rm =
    (set_messages
       (messages rm ++ [unpauseRequestMessage p requestID response])
       (set_chans
          (<[response := {| chanCap := 1; chanBuf := []; chanRecv := false |}]>
             (chans rm)) rm),
     Sent).
Proof.
  intros Hctx Hlen. unfold UnpauseResponse_send.
  cbn [ctxDone messages set_chans]. rewrite Hctx.
  rewrite bool_decide_eq_true_2 by done.
  by rewrite select_second_only.
Qed.

(** X8.  UnpauseResponse on a manager whose context is live and whose
    buffer is empty: the message is sent, the next turn of run handles it,
    and the caller receives exactly the error unpauseRequest returns (nil
    when the response was paused); the manager is left as unpauseRequest
    leaves it, whatever the selects pick. *)
Theorem UnpauseResponse_round_trip choice1 choice2 choice3 choice4
    p requestID response rm :
  ctxDone rm = false → messages rm = [] →
  let sent := UnpauseResponse_send choice1 p requestID response rm in
  let handled := run_step choice2 choice3 sent.1 in
  let received := UnpauseResponse_receive choice4 response handled.1 in
  let unpaused := unpauseRequest p requestID rm in
  sent.2 = Sent ∧ handled.2 = Handled ∧
  received.2 = Returned unpaused.2 ∧
  received.1 =
    set_chans
      (<[response := {| chanCap := 1; chanBuf := []; chanRecv := false |}]>
         (chans rm)) unpaused.1.
Proof.
  intros Hctx Hms sent handled received unpaused.
  subst sent handled received unpaused.
  rewrite UnpauseResponse_send_live
    by (rewrite ?Hms; try done; cbn; unfold messagesCap; lia).
  rewrite Hms. cbn [fst snd app].
  erewrite run_step_live by (cbn; done).
  rewrite !blockedOn_set_messages.
  rewrite blockedOn_unpause_ready
    by (unfold replyBlocks; cbn [chans set_chans ctxDone];
        by rewrite lookup_insert_eq, Hctx).
  cbn [fst snd handle]. unfold unpauseRequestMessage_handle.
  rewrite unpauseRequest_set_messages, unpauseRequest_set_chans.
  destruct (unpauseRequest_frame p requestID rm) as (Hctx' & Hms' & Hchans').
  destruct (unpauseRequest p requestID rm) as [rm' err].
  cbn [fst snd] in *. rewrite Hctx in Hctx'. rewrite Hms in Hms'.
  unfold reply. cbn [chans set_chans set_messages ctxDone].
  rewrite lookup_insert_eq, Hctx'. cbn [default].
  change (sendReady _) with true. rewrite select_second_only.
  unfold UnpauseResponse_receive. cbn [chans set_chans set_messages ctxDone].
  rewrite lookup_insert_eq, Hctx'. cbn [default chanSend chanBuf app].
  change (recvReady _) with true. rewrite select_second_only.
  cbn.
  split; [done|]. split; [done|]. split; [done|].
  rewrite !insert_insert_eq.
  destruct rm'. cbn in *. by subst.
Qed.

Lemma handleRequest_table p request rm :
  inProgressResponses (handleRequest p request rm) =
  if negb (gsmsg.IsCancel request) then
    <[(p, gsmsg.ID request) :=
        {| ctx := nextCtx rm; request := request; loader := None;
           traverser := None; isPaused := false |}]> (inProgressResponses rm)
  else inProgressResponses rm.
Proof.
  unfold handleRequest. destruct (negb (gsmsg.IsCancel request)); [done|].
  cbn. by destruct (inProgressResponses rm !! (p, gsmsg.ID request)).
Qed.

Lemma batch_keeps_keys p requests : ∀ rm key,
  is_Some (inProgressResponses rm !! key) →
  is_Some (inProgressResponses (processRequestMessage_handle p requests rm)
             !! key).
Proof.
  unfold processRequestMessage_handle.
  induction requests as [|request requests IH]; intros rm key Hkey; [done|].
  cbn [foldl]. apply IH. rewrite handleRequest_table.
  destruct (negb (gsmsg.IsCancel request)); [|done].
  destruct (decide ((p, gsmsg.ID request) = key)) as [<-|Hne].
  - by rewrite lookup_insert_eq.
  - by rewrite lookup_insert_ne.
Qed.

Lemma batch_other_peer p requests : ∀ rm key,
  key.1 ≠ p →
  inProgressResponses (processRequestMessage_handle p requests rm) !! key =
  inProgressResponses rm !! key.
Proof.
  unfold processRequestMessage_handle.
  induction requests as [|request requests IH]; intros rm key Hkey; [done|].
  cbn [foldl]. rewrite IH by done. rewrite handleRequest_table.
  destruct (negb (gsmsg.IsCancel request)); [|done].
  apply lookup_insert_ne. intros <-. by apply Hkey.
Qed.

Lemma batch_fresh_kept p requests : ∀ rm key,
  fresh_entry key rm →
  fresh_entry key (processRequestMessage_handle p requests rm).
Proof.
  unfold processRequestMessage_handle.
  induction requests as [|request requests IH]; intros rm key Hkey; [done|].
  cbn [foldl]. apply IH. unfold fresh_entry. rewrite handleRequest_table.
  destruct (gsmsg.IsCancel request) eqn:Hcancel; cbn [negb]; [done|].
  destruct (decide ((p, gsmsg.ID request) = key)) as [<-|Hne].
  - rewrite lookup_insert_eq. eexists. split; [done|]. by cbn.
  - by rewrite lookup_insert_ne.
Qed.

Lemma batch_fresh p requests : ∀ rm request,
  request ∈ requests → gsmsg.IsCancel request = false →
  fresh_entry (p, gsmsg.ID request)
    (processRequestMessage_handle p requests rm).
Proof.
  induction requests as [|request' requests IH]; intros rm request Hin Hnew.
  - by apply elem_of_nil in Hin.
  - apply elem_of_cons in Hin as [->|Hin].
    + apply (batch_fresh_kept p requests (handleRequest p request' rm)).
      unfold fresh_entry. rewrite handleRequest_table, Hnew. cbn [negb].
      rewrite lookup_insert_eq. eexists. split; [done|]. by cbn.
    + by apply (IH (handleRequest p request' rm)).
Qed.

(** X9.  ProcessRequests on a manager whose context and whose caller's
    context are live and whose buffer is empty: the batch is sent, and the
    next turn of run leaves the manager as the handler of the batch leaves
    it.  After the batch every request of it that is not a cancel has an
    entry under (p, its id) that is not paused and has no loader and no
    traverser yet; no entry was removed (a cancel leaves the entry in the
    table); and the entries of other peers are as before. *)
Theorem ProcessRequests_batch choice1 choice2 choice3 p requests rm :
  ctxDone rm = false → messages rm = [] →
  let sent := ProcessRequests choice1 false p requests rm in
  let handled := run_step choice2 choice3 sent.1 in
  sent.2 = Sent ∧
  handled = (processRequestMessage_handle p requests rm, Handled) ∧
  (∀ request, request ∈ requests → gsmsg.IsCancel request = false →
     fresh_entry (p, gsmsg.ID request) handled.1) ∧
  (∀ key, is_Some (inProgressResponses rm !! key) →
          is_Some (inProgressResponses handled.1 !! key)) ∧
  (∀ key, key.1 ≠ p →
     inProgressResponses handled.1 !! key = inProgressResponses rm !! key).
Proof.
  intros Hctx Hms sent handled.
  assert (sent = (set_messages [processRequestMessage p requests] rm, Sent))
    as Hsent.
  { subst sent. unfold ProcessRequests. rewrite Hctx, Hms.
    rewrite bool_decide_eq_true_2 by (cbn; unfold messagesCap; lia).
    unfold select. by cbn. }
  assert (handled = (processRequestMessage_handle p requests rm, Handled))
    as Hhandled.
  { subst handled. rewrite Hsent. cbn [fst].
    erewrite run_step_live by (cbn; done).
    rewrite handle_set_messages. cbn [handle]. f_equal.
    pose proof (handle_messages 0 (processRequestMessage p requests) rm)
      as Hms'.
    cbn [handle] in Hms'. rewrite Hms in Hms'.
    destruct (processRequestMessage_handle p requests rm).
    cbn in *. by subst. }
  rewrite Hhandled, Hsent. cbn [fst snd].
  split; [done|]. split; [done|]. split; [|split].
  - intros request. apply batch_fresh.
  - intros key. apply batch_keeps_keys.
  - intros key. apply batch_other_peer.
Qed.

End CallProofs.

Lemma UnpauseResponse_round_trip_witness :
  (ResponseManager.UnpauseResponse_receive 0 7
     (ResponseManager.run_step 0 0
        (ResponseManager.UnpauseResponse_send 0 "P" 1 7 rm1_paused).1).1).2 =
  ResponseManager.Returned None.
Proof.
  destruct (UnpauseResponse_round_trip 0 0 0 0 "P" 1 7%nat rm1_paused
              eq_refl eq_refl) as (_ & _ & Hreturned & _).
  exact Hreturned.
Defined.

Lemma ProcessRequests_batch_witness :
  fresh_entry ("P", 2)
    (ResponseManager.run_step 0 0
       (ProcessRequests 0 false "P" [request1; request2; cancel1]
          (ResponseManager.New ([] : list queueCall))).1).1 ∧
  is_Some
    (ResponseManager.inProgressResponses
       (ResponseManager.run_step 0 0
          (ProcessRequests 0 false "P" [cancel1] rm1).1).1 !! ("P", 1)).
Proof.
  destruct (ProcessRequests_batch 0 0 0 "P" [request1; request2; cancel1]
              (ResponseManager.New ([] : list queueCall)) eq_refl eq_refl)
    as (_ & _ & Hfresh & _).
  destruct (ProcessRequests_batch 0 0 0 "P" [cancel1] rm1 eq_refl eq_refl)
    as (_ & _ & _ & Hkept & _).
  split.
  - apply (Hfresh request2); [|done].
    apply elem_of_cons. right. apply elem_of_cons. by left.
  - apply Hkept. by eexists.
Defined.

(** ** Terminal calls of the executor *)

Lemma finishCalls_app t1 t2 :
  finishCalls (t1 ++ t2) = (finishCalls t1 + finishCalls t2)%nat.
Proof. unfold finishCalls. by rewrite List.filter_app, length_app. Qed.

Lemma finishCalls_link evs :
  forallb isLinkCall evs = true → finishCalls evs = 0%nat.
Proof.
  induction evs as [|e evs IH]; [done|]. cbn [forallb].
  intros [He Hevs]%andb_true_iff. unfold finishCalls in *. cbn [List.filter].
  destruct e; try done; by apply IH.
Qed.

Lemma finishCalls_one e : isFinishCall e = true → finishCalls [e] = 1%nat.
Proof. intros He. unfold finishCalls. cbn. by rewrite He. Qed.

Lemma isPollCall_isLinkCall calls :
  forallb isPollCall calls = true → forallb isLinkCall calls = true.
Proof.
  induction calls as [|e calls IH]; [done|]. cbn.
  intros [He Hrest]%andb_true_iff. rewrite (IH Hrest). by destruct e.
Qed.

Lemma forallb_isLinkCall_extensions p id
    (extensions : list graphsync.ExtensionData) :
  forallb isLinkCall (Ev.SendExtensionData p id <$> extensions) = true.
Proof. induction extensions as [|e l IH]; [done|]. exact IH. Qed.

Section FinishProofs.
Context (env : Env).

(* what sendBlock adds to the trace are calls of a link *)
Lemma QueryExecutor_sendBlock_link p request lnk data
    (w0 w : QueryExecutor.executor) :
  (∃ evs, QueryExecutor.trace w = QueryExecutor.trace w0 ++ evs ∧
          forallb isLinkCall evs = true) →
  ∃ evs,
    QueryExecutor.trace (QueryExecutor.sendBlock env p request lnk data w).1 =
      QueryExecutor.trace w0 ++ evs ∧
    forallb isLinkCall evs = true.
Proof.
  intros (evs0 & Hw & Hevs0).
  destruct (QueryExecutor.checkForUpdates env p request
              (QueryExecutor.call_
                 (Ev.TransactionBegin p (gsmsg.ID request)) w))
    as [w1 err] eqn:Hpoll.
  rewrite (QueryExecutor_sendBlock_eq env p request lnk data w w1 err Hpoll).
  destruct (checkForUpdates_loop_spec env _ _ _ _ _ _ Hpoll)
    as (evs & Htrace & Hevs%isPollCall_isLinkCall & _).
  cbn in Htrace. rewrite Hw, <- !app_assoc in Htrace.
  destruct (negb (isErrPaused err) && bool_decide (err ≠ None)).
  { eexists. cbn. rewrite Htrace, <- !app_assoc. split; [done|].
    rewrite !forallb_app, Hevs0, Hevs. done. }
  cbv zeta. destruct (bool_decide (graphsync.BlockSize _ > 0)).
  - eexists. cbn. rewrite Htrace, <- !app_assoc. split; [done|].
    rewrite !forallb_app, Hevs0, Hevs. cbn.
    rewrite !forallb_app, forallb_isLinkCall_extensions.
    by destruct (isErrPaused _).
  - eexists. cbn. rewrite Htrace, <- !app_assoc. split; [done|].
    rewrite !forallb_app, Hevs0, Hevs. done.
Qed.

Lemma ResponseManager_sendBlock_link p request lnk data
    (w0 w : ResponseManager.worker) :
  (∃ evs, ResponseManager.w_trace w = ResponseManager.w_trace w0 ++ evs ∧
          forallb isLinkCall evs = true) →
  ∃ evs,
    ResponseManager.w_trace
      (ResponseManager.sendBlock env p request lnk data w).1 =
      ResponseManager.w_trace w0 ++ evs ∧
    forallb isLinkCall evs = true.
Proof.
  intros (evs0 & Hw & Hevs0). unfold ResponseManager.sendBlock. cbv zeta.
  destruct (bool_decide (graphsync.BlockSize _ > 0)).
  - eexists. cbn. rewrite Hw, <- !app_assoc. split; [done|].
    rewrite !forallb_app, Hevs0. cbn. apply forallb_isLinkCall_extensions.
  - eexists. cbn. rewrite Hw, <- !app_assoc. split; [done|].
    by rewrite !forallb_app, Hevs0.
Qed.

Lemma QueryExecutor_RunTraversal_link p request loader traverser
    (w : QueryExecutor.executor) :
  ∃ evs,
    QueryExecutor.trace
      (RunTraversal loader traverser (QueryExecutor.sendBlock env p request)
         w).1.1 = QueryExecutor.trace w ++ evs ∧
    forallb isLinkCall evs = true.
Proof.
  apply (RunTraversal_invariant
    (λ w', ∃ evs, QueryExecutor.trace w' = QueryExecutor.trace w ++ evs ∧
                  forallb isLinkCall evs = true)).
  - intros lnk data w'. apply QueryExecutor_sendBlock_link.
  - exists []. by rewrite app_nil_r.
Qed.

Lemma ResponseManager_RunTraversal_link p request loader traverser
    (w : ResponseManager.worker) :
  ∃ evs,
    ResponseManager.w_trace
      (RunTraversal loader traverser (ResponseManager.sendBlock env p request)
         w).1.1 = ResponseManager.w_trace w ++ evs ∧
    forallb isLinkCall evs = true.
Proof.
  apply (RunTraversal_invariant
    (λ w', ∃ evs, ResponseManager.w_trace w' =
                    ResponseManager.w_trace w ++ evs ∧
                  forallb isLinkCall evs = true)).
  - intros lnk data w'. apply ResponseManager_sendBlock_link.
  - exists []. by rewrite app_nil_r.
Qed.

(* executeQuery of the executor: the calls of the links, then the terminal
   call, if any *)
Lemma QueryExecutor_executeQuery_calls p request loader traverser
    (w : QueryExecutor.executor) :
  let r := QueryExecutor.executeQuery env p request loader traverser w in
  ∃ evs, forallb isLinkCall evs = true ∧
    if isErrPaused r.2.2
    then QueryExecutor.trace r.1.1 = QueryExecutor.trace w ++ evs ∧
         r.2.1 = graphsync.RequestPaused
    else ∃ e, QueryExecutor.trace r.1.1 = QueryExecutor.trace w ++ evs ++ [e] ∧
              isFinishCall e = true ∧
              (r.2.2 = None → e = Ev.FinishRequest p (gsmsg.ID request)).
Proof.
  cbv zeta. unfold QueryExecutor.executeQuery.
  destruct (QueryExecutor_RunTraversal_link p request loader traverser w)
    as (evs & Htrace & Hevs).
  destruct (RunTraversal _ _ _ _) as [[w1 t1] [e|]]; cbn [fst snd] in Htrace;
    exists evs; (split; [done|]).
  - destruct (isErrPaused (Some e)) eqn:Hpaused.
    + cbn [fst snd]. by rewrite Hpaused.
    + destruct (QueryExecutor.isContextErr env e);
        [|destruct (bool_decide (e = errCancelledByCommand))];
        cbn [fst snd]; rewrite Hpaused; eexists;
        (split; [cbn; by rewrite Htrace, <- app_assoc | by split]).
  - cbn [fst snd isErrPaused]. eexists.
    split; [cbn; by rewrite Htrace, <- app_assoc | by split].
Qed.

Lemma ResponseManager_executeQuery_calls p request loader traverser
    (w : ResponseManager.worker) :
  let r := ResponseManager.executeQuery env p request loader traverser w in
  ∃ evs, forallb isLinkCall evs = true ∧
    if isErrPaused r.2
    then ResponseManager.w_trace r.1.1 = ResponseManager.w_trace w ++ evs
    else ∃ e, ResponseManager.w_trace r.1.1 =
                ResponseManager.w_trace w ++ evs ++ [e] ∧
              isFinishCall e = true ∧
              (r.2 = None → e = Ev.FinishRequest p (gsmsg.ID request)).
Proof.
  cbv zeta. unfold ResponseManager.executeQuery.
  destruct (ResponseManager_RunTraversal_link p request loader traverser w)
    as (evs & Htrace & Hevs).
  destruct (RunTraversal _ _ _ _) as [[w1 t1] [e|]]; cbn [fst snd] in Htrace;
    exists evs; (split; [done|]).
  - destruct (decide (e = ErrPaused)) as [->|Hne].
    + rewrite bool_decide_eq_false_2 by (intros Hne; by apply Hne). done.
    + rewrite bool_decide_eq_true_2 by done. cbn [fst snd].
      assert (isErrPaused (Some e) = false) as -> by (by destruct e).
      eexists. split; [cbn; by rewrite Htrace, <- app_assoc | by split].
  - cbn [fst snd isErrPaused]. eexists.
    split; [cbn; by rewrite Htrace, <- app_assoc | by split].
Qed.

(** X10.  Both executeQuery make the terminal call on the sender themselves:
    when the traversal ends with ErrPaused they make none (and the executor
    reports RequestPaused); in every other case they make exactly one, and
    it is the last call they make, after the calls of all the links; when
    they return no error that call is FinishRequest. *)
Theorem executeQuery_one_terminal_call p request loader traverser :
  (∀ w : QueryExecutor.executor,
     let r := QueryExecutor.executeQuery env p request loader traverser w in
     finishCalls (QueryExecutor.trace r.1.1) =
       (finishCalls (QueryExecutor.trace w) +
        if isErrPaused r.2.2 then 0 else 1)%nat ∧
     (isErrPaused r.2.2 = true → r.2.1 = graphsync.RequestPaused) ∧
     (isErrPaused r.2.2 = false →
        ∃ t e, QueryExecutor.trace r.1.1 = t ++ [e] ∧ isFinishCall e = true ∧
               (r.2.2 = None → e = Ev.FinishRequest p (gsmsg.ID request)))) ∧
  (∀ w : ResponseManager.worker,
     let r := ResponseManager.executeQuery env p request loader traverser w in
     finishCalls (ResponseManager.w_trace r.1.1) =
       (finishCalls (ResponseManager.w_trace w) +
        if isErrPaused r.2 then 0 else 1)%nat ∧
     (isErrPaused r.2 = false →
        ∃ t e, ResponseManager.w_trace r.1.1 = t ++ [e] ∧
               isFinishCall e = true ∧
               (r.2 = None → e = Ev.FinishRequest p (gsmsg.ID request)))).
Proof.
  split; intros w r.
  - destruct (QueryExecutor_executeQuery_calls p request loader traverser w)
      as (evs & Hevs & Hcalls).
    fold r in Hcalls. destruct (isErrPaused r.2.2).
    + destruct Hcalls as [-> Hstatus].
      rewrite finishCalls_app, (finishCalls_link _ Hevs).
      split; [lia|]. by split.
    + destruct Hcalls as (e & -> & He & Hnil).
      rewrite !finishCalls_app, (finishCalls_link _ Hevs).
      rewrite (finishCalls_one _ He).
      split; [lia|]. split; [done|]. intros _.
      exists (QueryExecutor.trace w ++ evs), e. by rewrite <- app_assoc.
  - destruct (ResponseManager_executeQuery_calls p request loader traverser w)
      as (evs & Hevs & Hcalls).
    fold r in Hcalls. destruct (isErrPaused r.2).
    + rewrite Hcalls, finishCalls_app, (finishCalls_link _ Hevs).
      split; [lia|done].
    + destruct Hcalls as (e & -> & He & Hnil).
      rewrite !finishCalls_app, (finishCalls_link _ Hevs).
      rewrite (finishCalls_one _ He).
      split; [lia|]. intros _.
      exists (ResponseManager.w_trace w ++ evs), e. by rewrite <- app_assoc.
Qed.

End FinishProofs.

(** ** prepareQuery of the executor *)

Lemma forallb_extensions (f : Ev.Event → bool) p id
    (extensions : list graphsync.ExtensionData) :
  (∀ extension, f (Ev.SendExtensionData p id extension) = true) →
  forallb f (Ev.SendExtensionData p id <$> extensions) = true.
Proof.
  intros Hf. induction extensions as [|e l IH]; [done|].
  cbn. by rewrite Hf, IH.
Qed.

Lemma finishCalls_extensions p id
    (extensions : list graphsync.ExtensionData) :
  finishCalls (Ev.SendExtensionData p id <$> extensions) = 0%nat.
Proof. induction extensions as [|e l IH]; [done|]. exact IH. Qed.

Lemma finishCalls_cons e t :
  finishCalls (e :: t) =
  ((if isFinishCall e then 1 else 0) + finishCalls t)%nat.
Proof. unfold finishCalls. cbn. by destruct (isFinishCall e). Qed.

Lemma finishCalls_nil : finishCalls [] = 0%nat.
Proof. done. Qed.

Ltac trace_facts :=
  cbn [forallb]; rewrite ?forallb_app; cbn [forallb];
  rewrite ?forallb_extensions by done;
  rewrite ?finishCalls_cons, ?finishCalls_app, ?finishCalls_cons,
    ?finishCalls_extensions, ?finishCalls_nil;
  cbn [isFinishCall isRequestHooksCall isTraversalStart negb andb].

Ltac failed_with_finish :=
  match goal with
  | |- ∃ evs, _ ++ ?e1 :: ?e2 :: ?l ++ ?rest = _ ∧ _ =>
      exists (e1 :: e2 :: l ++ removelast rest)
  end; cbn [removelast];
  split; [cbn [app]; by rewrite <- !app_assoc|];
  trace_facts.

Section PrepareQueryProofs.
Context (env : Env).

(* what prepareQuery of the executor calls, by its result *)
Lemma QueryExecutor_prepareQuery_calls ctx p request (w : QueryExecutor.executor) :
  let id := gsmsg.ID request in
  let result := ProcessRequestHooks env (QueryExecutor.trace w) p request in
  let r := QueryExecutor.prepareQuery env ctx p request w in
  ∃ evs,
    QueryExecutor.trace r.1 =
      QueryExecutor.trace w ++ Ev.ProcessRequestHooks p request :: evs ∧
    forallb (λ e, negb (isRequestHooksCall e)) evs = true ∧
    match r.2 with
    | inl (loader, traverser, isPaused) =>
        hooks.Err result = None ∧ hooks.IsValidated result = true ∧
        isPaused = hooks.IsPaused result ∧
        loader = default (default_loader env) (hooks.CustomLoader result) ∧
        traverser = Start env (gsmsg.Root request) (gsmsg.Selector request)
                      (hooks.CustomChooser result) ctx ∧
        finishCalls evs = 0%nat ∧
        ∃ evs', evs = evs' ++ [Ev.TraversalStart ctx (gsmsg.Root request)
                                 (gsmsg.Selector request)] ∧
                forallb (λ e, negb (isTraversalStart e)) evs' = true
    | inr err =>
        forallb (λ e, negb (isTraversalStart e)) evs = true ∧
        (finishCalls evs ≤ 1)%nat
    end.
Proof.
  cbv zeta. unfold QueryExecutor.prepareQuery, QueryExecutor.processDedupByKey,
    QueryExecutor.processDoNoSendCids.
  set (result := ProcessRequestHooks env (QueryExecutor.trace w) p request).
  destruct (bool_decide (hooks.Err result ≠ None) ||
            negb (hooks.IsValidated result)) eqn:Hrejected.
  { destruct (TransactionErr env _ p (gsmsg.ID request));
      eexists; cbn; rewrite <- !app_assoc; cbn [app];
      (split; [reflexivity|]); trace_facts; (split; [done|]);
      (split; [done|lia]). }
  apply orb_false_iff in Hrejected as [Herr Hvalid].
  apply bool_decide_eq_false_1 in Herr.
  assert (hooks.Err result = None) as Herr'
    by (destruct (hooks.Err result); [by destruct Herr|done]).
  apply negb_false_iff in Hvalid.
  destruct (hooks.IsPaused result) eqn:Hpaused;
    (destruct (TransactionErr env _ p (gsmsg.ID request));
     [eexists; cbn; rewrite <- !app_assoc; cbn [app];
      (split; [reflexivity|]); trace_facts; (split; [done|]);
      (split; [done|lia]) |]);
    (destruct (gsmsg.Extension request graphsync.ExtensionDeDupByKey)
       as [dedupData|];
     [destruct (DecodeDedupKey env dedupData) as [key|e];
      [|eexists; cbn; rewrite <- !app_assoc; cbn [app];
        (split; [reflexivity|]); trace_facts; (split; [done|]);
        (split; [done|lia])] |]);
    (destruct (gsmsg.Extension request graphsync.ExtensionDoNotSendCIDs)
       as [cidsData|];
     [destruct (DecodeCidSet env cidsData) as [links|e];
      [|eexists; cbn; rewrite <- !app_assoc; cbn [app];
        (split; [reflexivity|]); trace_facts; (split; [done|]);
        (split; [done|lia])] |]).
  all: eexists; cbn; rewrite <- !app_assoc; cbn [app];
    (split; [reflexivity|]); trace_facts; (split; [done|]).
  all: split; [done|]; split; [done|]; split; [done|].
  all: split; [by destruct (hooks.CustomLoader result)|].
  all: split; [done|]; split; [lia|].
  all: match goal with
       | |- ∃ evs', ?e :: ?l ++ ?rest = _ ∧ _ =>
           exists (e :: l ++ removelast rest)
       end; cbn [removelast]; split;
       [cbn [app]; by rewrite <- app_assoc | by trace_facts].
Qed.

(** X11.  prepareQuery of the executor runs the request hooks once, as its
    first call.  When it succeeds the hooks accepted the request, it reports
    the pause the hooks asked for, the loader is the one the hooks gave or
    else the one of the executor, the traverser is the one started on the
    root and selector of the request, it made no terminal call, and the
    start of the traversal is its last call and the only one.  When it
    fails no traversal was started and at most one terminal call was
    made. *)
Theorem prepareQuery_outcome ctx p request (w : QueryExecutor.executor) :
  let id := gsmsg.ID request in
  let result := ProcessRequestHooks env (QueryExecutor.trace w) p request in
  let r := QueryExecutor.prepareQuery env ctx p request w in
  ∃ evs,
    QueryExecutor.trace r.1 =
      QueryExecutor.trace w ++ Ev.ProcessRequestHooks p request :: evs ∧
    forallb (λ e, negb (isRequestHooksCall e)) evs = true ∧
    match r.2 with
    | inl (loader, traverser, isPaused) =>
        hooks.Err result = None ∧ hooks.IsValidated result = true ∧
        isPaused = hooks.IsPaused result ∧
        loader = default (default_loader env) (hooks.CustomLoader result) ∧
        traverser = Start env (gsmsg.Root request) (gsmsg.Selector request)
                      (hooks.CustomChooser result) ctx ∧
        finishCalls evs = 0%nat ∧
        ∃ evs', evs = evs' ++ [Ev.TraversalStart ctx (gsmsg.Root request)
                                 (gsmsg.Selector request)] ∧
                forallb (λ e, negb (isTraversalStart e)) evs' = true
    | inr err =>
        forallb (λ e, negb (isTraversalStart e)) evs = true ∧
        (finishCalls evs ≤ 1)%nat
    end.
Proof. apply QueryExecutor_prepareQuery_calls. Qed.

(** X12.  An extension payload that does not decode fails the request.
    Given that the hooks accepted the request and that Transaction returns
    no error: with an undecodable dedup-by-key payload prepareQuery returns
    the error of the decoder, whatever the other extension holds; with a
    dedup-by-key payload absent or decoded and an undecodable
    do-not-send-cids payload it returns the error of that decoder.  In both
    cases its last call is FinishWithError(RequestFailedUnknown), the only
    terminal call, and no traversal is started; in the first no DedupKey
    and no IgnoreBlocks call was made. *)
Theorem undecodable_extension_fails_the_request ctx p request
    (w : QueryExecutor.executor) :
  let id := gsmsg.ID request in
  let result := ProcessRequestHooks env (QueryExecutor.trace w) p request in
  let r := QueryExecutor.prepareQuery env ctx p request w in
  hooks.Err result = None → hooks.IsValidated result = true →
  (∀ t, TransactionErr env t p id = None) →
  (∀ dedupData e,
     gsmsg.Extension request graphsync.ExtensionDeDupByKey = Some dedupData →
     DecodeDedupKey env dedupData = inr e →
     r.2 = inr e ∧
     ∃ evs, QueryExecutor.trace r.1 =
              QueryExecutor.trace w ++ evs ++
              [Ev.FinishWithError p id graphsync.RequestFailedUnknown] ∧
            finishCalls evs = 0%nat ∧
            forallb (λ e, negb (isTraversalStart e)) evs = true ∧
            forallb (λ e, negb (isRequestExtensionCall e)) evs = true) ∧
  (∀ cidsData e,
     (∀ dedupData,
        gsmsg.Extension request graphsync.ExtensionDeDupByKey = Some dedupData →
        ∃ key, DecodeDedupKey env dedupData = inl key) →
     gsmsg.Extension request graphsync.ExtensionDoNotSendCIDs = Some cidsData →
     DecodeCidSet env cidsData = inr e →
     r.2 = inr e ∧
     ∃ evs, QueryExecutor.trace r.1 =
              QueryExecutor.trace w ++ evs ++
              [Ev.FinishWithError p id graphsync.RequestFailedUnknown] ∧
            finishCalls evs = 0%nat ∧
            forallb (λ e, negb (isTraversalStart e)) evs = true).
Proof.
  cbv zeta. intros Herr Hvalid Htransaction.
  unfold QueryExecutor.prepareQuery, QueryExecutor.processDedupByKey,
    QueryExecutor.processDoNoSendCids.
  rewrite Herr, Hvalid. rewrite bool_decide_eq_false_2 by (by intros []).
  cbn [orb negb]. split.
  - intros dedupData e Hext Hdecode.
    destruct (hooks.IsPaused _); rewrite Htransaction, Hext, Hdecode;
      (split; [done|]); cbn; rewrite <- !app_assoc; cbn [app];
      failed_with_finish;
      cbn [isRequestExtensionCall negb andb];
      rewrite ?forallb_app, ?forallb_extensions by done; done.
  - intros cidsData e Hdedup Hext Hdecode.
    destruct (hooks.IsPaused _); rewrite Htransaction;
      (destruct (gsmsg.Extension request graphsync.ExtensionDeDupByKey)
         as [dedupData|];
       [destruct (Hdedup dedupData eq_refl) as [key ->]|]);
      rewrite Hext, Hdecode;
      (split; [done|]); cbn; rewrite <- !app_assoc; cbn [app];
      failed_with_finish; done.
Qed.

End PrepareQueryProofs.

Lemma undecodable_extension_fails_the_request_witness :
  (QueryExecutor.prepareQuery env_undecodable 0 "P" request_extensions
     executor0).2 = inr (errorNew "invalid dedup key").
Proof.
  destruct (undecodable_extension_fails_the_request env_undecodable 0%nat "P"
              request_extensions executor0 eq_refl eq_refl (λ _, eq_refl))
    as [Hdedup _].
  destruct (Hdedup [Byte.x01] (errorNew "invalid dedup key") eq_refl eq_refl)
    as [Hresult _].
  exact Hresult.
Defined.

(** ** executeTask *)

Lemma select_second_ready {A} (c : nat) (b : bool) (x y : A) :
  select c [(b, x); (true, y)] ≠ None.
Proof.
  destruct b; [destruct (select_both c x y) as [-> | ->]
              |rewrite select_second_only]; done.
Qed.

Section ExecuteTaskProofs.
Context (env : Env).

Lemma ResponseManager_prepareQuery_calls ctx p request
    (w : ResponseManager.worker) :
  let r := ResponseManager.prepareQuery env ctx p request w in
  ∃ evs,
    ResponseManager.w_trace r.1 = ResponseManager.w_trace w ++ evs ∧
    ResponseManager.w_ctxDone r.1 = ResponseManager.w_ctxDone w ∧
    finishCalls evs = match r.2 with inl _ => 0%nat | inr _ => 1%nat end.
Proof.
  cbv zeta. unfold ResponseManager.prepareQuery.
  destruct (bool_decide _ || negb _);
    eexists; cbn; rewrite <- !app_assoc; cbn [app];
    (split; [reflexivity|]); (split; [done|]); by trace_facts.
Qed.

(* the part of executeTask of the executor after prepareQuery *)
Lemma QueryExecutor_executeTask_fresh key taskData
    (w : QueryExecutor.executor) :
  let r :=
    match QueryExecutor.prepareQuery env (QueryExecutor.ctx taskData) key.1
            (QueryExecutor.request taskData) w with
    | (w, inr err) => (w, (graphsync.RequestFailedUnknown, Some err))
    | (w, inl (loader, traverser, isPaused)) =>
        let '(c, w) := QueryExecutor.pick w in
        match select c [(QueryExecutor.ctxDone w, false); (true, true)] with
        | Some true =>
            let w := QueryExecutor.set_sent
              (QueryExecutor.sent w ++
               [QueryExecutor.setResponseDataRequest key loader traverser]) w in
            if isPaused then (w, (graphsync.RequestPaused, Some ErrPaused))
            else
              let '(w, _, r) :=
                QueryExecutor.executeQuery env key.1
                  (QueryExecutor.request taskData) loader traverser w
              in (w, r)
        | _ => (w, (graphsync.RequestFailedUnknown,
                    Some (errorNew "context cancelled")))
        end
    end in
  (finishCalls (QueryExecutor.trace r.1) ≤
     finishCalls (QueryExecutor.trace w) + 1)%nat ∧
  (r.2.2 = None →
   ∃ t, QueryExecutor.trace r.1 =
          t ++ [Ev.FinishRequest key.1
                  (gsmsg.ID (QueryExecutor.request taskData))]).
Proof.
  cbv zeta.
  destruct (QueryExecutor_prepareQuery_calls env
              (QueryExecutor.ctx taskData) key.1
              (QueryExecutor.request taskData) w) as (evs & Htrace & _ & Hr).
  destruct (QueryExecutor.prepareQuery _ _ _ _ _)
    as [w1 [[[loader traverser] isPaused]|err]]; cbn [fst snd] in *.
  - destruct Hr as (_ & _ & _ & _ & _ & Hfinish & _).
    assert (finishCalls (QueryExecutor.trace w1) =
            finishCalls (QueryExecutor.trace w)) as Hw1.
    { rewrite Htrace, finishCalls_app, finishCalls_cons, Hfinish. cbn. lia. }
    cbn -[select QueryExecutor.executeQuery finishCalls].
    destruct (select _ _) as [[]|];
      [|cbn [fst snd QueryExecutor.trace QueryExecutor.set_choices];
        rewrite Hw1; (split; [lia|done])..].
    destruct isPaused;
      [cbn [fst snd QueryExecutor.trace QueryExecutor.set_sent
            QueryExecutor.set_choices];
       rewrite Hw1; (split; [lia|done])|].
    set (w2 := QueryExecutor.set_sent _ _).
    destruct (QueryExecutor_executeQuery_calls env key.1
                (QueryExecutor.request taskData) loader traverser w2)
      as (evs2 & Hevs2 & Hcalls).
    destruct (QueryExecutor.executeQuery _ _ _ _ _ _) as [[w3 t3] [status err]].
    cbn [fst snd] in *.
    change (QueryExecutor.trace w2) with (QueryExecutor.trace w1) in Hcalls.
    destruct (isErrPaused err) eqn:Hpaused.
    + destruct Hcalls as [-> _].
      rewrite finishCalls_app, (finishCalls_link _ Hevs2), Hw1.
      split; [lia|]. intros ->. done.
    + destruct Hcalls as (e & -> & He & Hnil).
      rewrite !finishCalls_app, (finishCalls_link _ Hevs2),
        (finishCalls_one _ He), Hw1.
      split; [lia|]. intros ->. rewrite (Hnil eq_refl).
      eexists. by rewrite app_assoc.
  - destruct Hr as [_ Hfinish].
    rewrite Htrace, finishCalls_app, finishCalls_cons. cbn.
    split; [lia|done].
Qed.

(** X13.  executeTask of the executor makes at most one terminal call on
    the sender, whether the task is new or resumed; when it returns no
    error, its last call is FinishRequest for the request of the task. *)
Theorem executeTask_at_most_one_terminal_call key taskData
    (w : QueryExecutor.executor) :
  let r := QueryExecutor.executeTask env key taskData w in
  (finishCalls (QueryExecutor.trace r.1) ≤
     finishCalls (QueryExecutor.trace w) + 1)%nat ∧
  (r.2.2 = None →
   ∃ t, QueryExecutor.trace r.1 =
          t ++ [Ev.FinishRequest key.1
                  (gsmsg.ID (QueryExecutor.request taskData))]).
Proof.
  cbv zeta. unfold QueryExecutor.executeTask.
  destruct (QueryExecutor.loader taskData) as [loader|],
           (QueryExecutor.traverser taskData) as [traverser|];
    try apply QueryExecutor_executeTask_fresh.
  destruct (QueryExecutor_executeQuery_calls env key.1
              (QueryExecutor.request taskData) loader traverser w)
    as (evs & Hevs & Hcalls).
  destruct (QueryExecutor.executeQuery _ _ _ _ _ _) as [[w3 t3] [status err]].
  cbn [fst snd] in *.
  destruct (isErrPaused err) eqn:Hpaused.
  - destruct Hcalls as [-> _].
    rewrite finishCalls_app, (finishCalls_link _ Hevs).
    split; [lia|]. intros ->. done.
  - destruct Hcalls as (e & -> & He & Hnil).
    rewrite !finishCalls_app, (finishCalls_link _ Hevs),
      (finishCalls_one _ He).
    split; [lia|]. intros ->. rewrite (Hnil eq_refl).
    eexists. by rewrite app_assoc.
Qed.

Lemma ResponseManager_executeQuery_finish p request loader traverser
    (w : ResponseManager.worker) :
  let r := ResponseManager.executeQuery env p request loader traverser w in
  (finishCalls (ResponseManager.w_trace r.1.1) ≤
     finishCalls (ResponseManager.w_trace w) + 1)%nat ∧
  (r.2 = None →
   ∃ t, ResponseManager.w_trace r.1.1 =
          t ++ [Ev.FinishRequest p (gsmsg.ID request)]).
Proof.
  cbv zeta.
  destruct (ResponseManager_executeQuery_calls env p request loader traverser w)
    as (evs & Hevs & Hcalls).
  destruct (ResponseManager.executeQuery _ _ _ _ _ _) as [[w3 t3] err].
  cbn [fst snd] in *.
  destruct (isErrPaused err) eqn:Hpaused.
  - rewrite Hcalls, finishCalls_app, (finishCalls_link _ Hevs).
    split; [lia|]. intros ->. done.
  - destruct Hcalls as (e & -> & He & Hnil).
    rewrite !finishCalls_app, (finishCalls_link _ Hevs),
      (finishCalls_one _ He).
    split; [lia|]. intros ->. rewrite (Hnil eq_refl).
    eexists. by rewrite app_assoc.
Qed.

(** X14.  executeTask of the response manager, given the task data of an
    entry, does not panic and makes at most one terminal call on the
    sender.  When it returns no error, either its last call is FinishRequest
    for the request of the task, or the context of the manager was
    cancelled: it then returned from the select after prepareQuery without
    any terminal call. *)
Theorem ResponseManager_executeTask_terminal_calls key taskData
    (w : ResponseManager.worker) :
  match ResponseManager.executeTask env key (Some taskData) w with
  | ResponseManager.Panic => False
  | ResponseManager.Return w' err =>
      (finishCalls (ResponseManager.w_trace w') ≤
         finishCalls (ResponseManager.w_trace w) + 1)%nat ∧
      (err = None →
       (∃ t, ResponseManager.w_trace w' =
               t ++ [Ev.FinishRequest key.1
                       (gsmsg.ID (ResponseManager.td_request taskData))]) ∨
       (ResponseManager.w_ctxDone w = true ∧
        finishCalls (ResponseManager.w_trace w') =
          finishCalls (ResponseManager.w_trace w)))
  end.
Proof.
  assert (∀ loader traverser (w1 : ResponseManager.worker),
    finishCalls (ResponseManager.w_trace w1) =
      finishCalls (ResponseManager.w_trace w) →
    match
      (let '(w', _, err) :=
         ResponseManager.executeQuery env key.1
           (ResponseManager.td_request taskData) loader traverser w1
       in ResponseManager.Return w' err)
    with
    | ResponseManager.Panic => False
    | ResponseManager.Return w' err =>
        (finishCalls (ResponseManager.w_trace w') ≤
           finishCalls (ResponseManager.w_trace w) + 1)%nat ∧
        (err = None →
         (∃ t, ResponseManager.w_trace w' =
                 t ++ [Ev.FinishRequest key.1
                         (gsmsg.ID (ResponseManager.td_request taskData))]) ∨
         (ResponseManager.w_ctxDone w = true ∧
          finishCalls (ResponseManager.w_trace w') =
            finishCalls (ResponseManager.w_trace w)))
    end) as Hquery.
  { intros loader traverser w1 Hw1.
    destruct (ResponseManager_executeQuery_finish key.1
                (ResponseManager.td_request taskData) loader traverser w1)
      as [Hle Hnil].
    destruct (ResponseManager.executeQuery _ _ _ _ _ _) as [[w3 t3] err].
    cbn [fst snd] in *. rewrite Hw1 in Hle. split; [done|].
    intros ->. left. by apply Hnil. }
  assert (∀ w1 : ResponseManager.worker,
    match
      match ResponseManager.prepareQuery env
              (ResponseManager.td_ctx taskData) key.1
              (ResponseManager.td_request taskData) w with
      | (w, inr err) => ResponseManager.Return w (Some err)
      | (w, inl (loader, traverser)) =>
          let '(c, w) := ResponseManager.pick w in
          match select c [(ResponseManager.w_ctxDone w, false); (true, true)]
          with
          | Some true =>
              let w :=
                {| ResponseManager.w_trace := ResponseManager.w_trace w;
                   ResponseManager.w_ctxDone := ResponseManager.w_ctxDone w;
                   ResponseManager.w_choices := ResponseManager.w_choices w;
                   ResponseManager.w_sent := ResponseManager.w_sent w ++
                     [ResponseManager.setResponseDataRequest key (Some loader)
                        (Some traverser)] |} in
              let '(w, _, err) :=
                ResponseManager.executeQuery env key.1
                  (ResponseManager.td_request taskData) loader traverser w
              in ResponseManager.Return w err
          | _ => ResponseManager.Return w None
          end
      end
    with
    | ResponseManager.Panic => False
    | ResponseManager.Return w' err =>
        (finishCalls (ResponseManager.w_trace w') ≤
           finishCalls (ResponseManager.w_trace w) + 1)%nat ∧
        (err = None →
         (∃ t, ResponseManager.w_trace w' =
                 t ++ [Ev.FinishRequest key.1
                         (gsmsg.ID (ResponseManager.td_request taskData))]) ∨
         (ResponseManager.w_ctxDone w = true ∧
          finishCalls (ResponseManager.w_trace w') =
            finishCalls (ResponseManager.w_trace w)))
    end) as Hfresh.
  { intros _.
    destruct (ResponseManager_prepareQuery_calls
                (ResponseManager.td_ctx taskData) key.1
                (ResponseManager.td_request taskData) w)
      as (evs & Htrace & Hdone & Hfinish).
    destruct (ResponseManager.prepareQuery _ _ _ _ _)
      as [w1 [[loader traverser]|err]]; cbn [fst snd] in *.
    - assert (finishCalls (ResponseManager.w_trace w1) =
              finishCalls (ResponseManager.w_trace w)) as Hw1
        by (rewrite Htrace, finishCalls_app, Hfinish; lia).
      cbn -[select ResponseManager.executeQuery finishCalls].
      destruct (select _ _) as [[]|] eqn:Hselect.
      + by apply Hquery.
      + apply select_ready in Hselect as [Hcase | [Hcase | []]];
          [|discriminate].
        injection Hcase as Hcase. rewrite Hdone in Hcase.
        cbn [ResponseManager.w_trace]. rewrite Hw1.
        split; [lia|]. intros _. by right.
      + by apply select_second_ready in Hselect.
    - rewrite Htrace, finishCalls_app, Hfinish. split; [lia|done]. }
  unfold ResponseManager.executeTask.
  destruct (ResponseManager.td_loader taskData) as [loader|],
           (ResponseManager.td_traverser taskData) as [traverser|];
    try apply (Hfresh w).
  by apply Hquery.
Qed.

End ExecuteTaskProofs.

(** ** The stop signal *)

Section StopProofs.
Context (env : Env).








End StopProofs.


(** ** Request hooks and listeners over a task *)

Lemma forallb_impl {A} (f g : A → bool) (l : list A) :
  (∀ x, f x = true → g x = true) →
  forallb f l = true → forallb g l = true.
Proof.
  intros Hfg. induction l as [|x l IH]; [done|]. cbn.
  intros [Hx Hl]%andb_true_iff. by rewrite (Hfg x Hx), IH.
Qed.

Ltac prepared_only :=
  eexists; split; [eassumption|]; split; [eassumption|];
  eexists; split; [reflexivity|assumption].

Section TaskProofs.
Context (env : Env).

Lemma QueryExecutor_executeQuery_query_calls p request loader traverser
    (w : QueryExecutor.executor) :
  ∃ evs,
    QueryExecutor.trace
      (QueryExecutor.executeQuery env p request loader traverser w).1.1 =
      QueryExecutor.trace w ++ evs ∧
    forallb isQueryCall evs = true.
Proof.
  destruct (QueryExecutor_executeQuery_calls env p request loader traverser w)
    as (evs & Hevs & Hcalls).
  apply (forallb_impl isLinkCall isQueryCall) in Hevs;
    [|by intros e He; unfold isQueryCall; rewrite He].
  destruct (isErrPaused _).
  - destruct Hcalls as [-> _]. by exists evs.
  - destruct Hcalls as (e & -> & He & _). exists (evs ++ [e]).
    split; [done|]. rewrite forallb_app, Hevs. cbn.
    unfold isQueryCall. rewrite He. by rewrite orb_true_r.
Qed.

(* prepareQuery notifies no listener *)
Lemma QueryExecutor_prepareQuery_quiet ctx p request
    (w : QueryExecutor.executor) :
  QueryExecutor.ctxDone (QueryExecutor.prepareQuery env ctx p request w).1 =
    QueryExecutor.ctxDone w ∧
  ∃ evs,
    QueryExecutor.trace (QueryExecutor.prepareQuery env ctx p request w).1 =
      QueryExecutor.trace w ++ evs ∧
    forallb (λ e, negb (isListenerCall e)) evs = true.
Proof.
  unfold QueryExecutor.prepareQuery, QueryExecutor.processDedupByKey,
    QueryExecutor.processDoNoSendCids.
  destruct (bool_decide _ || negb _);
    [|destruct (hooks.IsPaused _)];
    (destruct (TransactionErr env _ p (gsmsg.ID request));
     [(split; [done|]); eexists; cbn; rewrite <- !app_assoc; cbn [app];
      (split; [reflexivity|]); cbn [forallb]; rewrite ?forallb_app;
      by rewrite ?forallb_extensions by done |]);
    try ((split; [done|]); eexists; cbn; rewrite <- !app_assoc; cbn [app];
         (split; [reflexivity|]); cbn [forallb]; rewrite ?forallb_app;
         by rewrite ?forallb_extensions by done);
    (destruct (gsmsg.Extension request graphsync.ExtensionDeDupByKey)
       as [dedupData|];
     [destruct (DecodeDedupKey env dedupData) as [key|e]|]);
    try ((split; [done|]); eexists; cbn; rewrite <- !app_assoc; cbn [app];
         (split; [reflexivity|]); cbn [forallb]; rewrite ?forallb_app;
         by rewrite ?forallb_extensions by done);
    (destruct (gsmsg.Extension request graphsync.ExtensionDoNotSendCIDs)
       as [cidsData|];
     [destruct (DecodeCidSet env cidsData) as [links|e]|]);
    (split; [done|]); eexists; cbn; rewrite <- !app_assoc; cbn [app];
    (split; [reflexivity|]); cbn [forallb]; rewrite ?forallb_app;
    by rewrite ?forallb_extensions by done.
Qed.

(* the calls of executeTask: a resumed task makes those of executeQuery
   only; a new one runs the request hooks first, and only then *)
Lemma QueryExecutor_executeTask_calls key taskData
    (w : QueryExecutor.executor) :
  let r := QueryExecutor.executeTask env key taskData w in
  ∃ evs,
    QueryExecutor.trace r.1 = QueryExecutor.trace w ++ evs ∧
    forallb (λ e, negb (isListenerCall e)) evs = true ∧
    match QueryExecutor.loader taskData, QueryExecutor.traverser taskData with
    | Some _, Some _ => forallb isQueryCall evs = true
    | _, _ =>
        ∃ evs', evs = Ev.ProcessRequestHooks key.1
                        (QueryExecutor.request taskData) :: evs' ∧
                forallb (λ e, negb (isRequestHooksCall e)) evs' = true
    end.
Proof.
  cbv zeta.
  assert (∀ e, isQueryCall e = true → negb (isListenerCall e) = true)
    as Hlistener by (by intros []).
  assert (∀ e, isQueryCall e = true → negb (isRequestHooksCall e) = true)
    as Hhooks by (by intros []).
  assert (∀ w1 : QueryExecutor.executor,
    let r :=
      match QueryExecutor.prepareQuery env (QueryExecutor.ctx taskData) key.1
              (QueryExecutor.request taskData) w with
      | (w, inr err) => (w, (graphsync.RequestFailedUnknown, Some err))
      | (w, inl (loader, traverser, isPaused)) =>
          let '(c, w) := QueryExecutor.pick w in
          match select c [(QueryExecutor.ctxDone w, false); (true, true)] with
          | Some true =>
              let w := QueryExecutor.set_sent
                (QueryExecutor.sent w ++
                 [QueryExecutor.setResponseDataRequest key loader traverser])
                w in
              if isPaused then (w, (graphsync.RequestPaused, Some ErrPaused))
              else
                let '(w, _, r) :=
                  QueryExecutor.executeQuery env key.1
                    (QueryExecutor.request taskData) loader traverser w
                in (w, r)
          | _ => (w, (graphsync.RequestFailedUnknown,
                      Some (errorNew "context cancelled")))
          end
      end in
    ∃ evs,
      QueryExecutor.trace r.1 = QueryExecutor.trace w ++ evs ∧
      forallb (λ e, negb (isListenerCall e)) evs = true ∧
      ∃ evs', evs = Ev.ProcessRequestHooks key.1
                      (QueryExecutor.request taskData) :: evs' ∧
              forallb (λ e, negb (isRequestHooksCall e)) evs' = true)
    as Hfresh.
  { intros _. cbv zeta.
    destruct (QueryExecutor_prepareQuery_calls env
                (QueryExecutor.ctx taskData) key.1
                (QueryExecutor.request taskData) w)
      as (evs & Htrace & Hevs & _).
    destruct (QueryExecutor_prepareQuery_quiet
                (QueryExecutor.ctx taskData) key.1
                (QueryExecutor.request taskData) w)
      as (_ & evs0 & Htrace0 & Hquiet).
    rewrite Htrace in Htrace0. apply app_inv_head in Htrace0. subst evs0.
    destruct (QueryExecutor.prepareQuery _ _ _ _ _)
      as [w1 [[[loader traverser] isPaused]|err]]; cbn [fst snd] in *;
      [|prepared_only].
    cbn -[select QueryExecutor.executeQuery].
    destruct (select _ _) as [[]|];
      [|cbn [fst snd QueryExecutor.trace QueryExecutor.set_choices];
        prepared_only..].
    destruct isPaused;
      [cbn [fst snd QueryExecutor.trace QueryExecutor.set_sent
            QueryExecutor.set_choices]; prepared_only|].
    set (w2 := QueryExecutor.set_sent _ _).
    destruct (QueryExecutor_executeQuery_query_calls key.1
                (QueryExecutor.request taskData) loader traverser w2)
      as (evs2 & Htrace2 & Hevs2).
    destruct (QueryExecutor.executeQuery _ _ _ _ _ _) as [[w3 t3] r3].
    cbn [fst snd] in *.
    change (QueryExecutor.trace w2) with (QueryExecutor.trace w1) in Htrace2.
    rewrite Htrace2, Htrace, <- app_assoc. eexists. split; [done|].
    cbn [app]. split.
    - cbn [forallb app] in *. rewrite forallb_app.
      apply andb_true_iff in Hquiet as [_ ->].
      by rewrite (forallb_impl _ _ _ Hlistener Hevs2).
    - eexists. split; [done|].
      by rewrite forallb_app, Hevs, (forallb_impl _ _ _ Hhooks Hevs2). }
  unfold QueryExecutor.executeTask.
  destruct (QueryExecutor.loader taskData) as [loader|],
           (QueryExecutor.traverser taskData) as [traverser|];
    try apply (Hfresh w).
  destruct (QueryExecutor_executeQuery_query_calls key.1
              (QueryExecutor.request taskData) loader traverser w)
    as (evs & Htrace & Hevs).
  destruct (QueryExecutor.executeQuery _ _ _ _ _ _) as [[w3 t3] r3].
  cbn [fst snd] in *. exists evs. split; [done|].
  by rewrite (forallb_impl _ _ _ Hlistener Hevs).
Qed.

(** X16.  The request hooks are run once per request: executeTask of the
    executor runs them as its first call when the task has no loader or no
    traverser yet, and never again in that run; for a resumed task, one
    that has both, it makes only the calls of executeQuery, so that it runs
    no request hooks, decodes no extension and starts no traversal. *)
Theorem request_hooks_run_once key taskData (w : QueryExecutor.executor) :
  let r := QueryExecutor.executeTask env key taskData w in
  ∃ evs,
    QueryExecutor.trace r.1 = QueryExecutor.trace w ++ evs ∧
    match QueryExecutor.loader taskData, QueryExecutor.traverser taskData with
    | Some _, Some _ =>
        forallb isQueryCall evs = true ∧
        forallb (λ e, negb (isRequestHooksCall e)) evs = true ∧
        forallb (λ e, negb (isRequestExtensionCall e)) evs = true ∧
        forallb (λ e, negb (isTraversalStart e)) evs = true
    | _, _ =>
        ∃ evs', evs = Ev.ProcessRequestHooks key.1
                        (QueryExecutor.request taskData) :: evs' ∧
                forallb (λ e, negb (isRequestHooksCall e)) evs' = true
    end.
Proof.
  cbv zeta.
  destruct (QueryExecutor_executeTask_calls key taskData w)
    as (evs & Htrace & _ & Hevs).
  exists evs. split; [done|].
  destruct (QueryExecutor.loader taskData) as [loader|],
           (QueryExecutor.traverser taskData) as [traverser|]; try done.
  split; [done|].
  split; [|split]; apply (forallb_impl isQueryCall); try done; by intros [].
Qed.

(* nothing the executor does changes what it knows of qe.ctx *)
Lemma processUpdates_ctxDone p request updates : ∀ w : QueryExecutor.executor,
  QueryExecutor.ctxDone (QueryExecutor.processUpdates env p request updates w).1
  = QueryExecutor.ctxDone w.
Proof.
  induction updates as [|update updates IH]; intros w; [done|].
  cbn [QueryExecutor.processUpdates].
  destruct (hooks.UpdateErr _); [done|]. by rewrite IH.
Qed.

Lemma sendMessage_ctxDone m (w : QueryExecutor.executor) :
  QueryExecutor.ctxDone (QueryExecutor.sendMessage m w).1 =
  QueryExecutor.ctxDone w.
Proof.
  unfold QueryExecutor.sendMessage. cbn -[select].
  by destruct (select _ _) as [[]|].
Qed.

Lemma checkForUpdates_loop_ctxDone p request pending :
  ∀ w : QueryExecutor.executor,
  QueryExecutor.ctxDone
    (QueryExecutor.checkForUpdates_loop env pending p request w).1 =
  QueryExecutor.ctxDone w.
Proof.
  induction pending as [|pending IH]; intros w.
  - cbn -[select]. destruct (select _ _) as [[]|]; try done.
    by destruct (hd false _).
  - cbn -[select QueryExecutor.sendMessage].
    destruct (select _ _) as [[]|]; try done; [by destruct (hd false _)|].
    pose proof (sendMessage_ctxDone
      (QueryExecutor.responseUpdateRequest (p, gsmsg.ID request))
      (QueryExecutor.set_updateSignal pending
         (QueryExecutor.set_choices (tl (QueryExecutor.choices w)) w)))
      as Hsend.
    destruct (QueryExecutor.sendMessage _ _) as [w2 isSent].
    cbn [fst QueryExecutor.ctxDone QueryExecutor.set_updateSignal
         QueryExecutor.set_choices] in Hsend.
    destruct (select _ [(isSent, true); _]) as [[]|];
      [|by rewrite IH..].
    pose proof (processUpdates_ctxDone p request
      (hd [] (QueryExecutor.updateReplies w2))
      (QueryExecutor.set_updateReplies (tl (QueryExecutor.updateReplies w2))
         (QueryExecutor.set_choices (tl (QueryExecutor.choices w2)) w2)))
      as Hupdates.
    destruct (QueryExecutor.processUpdates _ _ _ _ _) as [w3 [e|]];
      cbn [fst QueryExecutor.ctxDone QueryExecutor.set_updateReplies
           QueryExecutor.set_choices] in Hupdates.
    + cbn [fst]. by rewrite Hupdates.
    + by rewrite IH, Hupdates.
Qed.

Lemma QueryExecutor_sendBlock_ctxDone p request lnk data
    (w : QueryExecutor.executor) :
  QueryExecutor.ctxDone (QueryExecutor.sendBlock env p request lnk data w).1 =
  QueryExecutor.ctxDone w.
Proof.
  destruct (QueryExecutor.checkForUpdates env p request
              (QueryExecutor.call_
                 (Ev.TransactionBegin p (gsmsg.ID request)) w))
    as [w1 err] eqn:Hpoll.
  rewrite (QueryExecutor_sendBlock_eq env p request lnk data w w1 err Hpoll).
  pose proof (checkForUpdates_loop_ctxDone p request
    (QueryExecutor.updateSignal w)
    (QueryExecutor.call_ (Ev.TransactionBegin p (gsmsg.ID request)) w))
    as Hdone.
  unfold QueryExecutor.checkForUpdates in Hpoll.
  cbn [QueryExecutor.updateSignal QueryExecutor.call_ QueryExecutor.set_trace]
    in Hpoll.
  rewrite Hpoll in Hdone. cbn in Hdone.
  destruct (negb (isErrPaused err) && bool_decide (err ≠ None)); [done|].
  cbv zeta. by destruct (bool_decide (graphsync.BlockSize _ > 0)).
Qed.

Lemma QueryExecutor_executeQuery_ctxDone p request loader traverser
    (w : QueryExecutor.executor) :
  QueryExecutor.ctxDone
    (QueryExecutor.executeQuery env p request loader traverser w).1.1 =
  QueryExecutor.ctxDone w.
Proof.
  pose proof (RunTraversal_invariant
    (λ w', QueryExecutor.ctxDone w' = QueryExecutor.ctxDone w)
    loader (QueryExecutor.sendBlock env p request) traverser) as Hrun.
  unfold QueryExecutor.executeQuery.
  destruct (RunTraversal _ _ _ _) as [[w1 t1] err] eqn:Htraversal.
  assert (QueryExecutor.ctxDone w1 = QueryExecutor.ctxDone w) as Hw1.
  { assert (∀ lnk data (w' : QueryExecutor.executor),
              QueryExecutor.ctxDone w' = QueryExecutor.ctxDone w →
              QueryExecutor.ctxDone
                (QueryExecutor.sendBlock env p request lnk data w').1 =
              QueryExecutor.ctxDone w) as Hkeep
      by (intros lnk data w' Hw';
          by rewrite QueryExecutor_sendBlock_ctxDone).
    specialize (Hrun Hkeep w eq_refl).
    by rewrite Htraversal in Hrun. }
  destruct err as [e|]; [|done].
  destruct (isErrPaused (Some e)); [done|].
  destruct (QueryExecutor.isContextErr env e); [done|].
  by destruct (bool_decide (e = errCancelledByCommand)).
Qed.

Lemma QueryExecutor_executeTask_ctxDone key taskData
    (w : QueryExecutor.executor) :
  QueryExecutor.ctxDone (QueryExecutor.executeTask env key taskData w).1 =
  QueryExecutor.ctxDone w.
Proof.
  assert (∀ loader traverser (w1 : QueryExecutor.executor),
    QueryExecutor.ctxDone w1 = QueryExecutor.ctxDone w →
    QueryExecutor.ctxDone
      (let '(w', _, r) :=
         QueryExecutor.executeQuery env key.1 (QueryExecutor.request taskData)
           loader traverser w1 in (w', r)).1 = QueryExecutor.ctxDone w)
    as Hquery.
  { intros loader traverser w1 Hw1.
    pose proof (QueryExecutor_executeQuery_ctxDone key.1
      (QueryExecutor.request taskData) loader traverser w1) as Hdone.
    destruct (QueryExecutor.executeQuery _ _ _ _ _ _) as [[w3 t3] r3].
    cbn [fst] in *. by rewrite Hdone. }
  assert (∀ w1 : QueryExecutor.executor,
    QueryExecutor.ctxDone
      match QueryExecutor.prepareQuery env (QueryExecutor.ctx taskData) key.1
              (QueryExecutor.request taskData) w with
      | (w, inr err) => (w, (graphsync.RequestFailedUnknown, Some err))
      | (w, inl (loader, traverser, isPaused)) =>
          let '(c, w) := QueryExecutor.pick w in
          match select c [(QueryExecutor.ctxDone w, false); (true, true)] with
          | Some true =>
              let w := QueryExecutor.set_sent
                (QueryExecutor.sent w ++
                 [QueryExecutor.setResponseDataRequest key loader traverser])
                w in
              if isPaused then (w, (graphsync.RequestPaused, Some ErrPaused))
              else
                let '(w, _, r) :=
                  QueryExecutor.executeQuery env key.1
                    (QueryExecutor.request taskData) loader traverser w
                in (w, r)
          | _ => (w, (graphsync.RequestFailedUnknown,
                      Some (errorNew "context cancelled")))
          end
      end.1 = QueryExecutor.ctxDone w) as Hfresh.
  { intros _.
    destruct (QueryExecutor_prepareQuery_quiet
                (QueryExecutor.ctx taskData) key.1
                (QueryExecutor.request taskData) w) as [Hdone _].
    destruct (QueryExecutor.prepareQuery _ _ _ _ _)
      as [w1 [[[loader traverser] isPaused]|err]]; cbn [fst snd] in *;
      [|done].
    cbn -[select QueryExecutor.executeQuery].
    destruct (select _ _) as [[]|]; [|done..].
    destruct isPaused; [done|]. by apply Hquery. }
  unfold QueryExecutor.executeTask.
  destruct (QueryExecutor.loader taskData) as [loader|],
           (QueryExecutor.traverser taskData) as [traverser|];
    try apply (Hfresh w).
  by apply Hquery.
Qed.

(** X17.  One task of processQueriesWorker, while the context of the
    executor is live and the task data is not empty: the worker asks for
    the task data, runs executeTask, notifies the listeners and reports the
    end of the task.  executeTask itself notifies no listener.  After it
    exactly one listener is notified, as the last call: the cancelled
    listeners when the error is a context error, else, unless the error is
    ErrPaused, the completed listeners with the status executeTask
    returned; for a paused task no listener is notified.  The last message
    sent is finishTaskRequest with the status and the error that
    executeTask returned. *)
Theorem one_notification_per_task key taskData (w : QueryExecutor.executor) :
  QueryExecutor.ctxDone w = false → QueryExecutor.empty taskData = false →
  let started :=
    QueryExecutor.set_choices (tl (tl (QueryExecutor.choices w)))
      (QueryExecutor.set_sent
         (QueryExecutor.sent w ++ [QueryExecutor.responseDataRequest key]) w) in
  let r := QueryExecutor.executeTask env key taskData started in
  let status := r.2.1 in
  let err := r.2.2 in
  let isCancelled :=
    match err with
    | Some e => QueryExecutor.isContextErr env e
    | None => false
    end in
  ∃ w',
    QueryExecutor.processTask env key taskData w = QueryExecutor.Next w' ∧
    QueryExecutor.trace w' =
      QueryExecutor.trace r.1 ++
      (if isCancelled
       then [Ev.NotifyCancelledListeners key.1 (QueryExecutor.request taskData)]
       else if isErrPaused err then []
       else [Ev.NotifyCompletedListeners key.1
               (QueryExecutor.request taskData) status]) ∧
    QueryExecutor.sent w' =
      QueryExecutor.sent r.1 ++ [QueryExecutor.finishTaskRequest key status err] ∧
    ∃ evs, QueryExecutor.trace r.1 = QueryExecutor.trace w ++ evs ∧
           forallb (λ e, negb (isListenerCall e)) evs = true.
Proof.
  intros Hctx Hempty. cbv zeta.
  set (started := QueryExecutor.set_choices _ _).
  pose proof (QueryExecutor_executeTask_ctxDone key taskData started) as Hdone.
  destruct (QueryExecutor_executeTask_calls key taskData started)
    as (evs & Htrace & Hevs & _).
  unfold QueryExecutor.processTask, QueryExecutor.sendMessage.
  repeat (progress (cbn -[select QueryExecutor.executeTask];
                    rewrite ?Hctx, ?select_first_only)).
  rewrite Hempty.
  change (QueryExecutor.executeTask env key taskData _)
    with (QueryExecutor.executeTask env key taskData started).
  destruct (QueryExecutor.executeTask env key taskData started)
    as [w1 [status err]].
  cbn [fst snd] in *. change (QueryExecutor.ctxDone started) with
    (QueryExecutor.ctxDone w) in Hdone. rewrite Hctx in Hdone.
  change (QueryExecutor.trace started) with (QueryExecutor.trace w) in Htrace.
  set (isCancelled := match err with
                      | Some e => QueryExecutor.isContextErr env e
                      | None => false
                      end).
  destruct isCancelled; [|destruct (isErrPaused err)];
    cbn -[select]; rewrite Hdone, select_first_only;
    (eexists; split; [reflexivity|]); cbn; rewrite ?app_nil_r;
    (split; [done|]); (split; [done|]); exists evs; by split.
Qed.

End TaskProofs.

Lemma one_notification_per_task_witness :
  ∃ w',
    QueryExecutor.processTask env0 ("P", 1) taskData1 executor0 =
      QueryExecutor.Next w' ∧
    QueryExecutor.trace w' =
      [Ev.ProcessRequestHooks "P" request1;
       Ev.TransactionBegin "P" 1; Ev.TransactionEnd "P" 1;
       Ev.TraversalStart 0 "A" [];
       Ev.TransactionBegin "P" 1; Ev.SendResponse "P" 1 "A" [Byte.x2a];
       Ev.ProcessBlockHooks "P" request1
         {| graphsync.BlockLink := "A"; graphsync.BlockSize := 1;
            graphsync.BlockIndex := 1 |};
       Ev.TransactionEnd "P" 1; Ev.FinishRequest "P" 1;
       Ev.NotifyCompletedListeners "P" request1 graphsync.RequestCompletedFull].
Proof.
  destruct (one_notification_per_task env0 ("P", 1) taskData1 executor0
              eq_refl eq_refl) as (w' & Hnext & Htrace & _).
  exists w'. split; [exact Hnext|]. rewrite Htrace. reflexivity.
Defined.

(** ** Update hooks *)

Section UpdateProofs.
Context (env : Env).

(** X18.  The loop over the updates of one reply runs the update hooks on
    the updates in the order they came and sends the extensions of each
    result right after its hook; it stops at the first result that carries
    an error, which it returns, and returns nil when no result does.  So
    there is a list of results, one for each of the first updates: each is
    what the update hooks answer after the calls made for the updates
    before it, every result but the last carries no error, the error
    returned is that of the last one, the results cover all the updates
    when nil is returned, and the calls made are exactly, for each of these
    updates in turn, ProcessUpdateHooks followed by one SendExtensionData
    per extension of the result.  Nothing else of the executor changes. *)
Theorem update_hooks_stop_at_first_error p request updates :
  ∀ w : QueryExecutor.executor,
  let r := QueryExecutor.processUpdates env p request updates w in
  let callsOf update result :=
    Ev.ProcessUpdateHooks p request update ::
    (Ev.SendExtensionData p (gsmsg.ID request)
       <$> hooks.UpdateExtensions result) in
  let callsUpTo n results :=
    concat (zip_with callsOf (take n updates) results) in
  ∃ results,
    (length results ≤ length updates)%nat ∧
    r.1 = QueryExecutor.calls (callsUpTo (length results) results) w ∧
    (∀ i update result,
       updates !! i = Some update → results !! i = Some result →
       result = ProcessUpdateHooks env
                  (QueryExecutor.trace w ++ callsUpTo i results)
                  p request update ∧
       ((S i < length results)%nat → hooks.UpdateErr result = None)) ∧
    r.2 = (last results ≫= hooks.UpdateErr) ∧
    (r.2 = None → length results = length updates).
Proof.
  induction updates as [|update updates IH]; intros w; cbv zeta.
  - exists []. cbn. split; [done|]. split.
    { destruct w. unfold QueryExecutor.calls, QueryExecutor.set_trace. cbn.
      by rewrite app_nil_r. }
    by repeat split.
  - cbn [QueryExecutor.processUpdates].
    set (result := ProcessUpdateHooks env (QueryExecutor.trace w) p request
                     update).
    rewrite QueryExecutor_call_calls, QueryExecutor_calls_calls.
    destruct (hooks.UpdateErr result) as [e|] eqn:Herr.
    + exists [result]. cbn [fst snd length take zip_with concat last mbind
                            option_bind].
      split; [lia|]. split; [by rewrite app_nil_r|]. split.
      { intros [|i] update' result'; cbn; [|done].
        intros [= <-] [= <-]. rewrite app_nil_r. split; [done|lia]. }
      by rewrite Herr.
    + destruct (IH (QueryExecutor.calls
                      ([Ev.ProcessUpdateHooks p request update] ++
                       (Ev.SendExtensionData p (gsmsg.ID request)
                          <$> hooks.UpdateExtensions result)) w))
        as (results & Hlen & Hstate & Heach & Herror & Hnil).
      exists (result :: results).
      cbn [length take zip_with concat].
      split; [lia|]. split.
      { rewrite Hstate, QueryExecutor_calls_calls. done. }
      split.
      { intros [|i] update' result'; cbn [lookup list_lookup take zip_with
                                            concat].
        - intros [= <-] [= <-]. cbn. rewrite app_nil_r. split; [done|].
          by rewrite Herr.
        - intros Hupdate Hresult.
          destruct (Heach i update' result' Hupdate Hresult) as [-> Hnext].
          split; [|intros Hi; apply Hnext; cbn in Hi; lia].
          cbn. by rewrite <- app_assoc. }
      split.
      { rewrite Herror. destruct results as [|result' results]; [|done].
        cbn. by rewrite Herr. }
      intros Hr. cbn. by rewrite (Hnil Hr).
Qed.

End UpdateProofs.

(* three updates, the second refused: the third is not looked at *)
Example processUpdates_stops_at_the_refused_update :
  QueryExecutor.processUpdates env_update_refused "P" request1
    [update1; update1; update1] executor0 =
  (QueryExecutor.calls
     [Ev.ProcessUpdateHooks "P" request1 update1;
      Ev.SendExtensionData "P" 1 extension1;
      Ev.ProcessUpdateHooks "P" request1 update1;
      Ev.SendExtensionData "P" 1 extension1] executor0,
   Some (errorNew "update refused")).
Proof. reflexivity. Qed.

(** ** Context errors *)

Lemma append_String c (a post : string) :
  String.append (String c a) post = String c (String.append a post).
Proof. reflexivity. Qed.

Lemma prefix_append (a s : string) :
  String.prefix a s = true ↔ ∃ post, s = String.append a post.
Proof.
  revert s. induction a as [|c a IH]; intros s.
  - split; [intros _; by exists s|]. by destruct s.
  - destruct s as [|c' s]; cbn [String.prefix].
    + split; [done|]. intros [post Hpost]. by rewrite append_String in Hpost.
    + destruct (Ascii.ascii_dec c c') as [->|Hne].
      * rewrite IH. split; intros [post Hpost]; exists post;
          rewrite append_String in *; congruence.
      * split; [done|]. intros [post Hpost].
        rewrite append_String in Hpost. congruence.
Qed.

Lemma strings_Contains_iff (s substr : string) :
  strings_Contains s substr = true ↔
  ∃ pre post, s = String.append pre (String.append substr post).
Proof.
  induction s as [|c s IH].
  - cbn [strings_Contains]. rewrite orb_false_r, prefix_append. split.
    + intros [post Hpost]. by exists EmptyString, post.
    + intros ([|c pre] & post & Hs); [by exists post|].
      by rewrite append_String in Hs.
  - cbn [strings_Contains]. rewrite orb_true_iff, prefix_append, IH. split.
    + intros [[post Hpost] | (pre & post & Hs)].
      * by exists EmptyString, post.
      * exists (String c pre), post. by rewrite append_String, Hs.
    + intros ([|c' pre] & post & Hs).
      * left. by exists post.
      * right. exists pre, post. rewrite append_String in Hs. congruence.
Qed.

(** X19.  isContextErr goes by the message of the error: an error counts as
    a context error exactly when its message contains the message of
    ContextCancelError somewhere, so that ContextCancelError itself and any
    error that wraps its message do, whatever their type. *)
Theorem isContextErr_by_message env (err : error) :
  QueryExecutor.isContextErr env err = true ↔
  ∃ pre post,
    Error env err =
      String.append pre (String.append (ContextCancelError_Error env) post).
Proof. apply strings_Contains_iff. Qed.

(** ** The pattern of the temporary directory *)

(** X20.  The pattern newTempDirMaker makes from the name of a benchmark
    has the length of the name and holds no slash, backslash or colon:
    each of these bytes has become an underscore, and every other byte is
    kept at its place.  Replacing again changes nothing. *)
Theorem tempDir_pattern_has_no_separator (name : string) :
  String.length (tempDirReplacer_Replace name) = String.length name ∧
  (∀ n, String.get n (tempDirReplacer_Replace name) =
        tempDirReplacer <$> String.get n name) ∧
  (∀ n c, String.get n (tempDirReplacer_Replace name) = Some c →
          c ≠ "/"%char ∧ c ≠ "\"%char ∧ c ≠ ":"%char ∧
          ∃ c', String.get n name = Some c' ∧
                (c = c' ∨ c = "_"%char ∧
                          (c' = "/" ∨ c' = "\" ∨ c' = ":")%char)) ∧
  tempDirReplacer_Replace (tempDirReplacer_Replace name) =
    tempDirReplacer_Replace name.
Proof.
  assert (∀ n, String.get n (tempDirReplacer_Replace name) =
               tempDirReplacer <$> String.get n name) as Hget.
  { induction name as [|c name IH]; intros n; [done|].
    destruct n as [|n]; [done|]. cbn. apply IH. }
  split; [|split; [exact Hget|split]].
  - clear Hget. induction name as [|c name IH]; [done|].
    cbn [tempDirReplacer_Replace String.length]. by rewrite IH.
  - intros n c. rewrite Hget.
    destruct (String.get n name) as [c'|]; [|done].
    intros [= <-]. unfold tempDirReplacer.
    destruct (Ascii.eqb_spec c' "/") as [->|Hslash];
      [cbn; (split; [done|]); (split; [done|]); (split; [done|]);
       eexists; split; [done|]; right; split; [done|]; by left|].
    destruct (Ascii.eqb_spec c' "\") as [->|Hback];
      [cbn; (split; [done|]); (split; [done|]); (split; [done|]);
       eexists; split; [done|]; right; split; [done|]; right; by left|].
    destruct (Ascii.eqb_spec c' ":") as [->|Hcolon];
      [cbn; (split; [done|]); (split; [done|]); (split; [done|]);
       eexists; split; [done|]; right; split; [done|]; right; by right|].
    cbn. split; [done|]. split; [done|]. split; [done|].
    eexists. split; [done|]. by left.
  - clear Hget. induction name as [|c name IH]; [done|].
    cbn [tempDirReplacer_Replace]. rewrite IH. f_equal.
    unfold tempDirReplacer.
    destruct (Ascii.eqb_spec c "/") as [->|Hslash]; [done|].
    destruct (Ascii.eqb_spec c "\") as [->|Hback]; [done|].
    destruct (Ascii.eqb_spec c ":") as [->|Hcolon]; [done|].
    cbn. apply Ascii.eqb_neq in Hslash, Hback, Hcolon.
    by rewrite Hslash, Hback, Hcolon.
Qed.

(** ** A request from its arrival to its end *)

Section LifeProofs.
Import ResponseManager.
Context `{QueryQueue Q}.
Implicit Types rm : ResponseManager (Q := Q).

(** X21.  A new request followed by the end of its task, with an error
    that is not ErrPaused or with none, in a manager whose contexts were
    handed out in increasing order: the entry the request made is gone and
    the table is the one before the request without the key (the very same
    table when the key was not in use); the context made for the request is
    the one cancelFn is called on, once, and it was never cancelled before;
    the queue is as the push of the task for the request left it. *)
Theorem request_then_finish rm p request err :
  wf rm → gsmsg.IsCancel request = false → err ≠ Some ErrPaused →
  let key := (p, gsmsg.ID request) in
  let rm' := finishTaskRequest_handle key err (handleRequest p request rm) in
  inProgressResponses rm' = delete key (inProgressResponses rm) ∧
  (inProgressResponses rm !! key = None →
   inProgressResponses rm' = inProgressResponses rm) ∧
  cancelCalls rm' = cancelCalls rm ++ [nextCtx rm] ∧
  (nextCtx rm ∉ cancelCalls rm) ∧
  isDone (nextCtx rm) rm' = true ∧
  queryQueue rm' =
    PushTasks p [{| peertask.Topic := key;
                    peertask.Priority := gsmsg.Priority request;
                    peertask.Work := 1 |}] (queryQueue rm).
Proof.
  intros [_ Hcancelled] Hnew Herr. cbv zeta.
  unfold handleRequest, finishTaskRequest_handle. rewrite Hnew.
  cbn [negb inProgressResponses set_inProgressResponses set_queryQueue
       set_nextCtx pokeWorkSignal set_workSignal].
  rewrite lookup_insert_eq. rewrite decide_False by done.
  assert (nextCtx rm ∉ cancelCalls rm) as Hfresh
    by (intros Hin%Hcancelled; lia).
  destruct err as [e|]; unfold isDone; cbn;
    rewrite delete_insert_eq;
    (split; [done|]);
    (split; [intros Hnone; by apply delete_id|]);
    (split; [done|]); (split; [done|]);
    (split; [|done]);
    (rewrite bool_decide_eq_true_2;
       [apply orb_true_r | apply elem_of_app; right; by left]).
Qed.

(** X22.  A cancel for a paused response leaves the table as it is, the
    entry still paused: the queue is asked to remove its task and its
    context is cancelled.  The response can still be unpaused: the unpause
    returns no error and pushes a task of the highest priority for a
    response whose context is done. *)
Theorem cancel_of_a_paused_response rm p request response :
  gsmsg.IsCancel request = true →
  inProgressResponses rm !! (p, gsmsg.ID request) = Some response →
  isPaused response = true →
  let key := (p, gsmsg.ID request) in
  let rm' := handleRequest p request rm in
  inProgressResponses rm' = inProgressResponses rm ∧
  queryQueue rm' = Remove key p (queryQueue rm) ∧
  cancelCalls rm' = cancelCalls rm ++ [ctx response] ∧
  isDone (ctx response) rm' = true ∧
  let unpaused := unpauseRequest p (gsmsg.ID request) rm' in
  unpaused.2 = None ∧
  inProgressResponses unpaused.1 !! key = Some (set_isPaused false response) ∧
  isDone (ctx response) unpaused.1 = true ∧
  queryQueue unpaused.1 =
    PushTasks p [{| peertask.Topic := key; peertask.Priority := math_MaxInt32;
                    peertask.Work := 1 |}] (Remove key p (queryQueue rm)).
Proof.
  intros Hcancel Hkey Hpaused. cbv zeta.
  unfold handleRequest, unpauseRequest, isDone. rewrite Hcancel.
  cbn. rewrite Hkey. cbn. rewrite Hkey, Hpaused. cbn.
  rewrite lookup_insert_eq.
  assert (bool_decide (ctx response ∈ cancelCalls rm ++ [ctx response]) = true)
    as -> by (apply bool_decide_eq_true_2, elem_of_app; right; by left).
  rewrite orb_true_r. done.
Qed.

End LifeProofs.

Lemma request_then_finish_witness :
  ResponseManager.inProgressResponses rm1_done = ∅ ∧
  ResponseManager.cancelCalls rm1_done = [0%nat].
Proof.
  destruct (request_then_finish (ResponseManager.New ([] : list queueCall))
              "P" request1 None (wf_New _) eq_refl ltac:(done))
    as (_ & Htable & Hcancel & _).
  split; [exact (Htable eq_refl) | exact Hcancel].
Defined.

Lemma cancel_of_a_paused_response_witness :
  (ResponseManager.unpauseRequest "P" 1
     (ResponseManager.handleRequest "P" cancel1 rm1_paused)).2 = None ∧
  ResponseManager.isDone 0
    (ResponseManager.handleRequest "P" cancel1 rm1_paused) = true.
Proof.
  destruct (cancel_of_a_paused_response rm1_paused "P" cancel1 _
              eq_refl rm1_paused_lookup eq_refl)
    as (_ & _ & _ & Hdone & Hunpaused & _).
  split; [exact Hunpaused | exact Hdone].
Defined.
